(** * TTNet: crop / recentre arithmetic, target builders and weight loading

    A shallow embedding of the non-learned logic of the TTNet repository:

    - [src/models/TTNet.py]: [TTNet.get_crop_params],
      [TTNet.crop_original_batch], [TTNet.forward], and the shapes of
      [BallDetection], [EventsSpotting] and [Segmentation];
    - [src/inference/demo.py]: the reconstruction of the final ball position
      and the queue of predictions;
    - [src/data_process/ttnet_data_utils.py]: [create_target_ball],
      [create_target_events], [get_events_infor];
    - [src/models/model_utils.py]: [create_model], [get_num_parameters],
      [freeze_model], [load_weights_local_stage], [load_pretrained_model],
      [make_data_parallel];
    - [src/models/unbalanced_loss_model.py]: [Unbalance_Loss_Model.forward];
    - [src/training/main.py]: the ranks of the processes and the loop over
      the epochs.

    Conventions.  Python integers are [Z].  The entries of float tensors,
    and the floats of the crop logic, are idealised as rationals [Q]: the
    code only compares, copies, adds and scales them, and for the frame
    sizes the repository uses (1920x1080 resized to 320x128) both scale
    factors, 6 and 135/16, are dyadic, so every product the crop logic
    truncates is exact in binary floating point as well.  Where rounding
    or NaN matters the floats are modelled as such: the division of
    [make_data_parallel] rounds to the nearest double, and the losses of
    the training loop may be infinite or NaN.  Learned layers
    (convolutions, linear layers, batch norm, the exponential of the
    Gaussian target) are parameters, or are followed by their shapes only.
    Python exceptions are the [None] of an option. *)

From Stdlib Require Import ZArith QArith Qround List Bool Lia Lqa.
From Stdlib Require String Ascii Finite.
Import ListNotations.

Local Open Scope Z_scope.

(** ** Python primitives *)

Module Py.

(** [int(q)] on a float: truncation towards zero. *)
Definition int (q : Q) : Z := Z.quot (Qnum q) (Z.pos (Qden q)).

(** True division [a / b] of two integers; [ZeroDivisionError] is [None]. *)
Definition truediv (a b : Z) : option Q :=
  if b =? 0 then None else Some (inject_Z a / inject_Z b)%Q.

(** Normalisation of one bound of a slice against a length [len]:
    a negative bound counts from the end, and the result is clipped. *)
Definition slice_bound (len i : Z) : Z :=
  if i <? 0 then Z.max 0 (i + len) else Z.min i len.

(** The first index and the number of elements of [start:stop]. *)
Definition slice_lo (len start : Z) : Z := slice_bound len start.
Definition slice_len (len start stop : Z) : Z :=
  Z.max 0 (slice_bound len stop - slice_bound len start).

(** [l[start:stop]], [l[:stop]] and [l[start:]] on a list. *)
Definition slice {A} (start stop : Z) (l : list A) : list A :=
  let len := Z.of_nat (length l) in
  firstn (Z.to_nat (slice_len len start stop))
         (skipn (Z.to_nat (slice_lo len start)) l).
Definition slice_to {A} (stop : Z) (l : list A) : list A := slice 0 stop l.
Definition slice_from {A} (start : Z) (l : list A) : list A :=
  slice start (Z.of_nat (length l)) l.

(** [l[i]] with Python's negative indices; [IndexError] is [None]. *)
Definition index_norm (len i : Z) : option Z :=
  let j := if i <? 0 then i + len else i in
  if (0 <=? j) && (j <? len) then Some j else None.

Definition getitem {A} (l : list A) (i : Z) : option A :=
  match index_norm (Z.of_nat (length l)) i with
  | Some j => nth_error l (Z.to_nat j)
  | None => None
  end.

Fixpoint set_nth {A} (l : list A) (n : nat) (v : A) : list A :=
  match l, n with
  | [], _ => []
  | _ :: t, O => v :: t
  | x :: t, S k => x :: set_nth t k v
  end.

(** [l[i] = v]; [IndexError] is [None]. *)
Definition setitem {A} (l : list A) (i : Z) (v : A) : option (list A) :=
  match index_norm (Z.of_nat (length l)) i with
  | Some j => Some (set_nth l (Z.to_nat j) v)
  | None => None
  end.

(** [range(n)]. *)
Definition range (n : Z) : list Z := map Z.of_nat (seq 0 (Z.to_nat n)).

End Py.

(** ** Float tensors *)

Module Torch.

Local Open Scope Q_scope.

(** [torch.sum] of a vector. *)
Definition sum (v : list Q) : Q := fold_left Qplus v 0.

(** [torch.argmax] of a vector: the index of the first maximal entry.
    The running best is replaced only by a strictly larger entry.
    An empty vector raises. *)
Fixpoint argmax_from (best : Q) (ibest i : Z) (v : list Q) : Z :=
  match v with
  | [] => ibest
  | x :: t =>
      if Qlt_le_dec best x then argmax_from x i (i + 1)%Z t
      else argmax_from best ibest (i + 1)%Z t
  end.

Definition argmax (v : list Q) : option Z :=
  match v with
  | [] => None
  | x :: t => Some (argmax_from x 0%Z 1%Z t)
  end.

(** [t > c] followed by [t * mask]: an entry is multiplied by 1 where it
    exceeds [c] and by 0 elsewhere. *)
Definition gt (c : Q) (x : Q) : bool := if Qlt_le_dec c x then true else false.
Definition mul_mask (x : Q) (m : bool) : Q := x * (if m then 1 else 0).

(** A four-dimensional tensor: its [size()] and its entries.  Entries
    outside the size are never read. *)
Record Tensor4 := mkTensor4 {
  size0 : Z; size1 : Z; size2 : Z; size3 : Z;
  elem4 : Z -> Z -> Z -> Z -> Q
}.

(** A three-dimensional tensor, as produced by [t[idx, :, a:b, c:d]]. *)
Record Tensor3 := mkTensor3 {
  dim0 : Z; dim1 : Z; dim2 : Z;
  elem3 : Z -> Z -> Z -> Q
}.

(** [torch.zeros_like(t)]: the sizes of [t], here without its dtype and
    device. *)
Definition zeros_like (t : Tensor4) : Tensor4 :=
  mkTensor4 (size0 t) (size1 t) (size2 t) (size3 t) (fun _ _ _ _ => 0).

(** [t[idx, :, y0:y1, x0:x1]] read as a value. *)
Definition get_crop (t : Tensor4) (idx y0 y1 x0 x1 : Z) : option Tensor3 :=
  match Py.index_norm (size0 t) idx with
  | None => None
  | Some i =>
      let ylo := Py.slice_lo (size2 t) y0 in
      let xlo := Py.slice_lo (size3 t) x0 in
      Some (mkTensor3 (size1 t)
                      (Py.slice_len (size2 t) y0 y1)
                      (Py.slice_len (size3 t) x0 x1)
                      (fun c y x => elem4 t i c (ylo + y)%Z (xlo + x)%Z))
  end.

(** A dimension of the assigned value fits a dimension of the target when
    they are equal or the value's is 1 (broadcasting). *)
Definition fits (src dst : Z) : bool := (src =? dst)%Z || (src =? 1)%Z.
Definition bcast (src i : Z) : Z := if (src =? 1)%Z then 0%Z else i.

(** [t[idx, :, y0:y1, x0:x1] = v]; an index out of range or a shape
    that does not fit raises. *)
Definition set_crop (t : Tensor4) (idx y0 y1 x0 x1 : Z) (v : Tensor3)
  : option Tensor4 :=
  match Py.index_norm (size0 t) idx with
  | None => None
  | Some i =>
      let ylo := Py.slice_lo (size2 t) y0 in
      let xlo := Py.slice_lo (size3 t) x0 in
      let ny := Py.slice_len (size2 t) y0 y1 in
      let nx := Py.slice_len (size3 t) x0 x1 in
      if fits (dim0 v) (size1 t) && fits (dim1 v) ny && fits (dim2 v) nx then
        Some (mkTensor4 (size0 t) (size1 t) (size2 t) (size3 t)
                (fun b c y x =>
                   if (b =? i)%Z
                      && (0 <=? c)%Z && (c <? size1 t)%Z
                      && (ylo <=? y)%Z && (y <? ylo + ny)%Z
                      && (xlo <=? x)%Z && (x <? xlo + nx)%Z
                   then elem3 v (bcast (dim0 v) c)
                                (bcast (dim1 v) (y - ylo)%Z)
                                (bcast (dim2 v) (x - xlo)%Z)
                   else elem4 t b c y x))
      else None
  end.

(** [t[idx, :, :, :] = v]. *)
Definition set_all (t : Tensor4) (idx : Z) (v : Tensor3) : option Tensor4 :=
  set_crop t idx 0 (size2 t) 0 (size3 t) v.

(** [torch.cat((a, b), dim=1)]; the other three sizes have to agree. *)
Definition cat1 (a b : Tensor4) : option Tensor4 :=
  if (size0 a =? size0 b)%Z && (size2 a =? size2 b)%Z
     && (size3 a =? size3 b)%Z then
    Some (mkTensor4 (size0 a) (size1 a + size1 b)%Z (size2 a) (size3 a)
            (fun n c y x =>
               if (c <? size1 a)%Z then elem4 a n c y x
               else elem4 b n (c - size1 a)%Z y x))
  else None.

End Torch.

(** ** [src/models/TTNet.py] *)

Module TTNet.

Import Torch.

(** What [BallDetection.forward] returns:
    [out, features, out_block2, out_block3, out_block4, out_block5]. *)
Record BallOut := mkBallOut {
  out : list (list Q);
  features : Tensor4;
  out_block2 : Tensor4;
  out_block3 : Tensor4;
  out_block4 : Tensor4;
  out_block5 : Tensor4
}.

(** The module [TTNet]: its four sub-modules and the two sizes stored by
    [__init__].  The sub-modules are learned layers, taken as functions
    of their inputs (evaluation mode) that raise on inputs they reject.
    [events_head] stands for the layers of [EventsSpotting.forward] that
    follow the concatenation. *)
Record TTNet := mkTTNet {
  ball_global_stage : Tensor4 -> option BallOut;
  ball_local_stage : Tensor4 -> option BallOut;
  events_head : Tensor4 -> option (list (list Q));
  segmentation : Tensor4 -> Tensor4 -> Tensor4 -> Tensor4 -> option Tensor4;
  w_resize : Z;
  h_resize : Z
}.

Definition get_crop_params
  (x_center y_center w_resize h_resize w_original h_original : Z)
  : Z * Z * Z * Z :=
  let x_min := Z.max 0 (x_center - Py.int (inject_Z w_resize / 2)) in
  let y_min := Z.max 0 (y_center - Py.int (inject_Z h_resize / 2)) in
  let x_max := Z.min w_original (x_min + w_resize) in
  let y_max := Z.min h_original (y_min + h_resize) in
  (x_min, x_max, y_min, y_max).

(** The threshold of [mask = pred_ball_global > 0.01]. *)
Definition thresh : Q := 1 # 100.

(** [pred_ball_global * mask], row by row. *)
Definition mask_row (row : list Q) : list Q :=
  map (fun p => mul_mask p (gt thresh p)) row.
Definition apply_mask (pred_ball_global : list (list Q)) : list (list Q) :=
  map mask_row pred_ball_global.

(** Lines 197-205 of [crop_original_batch]: the position of the ball on
    the resized grid, read from one row of the masked prediction. *)
Definition ball_pos (self : TTNet) (row : list Q) : option (Z * Z) :=
  let pred_ball_pos_x := Py.slice_to (w_resize self) row in
  let pred_ball_pos_y := Py.slice_from (w_resize self) row in
  if Qeq_bool (sum pred_ball_pos_x) 0 || Qeq_bool (sum pred_ball_pos_y) 0
  then Some (Py.int (inject_Z (w_resize self) / 2),
             Py.int (inject_Z (h_resize self) / 2))
  else
    match argmax pred_ball_pos_x, argmax pred_ball_pos_y with
    | Some ball_pos_x, Some ball_pos_y => Some (ball_pos_x, ball_pos_y)
    | _, _ => None
    end.

(** Lines 208-209: the position scaled to the original size. *)
Definition scale_pos (ratio : Q) (pos : Z) : Z := Py.int (inject_Z pos * ratio).

(** Lines 215-223: the crop is copied to the centre of the (zero) entry
    [idx] of [input_ball_local] when its size differs from the resized
    one, and fills the entry otherwise. *)
Definition put_crop (self : TTNet) (original_batch_input input_ball_local : Tensor4)
  (idx x_min x_max y_min y_max : Z) : option Tensor4 :=
  let h_crop := y_max - y_min in
  let w_crop := x_max - x_min in
  if negb (h_crop =? h_resize self) || negb (w_crop =? w_resize self) then
    let x_pad := Py.int (inject_Z (w_resize self - w_crop) / 2) in
    let y_pad := Py.int (inject_Z (h_resize self - h_crop) / 2) in
    match get_crop original_batch_input idx y_min y_max x_min x_max with
    | Some patch =>
        set_crop input_ball_local idx y_pad (y_pad + h_crop)
                 x_pad (x_pad + w_crop) patch
    | None => None
    end
  else
    match get_crop original_batch_input idx y_min y_max x_min x_max with
    | Some patch => set_all input_ball_local idx patch
    | None => None
    end.

(** The crop window of one batch element (lines 197-213). *)
Definition crop_window (self : TTNet) (h_ratio w_ratio : Q)
  (w_original h_original : Z) (row : list Q) : option (Z * Z * Z * Z) :=
  match ball_pos self row with
  | Some (ball_pos_x, ball_pos_y) =>
      let ball_pos_x := scale_pos w_ratio ball_pos_x in
      let ball_pos_y := scale_pos h_ratio ball_pos_y in
      Some (get_crop_params ball_pos_x ball_pos_y (w_resize self) (h_resize self)
                            w_original h_original)
  | None => None
  end.

(** One iteration of [for idx in range(b_size)]. *)
Definition crop_step (self : TTNet) (original_batch_input : Tensor4)
  (h_ratio w_ratio : Q) (pred_ball_global_mask : list (list Q))
  (input_ball_local : Tensor4) (idx : Z) : option Tensor4 :=
  match Py.getitem pred_ball_global_mask idx with
  | None => None
  | Some row =>
      match crop_window self h_ratio w_ratio (size3 original_batch_input)
                        (size2 original_batch_input) row with
      | Some (x_min, x_max, y_min, y_max) =>
          put_crop self original_batch_input input_ball_local
                   idx x_min x_max y_min y_max
      | None => None
      end
  end.

(** A [for] loop whose body may raise. *)
Fixpoint for_each {S} (body : S -> Z -> option S) (idxs : list Z) (s : S)
  : option S :=
  match idxs with
  | [] => Some s
  | i :: rest =>
      match body s i with
      | Some s' => for_each body rest s'
      | None => None
      end
  end.

Definition crop_original_batch (self : TTNet)
  (original_batch_input resize_batch_input : Tensor4)
  (pred_ball_global : list (list Q)) : option Tensor4 :=
  let b_size := size0 original_batch_input in
  let h_original := size2 original_batch_input in
  let w_original := size3 original_batch_input in
  match Py.truediv h_original (h_resize self),
        Py.truediv w_original (w_resize self) with
  | Some h_ratio, Some w_ratio =>
      let pred_ball_global_mask := apply_mask pred_ball_global in
      let input_ball_local := zeros_like resize_batch_input in
      for_each (crop_step self original_batch_input h_ratio w_ratio
                          pred_ball_global_mask)
               (Py.range b_size) input_ball_local
  | _, _ => None
  end.

(** The entry [(c, y, x)] of a local input that holds the crop
    [y_min:y_max, x_min:x_max] of element [idx] of the original batch in
    its centre, at the offsets [x_pad = floor((w_resize - w_crop) / 2)] and
    [y_pad = floor((h_resize - h_crop) / 2)], and zeros around it. *)
Definition centered_pad (self : TTNet) (original_batch_input : Tensor4)
  (idx x_min x_max y_min y_max c y x : Z) : Q :=
  let h_crop := y_max - y_min in
  let w_crop := x_max - x_min in
  let x_pad := (w_resize self - w_crop) / 2 in
  let y_pad := (h_resize self - h_crop) / 2 in
  if (y_pad <=? y) && (y <? y_pad + h_crop)
     && (x_pad <=? x) && (x <? x_pad + w_crop)
  then elem4 original_batch_input idx c (y_min + (y - y_pad)) (x_min + (x - x_pad))
  else 0%Q.

(** The shape the accumulator [input_ball_local] keeps during the loop. *)
Definition local_shape (self : TTNet) (original_batch_input t : Tensor4) : Prop :=
  size0 t = size0 original_batch_input
  /\ size1 t = size1 original_batch_input
  /\ size2 t = h_resize self /\ size3 t = w_resize self.

(** What one entry of the local input holds once its crop is placed. *)
Definition placed (self : TTNet) (original_batch_input : Tensor4)
  (idx x_min x_max y_min y_max c y x : Z) : Q :=
  if (y_max - y_min =? h_resize self) && (x_max - x_min =? w_resize self)
  then elem4 original_batch_input idx c (y_min + y) (x_min + x)
  else centered_pad self original_batch_input idx x_min x_max y_min y_max c y x.

(** The local input of element [idx] is the crop its own row selects:
    the row yields a window clamped to the original image, and the entry
    holds that window as [placed] says. *)
Definition entry_done (self : TTNet) (original_batch_input : Tensor4)
  (pred_ball_global_mask : list (list Q)) (idx : Z) (t : Tensor4) : Prop :=
  exists row x_min x_max y_min y_max,
    Py.getitem pred_ball_global_mask idx = Some row
    /\ crop_window self
         (inject_Z (size2 original_batch_input) / inject_Z (h_resize self))
         (inject_Z (size3 original_batch_input) / inject_Z (w_resize self))
         (size3 original_batch_input) (size2 original_batch_input) row
       = Some (x_min, x_max, y_min, y_max)
    /\ (0 <= x_min <= x_max /\ x_max <= size3 original_batch_input
        /\ 0 <= y_min <= y_max /\ y_max <= size2 original_batch_input
        /\ x_max - x_min <= w_resize self /\ y_max - y_min <= h_resize self)
    /\ forall c y x,
        0 <= c < size1 original_batch_input ->
        0 <= y < h_resize self -> 0 <= x < w_resize self ->
        elem4 t idx c y x
        = placed self original_batch_input idx x_min x_max y_min y_max c y x.

(** [EventsSpotting.forward]: the two feature maps are concatenated along
    the channels and handed to the remaining layers. *)
Definition events_spotting (self : TTNet) (global_features local_features : Tensor4)
  : option (list (list Q)) :=
  match cat1 global_features local_features with
  | Some input_eventspotting => events_head self input_eventspotting
  | None => None
  end.

Definition forward (self : TTNet) (original_batch_input resize_batch_input : Tensor4)
  : option (list (list Q) * list (list Q) * list (list Q) * Tensor4) :=
  match ball_global_stage self resize_batch_input with
  | None => None
  | Some g =>
      let pred_ball_global := out g in
      match crop_original_batch self original_batch_input resize_batch_input
                                pred_ball_global with
      | None => None
      | Some input_ball_local =>
          match ball_local_stage self input_ball_local with
          | None => None
          | Some l =>
              let pred_ball_local := out l in
              match events_spotting self (features g) (features l) with
              | None => None
              | Some pred_eventspotting =>
                  match segmentation self (out_block2 g) (out_block3 g)
                                     (out_block4 g) (out_block5 g) with
                  | None => None
                  | Some pred_segmentation =>
                      Some (pred_ball_global, pred_ball_local,
                            pred_eventspotting, pred_segmentation)
                  end
              end
          end
      end
  end.

(** A network for examples: its layers answer every batch with the
    same uniform prediction and hand their input on as feature map. *)
Definition example_stage (t : Tensor4) : option BallOut :=
  Some (mkBallOut (repeat (repeat (1 # 2) 448) (Z.to_nat (size0 t))) t t t t t).
Definition example_net : TTNet :=
  mkTTNet example_stage example_stage
          (fun t => Some (repeat [1 # 2; 1 # 2] (Z.to_nat (size0 t))))
          (fun b2 _ _ _ => Some b2)
          320 128.

(** A prediction row with one peak at column [i] and one at row [j] of
    the resized grid. *)
Definition example_peak (n i : nat) : list Q :=
  repeat 0%Q i ++ [9 # 10] ++ repeat 0%Q (n - i - 1).
Definition example_row (i j : nat) : list Q :=
  example_peak 320 i ++ example_peak 128 j.

(** The window centred on a position, in the words of the specification:
    half the resized size to either side of the centre. *)
Definition spec_centered_window (x_center y_center w_resize h_resize : Z)
  : Z * Z * Z * Z :=
  (x_center - w_resize / 2, x_center + w_resize / 2,
   y_center - h_resize / 2, y_center + h_resize / 2).

(** A batch of [b] frames with [c] channels whose entry is its column. *)
Definition example_frames (b c h w : Z) : Tensor4 :=
  mkTensor4 b c h w (fun _ _ _ x => inject_Z x).

End TTNet.

(** ** [src/inference/demo.py] *)

Module Demo.

Local Open Scope Q_scope.

Definition w_ratio : Q := 1920 / 320.
Definition h_ratio : Q := 1080 / 128.

(** Lines 63-66: the final position from the global and the local one. *)
Definition prediction_ball_final (prediction_global prediction_local : Z * Z)
  : Z * Z :=
  (Py.int (inject_Z (fst prediction_global) * w_ratio
           + inject_Z (fst prediction_local) - 320 / 2),
   Py.int (inject_Z (snd prediction_global) * h_ratio
           + inject_Z (snd prediction_local) - 128 / 2)).

End Demo.

(** ** [src/data_process/ttnet_data_utils.py] *)

Module DataUtils.

Local Open Scope Q_scope.

(** [torch.zeros((n,))]; a negative size raises. *)
Definition zeros (n : Z) : option (list Q) :=
  if (n <? 0)%Z then None else Some (repeat 0 (Z.to_nat n)).

(** [torch.arange(0, n)] as floats. *)
Definition arange (n : Z) : list Q := map inject_Z (Py.range n).

(** [t[start:stop] = v] on a vector: the value has to have the length of
    the slice, or length 1. *)
Definition set_slice (t : list Q) (start stop : Z) (v : list Q)
  : option (list Q) :=
  let len := Z.of_nat (length t) in
  let lo := Z.to_nat (Py.slice_lo len start) in
  let n := Z.to_nat (Py.slice_len len start stop) in
  if (length v =? n)%nat then Some (firstn lo t ++ v ++ skipn (lo + n) t)
  else
    match v with
    | [x] => Some (firstn lo t ++ repeat x n ++ skipn (lo + n) t)
    | _ => None
    end.

(** [t[t < thresh_mask] = 0.] *)
Definition zero_below (thresh_mask : Q) (t : list Q) : list Q :=
  map (fun x => if Qlt_le_dec x thresh_mask then 0 else x) t.

Section Targets.

(** [torch.exp]. *)
Variable exp : Q -> Q.

Definition gaussian_1d (pos muy sigma : Q) : Q :=
  exp (- (((pos - muy) / sigma) ^ 2) / 2).

Definition create_target_ball (ball_position_xy : Q * Q) (sigma : Q)
  (w h : Z) (thresh_mask : Q) : option (list Q) :=
  match zeros (w + h) with
  | None => None
  | Some target_ball_position =>
      let x := fst ball_position_xy in
      let y := snd ball_position_xy in
      if (if Qlt_le_dec x (inject_Z w) then true else false)
         && (if Qlt_le_dec 0 x then true else false)
         && (if Qlt_le_dec y (inject_Z h) then true else false)
         && (if Qlt_le_dec 0 y then true else false)
      then
        let x_pos := arange w in
        match set_slice target_ball_position 0 w
                (map (fun p => gaussian_1d p x sigma) x_pos) with
        | None => None
        | Some t1 =>
            let y_pos := arange h in
            match set_slice t1 w (Z.of_nat (length t1))
                    (map (fun p => gaussian_1d p y sigma) y_pos) with
            | None => None
            | Some t2 => Some (zero_below thresh_mask t2)
            end
        end
      else Some target_ball_position
  end.

End Targets.

Definition create_target_events (event_class : Z) : option (list Q) :=
  let target_event := repeat 0 2 in
  if (event_class <? 2)%Z then Py.setitem target_event event_class 1
  else Some target_event.

End DataUtils.

(** ** Python calls: binding of arguments and unpacking of results *)

Module Call.

Import String.
Local Open Scope string_scope.

Inductive Exception := TypeError | ValueError | AssertionError.

Inductive Result (A : Type) :=
| Ok (a : A)
| Raise (e : Exception).
Arguments Ok {A} a.
Arguments Raise {A} e.

(** The parameters of a function after [self], in order, and those among
    them that have a default. *)
Record Signature := mkSignature {
  params : list string;
  defaults : list string
}.

Definition mem (s : string) (l : list string) : bool :=
  existsb (String.eqb s) l.

(** A call with [npos] positional arguments and the keyword arguments
    [kwargs]: too many positionals, an unknown keyword, a parameter given
    twice or a parameter without value raise [TypeError]. *)
Definition bind (sig : Signature) (npos : nat) (kwargs : list string)
  : Result unit :=
  let given := firstn npos (params sig) in
  if (List.length (params sig) <? npos)%nat then Raise TypeError
  else if existsb (fun k => negb (mem k (params sig))) kwargs then Raise TypeError
  else if existsb (fun k => mem k given) kwargs then Raise TypeError
  else if existsb (fun p => negb (mem p given || mem p kwargs
                                  || mem p (defaults sig))) (params sig)
       then Raise TypeError
  else Ok tt.

(** [a, b, ... = value] with [targets] names on the left and a tuple of
    [values] entries on the right. *)
Definition unpack (targets values : nat) : Result unit :=
  if (targets =? values)%nat then Ok tt else Raise ValueError.

Definition andThen {A B} (r : Result A) (k : A -> Result B) : Result B :=
  match r with
  | Ok a => k a
  | Raise e => Raise e
  end.

End Call.

(** ** [src/models/unbalanced_loss_model.py] and [create_model] *)

Module Wrapper.

Import String Call.
Local Open Scope string_scope.

(** [TTNet.__init__(self, dropout_p, input_size=(320, 128))]. *)
Definition TTNet_init : Signature :=
  mkSignature ["dropout_p"; "input_size"] ["input_size"].

(** [TTNet.forward(self, original_batch_input, resize_batch_input)],
    which returns four values. *)
Definition TTNet_forward : Signature :=
  mkSignature ["original_batch_input"; "resize_batch_input"] [].
Definition TTNet_forward_returns : nat := 4.

(** [Unbalance_Loss_Model.__init__(self, model, num_events=2,
    weights_events=(1, 3), input_size=(320, 128), device=None)]. *)
Definition Unbalance_Loss_Model_init : Signature :=
  mkSignature ["model"; "num_events"; "weights_events"; "input_size"; "device"]
              ["num_events"; "weights_events"; "input_size"; "device"].

(** [Unbalance_Loss_Model.forward] up to its first statement: the wrapped
    model is called with three positional arguments and five values are
    unpacked from what it returns; the rest of the body then builds the
    targets and returns seven values. *)
Definition Unbalance_Loss_Model_forward (model : Signature) (model_returns : nat)
  : Result nat :=
  andThen (bind model 3 []) (fun _ =>
  andThen (unpack 5 model_returns) (fun _ =>
  Ok 7%nat)).

(** [create_model]: the constructor calls of the branch taken when
    [configs.multitask_learning] is false. *)
Definition create_model (arch : string) : Result unit :=
  if String.eqb arch "ttnet" then
    andThen (bind TTNet_init 0
               ["dropout_p"; "tasks"; "input_size"; "thresh_ball_pos_mask"])
      (fun _ =>
         bind Unbalance_Loss_Model_init 1
           ["tasks_loss_weight"; "weights_events"; "input_size"; "sigma";
            "thresh_ball_pos_mask"; "device"])
  else Raise AssertionError.

End Wrapper.

(** ** [src/models/model_utils.py]: [load_weights_local_stage] *)

Module ModelUtils.

Import String Ascii.
Local Open Scope string_scope.

(** [needle in s]. *)
Fixpoint contains (needle s : string) : bool :=
  prefix needle s
  || match s with
     | EmptyString => false
     | String _ rest => contains needle rest
     end.

(** [s.split(sep)] for a separator of one character. *)
Fixpoint split (sep : ascii) (s : string) : list string :=
  match s with
  | EmptyString => [EmptyString]
  | String c rest =>
      if Ascii.eqb c sep then EmptyString :: split sep rest
      else
        match split sep rest with
        | p :: ps => String c p :: ps
        | [] => [String c EmptyString]
        end
  end.

(** [sep.join(parts)]. *)
Definition join (sep : string) (parts : list string) : string :=
  concat sep parts.

(** Lines 120-122: the name under which a weight of the global stage is
    copied.  The second component of the dotted name is overwritten; a
    name without a second component raises [IndexError]. *)
Definition local_name (layer_name : string) : option string :=
  let layer_name_parts := split "." layer_name in
  match Py.setitem layer_name_parts 1 "ball_local_stage" with
  | None => None
  | Some layer_name_parts => Some (join "." layer_name_parts)
  end.

(** A name whose second component is exactly the name of the global
    stage, as in ["model.ball_global_stage.conv1.weight"]. *)
Definition global_second (layer_name : string) : bool :=
  match split "." layer_name with
  | _ :: part :: _ => String.eqb part "ball_global_stage"
  | _ => false
  end.

(** A string without a dot. *)
Fixpoint dot_free (s : string) : bool :=
  match s with
  | EmptyString => true
  | String c rest => negb (Ascii.eqb c ".") && dot_free rest
  end.

Section Dict.

Variable V : Type.

(** A [dict] with string keys, in insertion order. *)
Definition dict := list (string * V).

Fixpoint dict_get (d : dict) (k : string) : option V :=
  match d with
  | [] => None
  | (k', v) :: rest => if String.eqb k k' then Some v else dict_get rest k
  end.

(** [d[k] = v]: an existing key keeps its place, a new one goes last. *)
Fixpoint dict_set (d : dict) (k : string) (v : V) : dict :=
  match d with
  | [] => [(k, v)]
  | (k', v') :: rest =>
      if String.eqb k k' then (k', v) :: rest else (k', v') :: dict_set rest k v
  end.

(** [{**a, **b}]. *)
Definition dict_merge (a b : dict) : dict :=
  fold_left (fun acc kv => dict_set acc (fst kv) (snd kv)) b a.

(** The body of the loop over [pretrained_dict.items()]. *)
Definition local_step (local_weights_dict : dict) (item : string * V)
  : option dict :=
  let (layer_name, v) := item in
  if contains "ball_global_stage" layer_name then
    match local_name layer_name with
    | None => None
    | Some local_name => Some (dict_set local_weights_dict local_name v)
    end
  else Some local_weights_dict.

Fixpoint local_loop (items : list (string * V)) (local_weights_dict : dict)
  : option dict :=
  match items with
  | [] => Some local_weights_dict
  | item :: rest =>
      match local_step local_weights_dict item with
      | None => None
      | Some d => local_loop rest d
      end
  end.

Definition load_weights_local_stage (pretrained_dict : dict) : option dict :=
  match local_loop pretrained_dict [] with
  | None => None
  | Some local_weights_dict => Some (dict_merge pretrained_dict local_weights_dict)
  end.

End Dict.

Arguments dict_get {V} d k.
Arguments dict_set {V} d k v.
Arguments dict_merge {V} a b.
Arguments load_weights_local_stage {V} pretrained_dict.

(** The counterpart of a key in the words of the specification: the
    component that names the global stage is replaced by the name of the
    local stage. *)
Definition spec_counterpart (layer_name : string) : string :=
  join "."
       (map (fun part => if String.eqb part "ball_global_stage"
                         then "ball_local_stage" else part)
            (split "." layer_name)).

End ModelUtils.

(** ** [src/models/model_utils.py]: parameters and checkpoints *)

Module Params.

Import String ModelUtils.
Local Open Scope string_scope.

(** A parameter as [named_parameters()] yields it: its name, its
    [numel()] and its flag [requires_grad]. *)
Record NamedParam := mkNamedParam {
  layer_name : string;
  numel : Z;
  requires_grad : bool
}.

Definition set_requires_grad (p : NamedParam) (flag : bool) : NamedParam :=
  mkNamedParam (layer_name p) (numel p) flag.

(** The inner loop of [freeze_model]: the first entry of the list that
    occurs in the name clears the flag and ends the loop. *)
Fixpoint freeze_scan (freeze_modules_list : list string) (p : NamedParam)
  : NamedParam :=
  match freeze_modules_list with
  | [] => p
  | freeze_module :: rest =>
      if contains freeze_module (layer_name p)
      then set_requires_grad p false
      else freeze_scan rest p
  end.

(** [freeze_model], on the parameters of the model in their order. *)
Definition freeze_model (model : list NamedParam)
  (freeze_modules_list : list string) : list NamedParam :=
  map (fun p => freeze_scan freeze_modules_list (set_requires_grad p true))
      model.

(** [get_num_parameters]: [sum(p.numel() for p in ... if p.requires_grad)];
    both branches of [hasattr(model, 'module')] sum over the same
    parameters. *)
Definition get_num_parameters (model : list NamedParam) : Z :=
  fold_left (fun acc p => if requires_grad p then acc + numel p else acc)
            model 0.

Section Checkpoint.

(** The tensors of a state dict: [shape v] is [v.shape], and [item0 v] is
    [v[0]], which raises [IndexError] on a tensor without elements. *)
Variable V : Type.
Variable shape : V -> list Z.
Variable item0 : V -> option V.

(** [k in d]. *)
Definition dict_mem (d : dict V) (k : string) : bool :=
  match dict_get d k with
  | Some _ => true
  | None => false
  end.

(** [{k: v for k, v in pretrained_dict.items() if k in model_state_dict}]. *)
Definition filter_known (model_state_dict pretrained_dict : dict V) : dict V :=
  filter (fun kv => dict_mem model_state_dict (fst kv)) pretrained_dict.

(** What [load_state_dict] does with the tensor given for one parameter:
    a one-dimensional tensor given for a parameter without dimensions is
    replaced by its first element; after that a shape other than the
    parameter's is a size mismatch, and the parameter takes the values
    of the tensor otherwise. *)
Definition load_param (param input_param : V) : option V :=
  match (if (List.length (shape param) =? 0)%nat
            && (List.length (shape input_param) =? 1)%nat
         then item0 input_param else Some input_param) with
  | None => None
  | Some input_param =>
      if list_eq_dec Z.eq_dec (shape input_param) (shape param)
      then Some input_param else None
  end.

(** The parameters of the model, one after the other. *)
Fixpoint load_params (params : dict V) (state_dict : dict V)
  : option (dict V) :=
  match params with
  | [] => Some []
  | (k, param) :: rest =>
      match dict_get state_dict k with
      | None => None
      | Some input_param =>
          match load_param param input_param, load_params rest state_dict with
          | Some v, Some loaded => Some ((k, v) :: loaded)
          | _, _ => None
          end
      end
  end.

(** [load_state_dict] in its default strict mode, on a model whose
    parameters and buffers are the entries of [model_state_dict]: a
    missing key, an unexpected key or a size mismatch raises; otherwise
    the model holds the given tensors. *)
Definition load_state_dict (model_state_dict state_dict : dict V)
  : option (dict V) :=
  if forallb (fun kv => dict_mem state_dict (fst kv)) model_state_dict
     && forallb (fun kv => dict_mem model_state_dict (fst kv)) state_dict
  then load_params model_state_dict state_dict
  else None.

(** [load_pretrained_model]; the model is given by its state, and the
    checkpoint by the state dict stored in the file, or [None] when the
    file does not exist.  The two branches of [hasattr(model, 'module')]
    perform the same steps. *)
Definition load_pretrained_model (model_state_dict : dict V)
  (checkpoint : option (dict V)) (overwrite_global_2_local : bool)
  : option (dict V) :=
  match checkpoint with
  | None => None
  | Some pretrained_dict =>
      let pretrained_dict := filter_known model_state_dict pretrained_dict in
      match (if overwrite_global_2_local
             then load_weights_local_stage pretrained_dict
             else Some pretrained_dict) with
      | None => None
      | Some pretrained_dict =>
          let model_state_dict' := dict_merge model_state_dict pretrained_dict in
          load_state_dict model_state_dict model_state_dict'
      end
  end.

End Checkpoint.

Arguments dict_mem {V} d k.
Arguments filter_known {V} model_state_dict pretrained_dict.
Arguments load_param {V} shape item0 param input_param.
Arguments load_params {V} shape item0 params state_dict.
Arguments load_state_dict {V} shape item0 model_state_dict state_dict.
Arguments load_pretrained_model {V} shape item0 model_state_dict checkpoint
  overwrite_global_2_local.

(** Tensors for examples: a shape and a number that tells them apart. *)
Definition example_shape (v : list Z * Z) : list Z := fst v.
Definition example_item0 (v : list Z * Z) : option (list Z * Z) :=
  match fst v with
  | n :: rest => if (0 <? n)%Z then Some (rest, snd v) else None
  | [] => None
  end.

End Params.

(** ** [src/models/model_utils.py]: [make_data_parallel] *)

Module Parallel.

(** The integer nearest to [n / d], ties to the even one, for [0 <= n]
    and [0 < d]. *)
Definition round_half_even (n d : Z) : Z :=
  let f := n / d in
  let r := n mod d in
  if 2 * r <? d then f
  else if d <? 2 * r then f + 1
  else if Z.even f then f else f + 1.

(** The double nearest to [n / d] for [0 <= n] and [0 < d], ties to
    even: 53 significant bits, multiples of [2^-1074] below [2^-1022],
    and [None] ([OverflowError]) from [2^1024] on.  [s] is the exponent
    of the last place of the result. *)
Definition nearest_double (n d : Z) : option Q :=
  if n =? 0 then Some 0%Q
  else
    let N := n * 2 ^ 1074 / d in
    let s := if N <? 2 ^ 52 then -1074 else Z.log2 N - 1126 in
    if s <=? 0 then
      Some (Qmake (round_half_even (n * 2 ^ (- s)) d) (Z.to_pos (2 ^ (- s))))
    else
      let m := round_half_even n (d * 2 ^ s) in
      if 2 ^ 1024 <=? m * 2 ^ s then None else Some (inject_Z (m * 2 ^ s)).

(** True division [a / b] of two integers as Python computes it: the
    exact quotient rounded once, to the nearest double. *)
Definition float_truediv (a b : Z) : option Q :=
  if b =? 0 then None
  else
    match nearest_double (Z.abs a) (Z.abs b) with
    | None => None
    | Some x => Some (if Z.sgn a * Z.sgn b <? 0 then Qopp x else x)
    end.

(** The fields of [configs] that [make_data_parallel] reads or writes. *)
Record Configs := mkConfigs {
  distributed : bool;
  gpu_idx : option Z;
  batch_size : Z;
  num_workers : Z;
  ngpus_per_node : Z
}.

(** How the model is wrapped and placed. *)
Inductive Wrapped :=
| DistributedOnDevice (device : Z)
| DistributedAllDevices
| SingleDevice (device : Z)
| DataParallelAllDevices.

Definition make_data_parallel (configs : Configs) : option (Wrapped * Configs) :=
  if distributed configs then
    match gpu_idx configs with
    | Some idx =>
        match float_truediv (batch_size configs) (ngpus_per_node configs),
              float_truediv (num_workers configs + ngpus_per_node configs - 1)
                            (ngpus_per_node configs) with
        | Some b, Some n =>
            Some (DistributedOnDevice idx,
                  mkConfigs (distributed configs) (gpu_idx configs)
                            (Py.int b) (Py.int n) (ngpus_per_node configs))
        | _, _ => None
        end
    | None => Some (DistributedAllDevices, configs)
    end
  else
    match gpu_idx configs with
    | Some idx => Some (SingleDevice idx, configs)
    | None => Some (DataParallelAllDevices, configs)
    end.

End Parallel.

(** ** [src/training/main.py] *)

Module Training.

(** The fields of [configs] that [main] and [main_worker] use to set up
    the process group. *)
Record DistConfigs := mkDistConfigs {
  dist_url_is_env : bool;
  world_size : Z;
  rank : Z;
  multiprocessing_distributed : bool;
  ngpus_per_node : Z;
  distributed : bool
}.

(** [int(os.environ[name])]; a missing variable raises [KeyError]. *)
Definition from_env (value : option Z) : option Z := value.

(** Lines 40-48 of [main]: the world size and the flag [distributed]. *)
Definition main_setup (configs : DistConfigs) (env_world_size : option Z)
  : option DistConfigs :=
  match (if dist_url_is_env configs && (world_size configs =? -1)
         then from_env env_world_size else Some (world_size configs)) with
  | None => None
  | Some ws =>
      let dist := (1 <? ws) || multiprocessing_distributed configs in
      let ws := if multiprocessing_distributed configs
                then ngpus_per_node configs * ws else ws in
      Some (mkDistConfigs (dist_url_is_env configs) ws (rank configs)
              (multiprocessing_distributed configs) (ngpus_per_node configs)
              dist)
  end.

(** Lines 64-70 of [main_worker]: the rank of the process started for
    [gpu_idx]. *)
Definition worker_rank (configs : DistConfigs) (gpu_idx : Z)
  (env_rank : option Z) : option Z :=
  if distributed configs then
    match (if dist_url_is_env configs && (rank configs =? -1)
           then from_env env_rank else Some (rank configs)) with
    | None => None
    | Some r =>
        if multiprocessing_distributed configs
        then Some (r * ngpus_per_node configs + gpu_idx)
        else Some r
    end
  else Some (rank configs).

(** Lines 75-76: [rank % ngpus_per_node] raises for no GPU per node. *)
Definition is_master_node (configs : DistConfigs) (rank : Z) : option bool :=
  if negb (distributed configs) then Some true
  else if distributed configs then
    if ngpus_per_node configs =? 0 then None
    else Some (rank mod ngpus_per_node configs =? 0)
  else Some false.

(** A Python float: a finite value, an infinity or NaN.  The loop only
    compares losses, and finite floats compare as the rationals they
    are. *)
Inductive Float :=
| Finite (q : Q)
| PosInf
| NegInf
| NaN.

Definition is_nan (a : Float) : bool :=
  match a with
  | NaN => true
  | _ => false
  end.

(** [a < b] and [a <= b]; every comparison with NaN is false. *)
Definition float_lt (a b : Float) : bool :=
  match a, b with
  | NaN, _ | _, NaN => false
  | PosInf, _ => false
  | _, PosInf => true
  | _, NegInf => false
  | NegInf, Finite _ => true
  | Finite x, Finite y => if Qlt_le_dec x y then true else false
  end.
Definition float_le (a b : Float) : bool :=
  match a, b with
  | NaN, _ | _, NaN => false
  | NegInf, _ => true
  | _, NegInf => false
  | _, PosInf => true
  | PosInf, Finite _ => false
  | Finite x, Finite y => if Qlt_le_dec y x then false else true
  end.

(** [min(a, b)]: the second argument is returned only when it is
    strictly smaller than the first. *)
Definition float_min (a b : Float) : Float :=
  if float_lt b a then b else a.

(** The state the epoch loop of [main_worker] carries: the best
    validation loss ([np.inf] before the first epoch), the early-stopping
    counter and the epochs at which a checkpoint was saved. *)
Record LoopState := mkLoopState {
  best_val_loss : Float;
  earlystop_count : Z;
  saved : list Z
}.

Record LoopConfigs := mkLoopConfigs {
  is_master : bool;
  checkpoint_freq : Z;
  earlystop_patience : option Z
}.

(** Lines 139-166: what one epoch does to the state once its validation
    loss is known, and whether it leaves the loop.  [epoch %
    checkpoint_freq] is evaluated only on the master node after an epoch
    that is not the best. *)
Definition epoch_step (configs : LoopConfigs) (s : LoopState) (epoch : Z)
  (val_loss : Float) : option (LoopState * bool) :=
  let is_best := float_le val_loss (best_val_loss s) in
  let best := float_min val_loss (best_val_loss s) in
  match (if is_master configs then
           if is_best then Some true
           else if checkpoint_freq configs =? 0 then None
                else Some (epoch mod checkpoint_freq configs =? 0)
         else Some false) with
  | None => None
  | Some save =>
      let saved := if save then saved s ++ [epoch] else saved s in
      match earlystop_patience configs with
      | Some patience =>
          if patience =? 0 then
            Some (mkLoopState best (earlystop_count s) saved, false)
          else
            let count := if is_best then 0 else earlystop_count s + 1 in
            Some (mkLoopState best count saved, patience <=? count)
      | None => Some (mkLoopState best (earlystop_count s) saved, false)
      end
  end.

(** [for epoch in range(start_epoch, num_epochs + 1)], given the
    validation loss of each epoch; the result is the final state and the
    validation losses of the epochs that ran, the last one first. *)
Fixpoint epoch_loop (configs : LoopConfigs) (epochs : list (Z * Float))
  (s : LoopState) (ran : list Float) : option (LoopState * list Float) :=
  match epochs with
  | [] => Some (s, ran)
  | (epoch, val_loss) :: rest =>
      match epoch_step configs s epoch val_loss with
      | None => None
      | Some (s', stop) =>
          if stop then Some (s', val_loss :: ran)
          else epoch_loop configs rest s' (val_loss :: ran)
      end
  end.

End Training.

(** ** [src/inference/demo.py]: the queue of predictions *)

Module DemoLoop.

Section Queue.

(** What the demo keeps of a frame: [frame_pred_infor]. *)
Variable Pred : Type.

(** [deque(maxlen=n)]; a negative length raises [ValueError]. *)
Definition deque (maxlen : Z) : option (list Pred) :=
  if maxlen <? 0 then None else Some [].

(** [queue.append(x)] on a deque of maximal length [maxlen]: a full
    deque drops its leftmost entry. *)
Definition append (maxlen : Z) (queue : list Pred) (x : Pred) : list Pred :=
  if maxlen =? 0 then []
  else if Z.of_nat (length queue) <? maxlen then queue ++ [x]
       else skipn 1 (queue ++ [x]).

(** The state of the loop: the queue, [frame_idx] and, in order, the
    frames plotted so far, each with its index and the prediction drawn
    on it. *)
Record State := mkState {
  queue_frames : list Pred;
  frame_idx : Z;
  plotted : list (Z * Pred)
}.

(** Lines 68-89: one iteration, for the prediction of the current
    sequence.  [popleft] on an empty deque raises [IndexError]. *)
Definition step (middle_idx : Z) (s : State) (frame_pred_infor : Pred)
  : option State :=
  match (if Z.of_nat (length (queue_frames s)) =? middle_idx + 1 then
           match queue_frames s with
           | [] => None
           | popped :: rest =>
               Some (rest, plotted s ++ [(frame_idx s, popped)])
           end
         else Some (queue_frames s, plotted s)) with
  | None => None
  | Some (queue, shown) =>
      Some (mkState (append (middle_idx + 1) queue frame_pred_infor)
                    (frame_idx s + 1) shown)
  end.

Fixpoint loop (middle_idx : Z) (predictions : list Pred) (s : State)
  : option State :=
  match predictions with
  | [] => Some s
  | p :: rest =>
      match step middle_idx s p with
      | Some s' => loop middle_idx rest s'
      | None => None
      end
  end.

(** Lines 47-49 and the loop, for the predictions of the sequences the
    video loader yields. *)
Definition demo_frames (num_frames_sequence : Z) (predictions : list Pred)
  : option State :=
  let middle_idx := Py.int (inject_Z num_frames_sequence / 2) in
  match deque (middle_idx + 1) with
  | None => None
  | Some queue_frames => loop middle_idx predictions (mkState queue_frames 0 [])
  end.

End Queue.

Arguments mkState {Pred} queue_frames frame_idx plotted.
Arguments queue_frames {Pred} s.
Arguments frame_idx {Pred} s.
Arguments plotted {Pred} s.
Arguments step {Pred} middle_idx s frame_pred_infor.
Arguments loop {Pred} middle_idx predictions s.
Arguments demo_frames {Pred} num_frames_sequence predictions.
Arguments append {Pred} maxlen queue x.

End DemoLoop.

(** ** [src/models/TTNet.py]: the shapes of the layers

    The layers of the network are read here on the shapes of their
    inputs: what PyTorch checks before it computes (channels, feature
    counts, sizes that stay positive) and the size of what comes out.
    Batches are four-dimensional, [(N, C, H, W)]; batch norm is taken in
    evaluation mode, where it checks the channels only. *)

Module Shapes.

Definition Shape := list Z.

Definition bind {A B} (x : option A) (f : A -> option B) : option B :=
  match x with
  | Some a => f a
  | None => None
  end.

(** The output size of a convolution or pooling window along one axis. *)
Definition conv_out (size kernel_size stride padding : Z) : Z :=
  (size + 2 * padding - kernel_size) / stride + 1.

(** [nn.Conv2d(in_channels, out_channels, kernel_size, stride, padding)]. *)
Definition Conv2d (in_channels out_channels kernel_size stride padding : Z)
  (x : Shape) : option Shape :=
  match x with
  | [n; c; h; w] =>
      let h' := conv_out h kernel_size stride padding in
      let w' := conv_out w kernel_size stride padding in
      if (c =? in_channels) && (0 <? h') && (0 <? w')
      then Some [n; out_channels; h'; w'] else None
  | _ => None
  end.

(** [nn.BatchNorm2d(num_features)]. *)
Definition BatchNorm2d (num_features : Z) (x : Shape) : option Shape :=
  match x with
  | [n; c; h; w] => if c =? num_features then Some x else None
  | _ => None
  end.

(** [nn.MaxPool2d(kernel_size, stride, padding)]. *)
Definition MaxPool2d (kernel_size stride padding : Z) (x : Shape)
  : option Shape :=
  match x with
  | [n; c; h; w] =>
      let h' := conv_out h kernel_size stride padding in
      let w' := conv_out w kernel_size stride padding in
      if (0 <? h') && (0 <? w') then Some [n; c; h'; w'] else None
  | _ => None
  end.

(** [nn.ConvTranspose2d(in_channels, out_channels, kernel_size, stride,
    padding, output_padding)]. *)
Definition tconv_out (size kernel_size stride padding output_padding : Z) : Z :=
  (size - 1) * stride - 2 * padding + kernel_size + output_padding.

Definition ConvTranspose2d
  (in_channels out_channels kernel_size stride padding output_padding : Z)
  (x : Shape) : option Shape :=
  match x with
  | [n; c; h; w] =>
      let h' := tconv_out h kernel_size stride padding output_padding in
      let w' := tconv_out w kernel_size stride padding output_padding in
      if (c =? in_channels) && (0 <? h') && (0 <? w')
      then Some [n; out_channels; h'; w'] else None
  | _ => None
  end.

(** [nn.Linear(in_features, out_features)] on a matrix. *)
Definition Linear (in_features out_features : Z) (x : Shape) : option Shape :=
  match x with
  | [n; f] => if f =? in_features then Some [n; out_features] else None
  | _ => None
  end.

(** [x.view(x.size(0), -1)]; the missing size cannot be inferred for an
    empty batch. *)
Definition flatten (x : Shape) : option Shape :=
  match x with
  | [n; c; h; w] => if n =? 0 then None else Some [n; c * h * w]
  | _ => None
  end.

(** The size along one axis of [a + b] under broadcasting. *)
Definition broadcast (a b : Z) : option Z :=
  if a =? b then Some a
  else if a =? 1 then Some b
  else if b =? 1 then Some a
  else None.

(** [a + b] on two batches. *)
Definition add (a b : Shape) : option Shape :=
  match a, b with
  | [n; c; h; w], [n'; c'; h'; w'] =>
      match broadcast n n', broadcast c c', broadcast h h', broadcast w w' with
      | Some n, Some c, Some h, Some w => Some [n; c; h; w]
      | _, _, _, _ => None
      end
  | _, _ => None
  end.

(** [torch.cat((a, b), dim=1)]. *)
Definition cat1 (a b : Shape) : option Shape :=
  match a, b with
  | [n; c; h; w], [n'; c'; h'; w'] =>
      if (n =? n') && (h =? h') && (w =? w')
      then Some [n; c + c'; h; w] else None
  | _, _ => None
  end.

(** [ConvBlock(in_channels, out_channels).forward]. *)
Definition ConvBlock (in_channels out_channels : Z) (x : Shape)
  : option Shape :=
  bind (Conv2d in_channels out_channels 3 1 1 x) (fun x =>
  bind (BatchNorm2d out_channels x) (fun x =>
  MaxPool2d 2 2 0 x)).

(** [ConvBlock_without_Pooling(in_channels, out_channels).forward]. *)
Definition ConvBlock_without_Pooling (in_channels out_channels : Z)
  (x : Shape) : option Shape :=
  bind (Conv2d in_channels out_channels 3 1 1 x) (fun x =>
  BatchNorm2d out_channels x).

(** [DeconvBlock(in_channels, out_channels).forward]; [batchnorm1] is
    applied after [conv1] and after [tconv]. *)
Definition DeconvBlock (in_channels out_channels : Z) (x : Shape)
  : option Shape :=
  let middle_channels := Py.int (inject_Z in_channels / 4) in
  bind (Conv2d in_channels middle_channels 1 1 0 x) (fun x =>
  bind (BatchNorm2d middle_channels x) (fun x =>
  bind (ConvTranspose2d middle_channels middle_channels 3 2 1 1 x) (fun x =>
  bind (BatchNorm2d middle_channels x) (fun x =>
  bind (Conv2d middle_channels out_channels 1 1 0 x) (fun x =>
  BatchNorm2d out_channels x))))).

(** The shapes of what [BallDetection.forward] returns. *)
Record BallShapes := mkBallShapes {
  out : Shape;
  features : Shape;
  out_block2 : Shape;
  out_block3 : Shape;
  out_block4 : Shape;
  out_block5 : Shape
}.

(** [BallDetection.forward]; the dropouts keep the shape. *)
Definition BallDetection (x : Shape) : option BallShapes :=
  bind (Conv2d 27 64 1 1 0 x) (fun x =>
  bind (BatchNorm2d 64 x) (fun x =>
  bind (ConvBlock 64 64 x) (fun x =>
  bind (ConvBlock 64 64 x) (fun out_block2 =>
  bind (ConvBlock 64 128 out_block2) (fun out_block3 =>
  bind (ConvBlock 128 128 out_block3) (fun out_block4 =>
  bind (ConvBlock 128 256 out_block4) (fun out_block5 =>
  bind (ConvBlock 256 256 out_block5) (fun features =>
  bind (flatten features) (fun x =>
  bind (Linear 2560 1792 x) (fun x =>
  bind (Linear 1792 896 x) (fun x =>
  bind (Linear 896 448 x) (fun out =>
  Some (mkBallShapes out features out_block2 out_block3 out_block4
                     out_block5))))))))))))).

(** [EventsSpotting.forward]. *)
Definition EventsSpotting (global_features local_features : Shape)
  : option Shape :=
  bind (cat1 global_features local_features) (fun input_eventspotting =>
  bind (Conv2d 512 64 1 1 0 input_eventspotting) (fun x =>
  bind (BatchNorm2d 64 x) (fun x =>
  bind (ConvBlock_without_Pooling 64 64 x) (fun x =>
  bind (ConvBlock_without_Pooling 64 64 x) (fun x =>
  bind (flatten x) (fun x =>
  bind (Linear 640 512 x) (fun x =>
  Linear 512 2 x))))))).

(** [Segmentation.forward]. *)
Definition Segmentation (out_block2 out_block3 out_block4 out_block5 : Shape)
  : option Shape :=
  bind (DeconvBlock 256 128 out_block5) (fun x =>
  bind (add x out_block4) (fun x =>
  bind (DeconvBlock 128 128 x) (fun x =>
  bind (add x out_block3) (fun x =>
  bind (DeconvBlock 128 64 x) (fun x =>
  bind (add x out_block2) (fun x =>
  bind (DeconvBlock 64 64 x) (fun x =>
  bind (ConvTranspose2d 64 32 3 2 0 0 x) (fun x =>
  bind (Conv2d 32 32 3 1 0 x) (fun x =>
  Conv2d 32 3 2 1 1 x))))))))).

End Shapes.

(** ** [src/models/TTNet.py]: the layers of a network and their shapes *)

Module Pipeline.

Import Torch TTNet.

(** [t.size()]. *)
Definition size4 (t : Tensor4) : Shapes.Shape :=
  [size0 t; size1 t; size2 t; size3 t].

(** A matrix, given by its rows, of the shape [s]. *)
Definition has_shape (m : list (list Q)) (s : Shapes.Shape) : Prop :=
  match s with
  | [n; k] =>
      length m = Z.to_nat n /\ Forall (fun row => length row = Z.to_nat k) m
  | _ => False
  end.

(** The layers of [EventsSpotting.forward] that follow the concatenation
    (lines 102-111). *)
Definition EventsHead (input_eventspotting : Shapes.Shape)
  : option Shapes.Shape :=
  Shapes.bind (Shapes.Conv2d 512 64 1 1 0 input_eventspotting) (fun x =>
  Shapes.bind (Shapes.BatchNorm2d 64 x) (fun x =>
  Shapes.bind (Shapes.ConvBlock_without_Pooling 64 64 x) (fun x =>
  Shapes.bind (Shapes.ConvBlock_without_Pooling 64 64 x) (fun x =>
  Shapes.bind (Shapes.flatten x) (fun x =>
  Shapes.bind (Shapes.Linear 640 512 x) (fun x =>
  Shapes.Linear 512 2 x)))))).

(** A stage of ball detection built from the layers of [BallDetection]:
    it accepts the batches [BallDetection.forward] accepts, rejects the
    others, and returns tensors of the shapes that function returns. *)
Definition ball_stage_shaped (stage : Tensor4 -> option BallOut) : Prop :=
  forall x,
    match Shapes.BallDetection (size4 x) with
    | None => stage x = None
    | Some s =>
        exists g,
          stage x = Some g
          /\ has_shape (out g) (Shapes.out s)
          /\ size4 (features g) = Shapes.features s
          /\ size4 (out_block2 g) = Shapes.out_block2 s
          /\ size4 (out_block3 g) = Shapes.out_block3 s
          /\ size4 (out_block4 g) = Shapes.out_block4 s
          /\ size4 (out_block5 g) = Shapes.out_block5 s
    end.

Definition events_head_shaped (head : Tensor4 -> option (list (list Q)))
  : Prop :=
  forall x,
    match EventsHead (size4 x) with
    | None => head x = None
    | Some s => exists p, head x = Some p /\ has_shape p s
    end.

Definition segmentation_shaped
  (seg : Tensor4 -> Tensor4 -> Tensor4 -> Tensor4 -> option Tensor4) : Prop :=
  forall b2 b3 b4 b5,
    match Shapes.Segmentation (size4 b2) (size4 b3) (size4 b4) (size4 b5) with
    | None => seg b2 b3 b4 b5 = None
    | Some s => exists t, seg b2 b3 b4 b5 = Some t /\ size4 t = s
    end.

(** A network whose four sub-modules are built from the layers of
    [TTNet.py]. *)
Definition layers_shaped (self : TTNet) : Prop :=
  ball_stage_shaped (ball_global_stage self)
  /\ ball_stage_shaped (ball_local_stage self)
  /\ events_head_shaped (events_head self)
  /\ segmentation_shaped (segmentation self).

(** A network for examples: its layers check the shape of their input
    and answer with constant tensors of the shape of their output. *)
Definition const4 (s : Shapes.Shape) (v : Q) : Tensor4 :=
  match s with
  | [n; c; h; w] => mkTensor4 n c h w (fun _ _ _ _ => v)
  | _ => mkTensor4 0 0 0 0 (fun _ _ _ _ => v)
  end.
Definition const2 (s : Shapes.Shape) (v : Q) : list (list Q) :=
  match s with
  | [n; k] => repeat (repeat v (Z.to_nat k)) (Z.to_nat n)
  | _ => []
  end.
Definition shaped_stage (x : Tensor4) : option BallOut :=
  match Shapes.BallDetection (size4 x) with
  | None => None
  | Some s =>
      Some (mkBallOut (const2 (Shapes.out s) (1 # 2))
              (const4 (Shapes.features s) 1) (const4 (Shapes.out_block2 s) 1)
              (const4 (Shapes.out_block3 s) 1) (const4 (Shapes.out_block4 s) 1)
              (const4 (Shapes.out_block5 s) 1))
  end.
Definition shaped_net : TTNet :=
  mkTTNet shaped_stage shaped_stage
    (fun x => option_map (fun s => const2 s (1 # 2)) (EventsHead (size4 x)))
    (fun b2 b3 b4 b5 =>
       option_map (fun s => const4 s (1 # 2))
         (Shapes.Segmentation (size4 b2) (size4 b3) (size4 b4) (size4 b5)))
    320 128.

End Pipeline.

(** ** [src/data_process/ttnet_data_utils.py]: [get_events_infor] *)

Module Events.

Import String ModelUtils.

(** What is read for one game: its name, [ball_markup.json] (frame to
    position) and [events_markup.json] (frame to event name, in the order
    of the file), with the frame numbers read by [int], and whether the
    segmentation mask of a frame is a file. *)
Record Game := mkGame {
  game_name : string;
  ball_annos : list (Z * (Z * Z));
  events_annos : list (Z * string);
  has_mask : Z -> bool
}.

(** An entry of [events_infor]; an image path is given by the game and
    the frame it names, and so is the path of the mask. *)
Record Info := mkInfo {
  img_path_list : list (string * Z);
  ball_position_xy : Z * Z;
  event_class : Z;
  seg_path : string * Z
}.

Fixpoint lookup {A} (d : list (Z * A)) (k : Z) : option A :=
  match d with
  | [] => None
  | (k', v) :: rest => if k =? k' then Some v else lookup rest k
  end.

(** [range(start, stop)]. *)
Definition range2 (start stop : Z) : list Z :=
  map (fun i => start + i) (Py.range (stop - start)).

(** The frames of the sequence of an event. *)
Definition frames (num_frames_from_event event_frameidx : Z) : list Z :=
  range2 (event_frameidx - num_frames_from_event)
         (event_frameidx + num_frames_from_event + 1).

(** What the body of the inner loop does with one event. *)
Inductive Outcome :=
| Raises
| Skips
| Appends (info : Info).

Definition event_outcome (events_dict : dict Z) (num_frames_from_event : Z)
  (game : Game) (event : Z * string) : Outcome :=
  let (event_frameidx, event_name) := event in
  let img_path_list :=
    map (fun f_idx => (game_name game, f_idx))
        (frames num_frames_from_event event_frameidx) in
  let last_f_idx := event_frameidx + num_frames_from_event in
  match lookup (ball_annos game) last_f_idx with
  | None => Raises
  | Some ball_position_xy =>
      if (fst ball_position_xy <? 0) || (snd ball_position_xy <? 0) then Skips
      else if has_mask game last_f_idx then
        match dict_get events_dict event_name with
        | None => Raises
        | Some event_class =>
            Appends (mkInfo img_path_list ball_position_xy event_class
                            (game_name game, last_f_idx))
        end
      else Raises
  end.

(** The loop over the events of one game; the state is
    [(events_infor, events_labels)]. *)
Fixpoint events_loop (events_dict : dict Z) (num_frames_from_event : Z)
  (game : Game) (events : list (Z * string)) (acc : list Info * list Z)
  : option (list Info * list Z) :=
  match events with
  | [] => Some acc
  | event :: rest =>
      match event_outcome events_dict num_frames_from_event game event with
      | Raises => None
      | Skips => events_loop events_dict num_frames_from_event game rest acc
      | Appends info =>
          events_loop events_dict num_frames_from_event game rest
                      (fst acc ++ [info], snd acc ++ [event_class info])
      end
  end.

Fixpoint games_loop (events_dict : dict Z) (num_frames_from_event : Z)
  (game_list : list Game) (acc : list Info * list Z)
  : option (list Info * list Z) :=
  match game_list with
  | [] => Some acc
  | game :: rest =>
      match events_loop events_dict num_frames_from_event game
                        (events_annos game) acc with
      | None => None
      | Some acc' => games_loop events_dict num_frames_from_event rest acc'
      end
  end.

Definition get_events_infor (game_list : list Game) (num_frames_sequence : Z)
  (events_dict : dict Z) : option (list Info * list Z) :=
  let num_frames_from_event :=
    Py.int (inject_Z (num_frames_sequence - 1) / 2) in
  games_loop events_dict num_frames_from_event game_list ([], []).

(** An entry made from an event of a game: the frames around the event,
    the ball position annotated for the last of these frames, which is
    not negative, the class of the event and the mask of the last
    frame, which is a file. *)
Definition entry_of (events_dict : dict Z) (num_frames_from_event : Z)
  (game : Game) (event : Z * string) (info : Info) : Prop :=
  lookup (ball_annos game) (fst event + num_frames_from_event)
  = Some (ball_position_xy info)
  /\ 0 <= fst (ball_position_xy info) /\ 0 <= snd (ball_position_xy info)
  /\ has_mask game (fst event + num_frames_from_event) = true
  /\ dict_get events_dict (snd event) = Some (event_class info)
  /\ img_path_list info
     = map (fun f_idx => (game_name game, f_idx))
           (frames num_frames_from_event (fst event))
  /\ seg_path info = (game_name game, fst event + num_frames_from_event).

End Events.

(** * Properties *)

(** ** Arithmetic of [int], true division and slices *)

Module PyFacts.

Lemma int_half (n : Z) : Py.int (inject_Z n / 2) = Z.quot n 2.
Proof.
  unfold Py.int. cbn. now rewrite Z.mul_1_r.
Qed.

Lemma int_half_nonneg (n : Z) : 0 <= n -> Py.int (inject_Z n / 2) = n / 2.
Proof.
  intros Hn. rewrite int_half. apply Z.quot_div_nonneg; lia.
Qed.

Lemma truediv_pos (n d : Z) :
  0 < d -> Py.truediv n d = Some (inject_Z n / inject_Z d)%Q.
Proof.
  intros Hd. unfold Py.truediv.
  destruct (Z.eqb_spec d 0); [lia | reflexivity].
Qed.

(** Scaling an integer by the quotient of two integers and truncating is
    an integer division. *)
Lemma int_scale (a n d : Z) :
  0 < d -> Py.int (inject_Z a * (inject_Z n / inject_Z d)) = Z.quot (a * n) d.
Proof.
  intros Hd. destruct d as [|p|p]; try lia.
  unfold Py.int. cbn. now rewrite Z.mul_1_r.
Qed.

Lemma int_scale_bounds (a n d : Z) :
  0 < d -> 0 <= n -> 0 <= a < d ->
  0 <= Py.int (inject_Z a * (inject_Z n / inject_Z d)) <= n.
Proof.
  intros Hd Hn Ha. rewrite int_scale by assumption.
  rewrite Z.quot_div_nonneg by nia.
  split.
  - apply Z.div_pos; nia.
  - apply Z.div_le_upper_bound; nia.
Qed.

Lemma slice_bound_nonneg (len i : Z) :
  0 <= i -> Py.slice_bound len i = Z.min i len.
Proof.
  intros Hi. unfold Py.slice_bound.
  destruct (Z.ltb_spec i 0); [lia | reflexivity].
Qed.

(** A slice with bounds inside the length: [start] is its first index and
    [stop - start] its length. *)
Lemma slice_lo_in (len start : Z) :
  0 <= start <= len -> Py.slice_lo len start = start.
Proof.
  intros H. unfold Py.slice_lo. rewrite slice_bound_nonneg by lia. lia.
Qed.

Lemma slice_len_in (len start stop : Z) :
  0 <= start <= stop -> stop <= len -> Py.slice_len len start stop = stop - start.
Proof.
  intros H1 H2. unfold Py.slice_len.
  rewrite !slice_bound_nonneg by lia. lia.
Qed.

Lemma length_slice_to {A} (n : Z) (l : list A) :
  0 <= n <= Z.of_nat (length l) ->
  Z.of_nat (length (Py.slice_to n l)) = n.
Proof.
  intros H. unfold Py.slice_to, Py.slice.
  rewrite slice_len_in, slice_lo_in by lia.
  cbn [Z.to_nat skipn]. rewrite length_firstn. lia.
Qed.

Lemma length_slice_from {A} (n : Z) (l : list A) :
  0 <= n <= Z.of_nat (length l) ->
  Z.of_nat (length (Py.slice_from n l)) = Z.of_nat (length l) - n.
Proof.
  intros H. unfold Py.slice_from, Py.slice.
  rewrite slice_len_in, slice_lo_in by lia.
  rewrite length_firstn, length_skipn. lia.
Qed.

Lemma index_norm_in (len i : Z) :
  0 <= i < len -> Py.index_norm len i = Some i.
Proof.
  intros H. unfold Py.index_norm.
  destruct (Z.ltb_spec i 0); try lia.
  destruct (Z.leb_spec 0 i); try lia.
  destruct (Z.ltb_spec i len); try lia. reflexivity.
Qed.

Lemma getitem_in {A} (l : list A) (i : Z) :
  0 <= i < Z.of_nat (length l) -> exists x, Py.getitem l i = Some x /\ In x l.
Proof.
  intros H. unfold Py.getitem. rewrite index_norm_in by assumption.
  destruct (nth_error l (Z.to_nat i)) eqn:E.
  - exists a. split; [reflexivity|]. eapply nth_error_In; eauto.
  - apply nth_error_None in E. lia.
Qed.

Lemma in_range (n i : Z) : In i (Py.range n) <-> 0 <= i < n.
Proof.
  unfold Py.range. rewrite in_map_iff. split.
  - intros (k & <- & Hk). apply in_seq in Hk. lia.
  - intros H. exists (Z.to_nat i). split; [lia|]. apply in_seq. lia.
Qed.

Lemma NoDup_range (n : Z) : NoDup (Py.range n).
Proof.
  unfold Py.range. apply Finite.Injective_map_NoDup.
  - intros a b H. lia.
  - apply seq_NoDup.
Qed.

End PyFacts.

(** ** Sums, argmax and the slice assignment of tensors *)

Module TorchFacts.

Import Torch.

Lemma argmax_from_range (v : list Q) :
  forall best ibest i lo,
    lo <= ibest < i ->
    lo <= argmax_from best ibest i v < i + Z.of_nat (length v).
Proof.
  induction v as [|x t IH]; intros best ibest i lo H; cbn [argmax_from length].
  - lia.
  - destruct (Qlt_le_dec best x).
    + specialize (IH x i (i + 1) lo). lia.
    + specialize (IH best ibest (i + 1) lo). lia.
Qed.

Lemma argmax_range (v : list Q) (i : Z) :
  argmax v = Some i -> 0 <= i < Z.of_nat (length v).
Proof.
  destruct v as [|x t]; cbn [argmax]; [discriminate|].
  intros [= <-]. pose proof (argmax_from_range t x 0 1 0).
  cbn [length]. lia.
Qed.

Lemma argmax_nonempty (v : list Q) :
  v <> [] -> exists i, argmax v = Some i.
Proof.
  destruct v; [congruence | intros _; eexists; reflexivity].
Qed.

Lemma sum_nonzero_nonempty (v : list Q) :
  Qeq_bool (sum v) 0 = false -> v <> [].
Proof.
  intros H ->. discriminate H.
Qed.




Lemma set_crop_sizes (t t' : Tensor4) (idx y0 y1 x0 x1 : Z) (v : Tensor3) :
  set_crop t idx y0 y1 x0 x1 v = Some t' ->
  size0 t' = size0 t /\ size1 t' = size1 t
  /\ size2 t' = size2 t /\ size3 t' = size3 t.
Proof.
  unfold set_crop. destruct (Py.index_norm (size0 t) idx); [|discriminate].
  destruct (_ && _); [|discriminate].
  intros [= <-]. cbn. auto.
Qed.

(** Writing a crop of matching shape at a window inside the target
    succeeds, changes nothing outside the window of entry [idx] and puts
    the crop inside. *)
Lemma set_crop_inside (t : Tensor4) (idx y0 y1 x0 x1 : Z) (v : Tensor3) :
  0 <= idx < size0 t ->
  0 <= y0 <= y1 -> y1 <= size2 t ->
  0 <= x0 <= x1 -> x1 <= size3 t ->
  dim0 v = size1 t -> dim1 v = y1 - y0 -> dim2 v = x1 - x0 ->
  exists t',
    set_crop t idx y0 y1 x0 x1 v = Some t'
    /\ (forall b c y x, b <> idx -> elem4 t' b c y x = elem4 t b c y x)
    /\ (forall c y x,
          0 <= c < size1 t ->
          elem4 t' idx c y x =
            if (y0 <=? y) && (y <? y1) && (x0 <=? x) && (x <? x1)
            then elem3 v c (y - y0) (x - x0)
            else elem4 t idx c y x).
Proof.
  intros Hidx Hy Hy1 Hx Hx1 Hd0 Hd1 Hd2.
  unfold set_crop. rewrite PyFacts.index_norm_in by assumption.
  rewrite !PyFacts.slice_lo_in, !PyFacts.slice_len_in by lia.
  unfold fits. rewrite Hd0, Hd1, Hd2, !Z.eqb_refl. cbn [orb andb].
  eexists. split; [reflexivity|]. cbn [elem4]. split.
  - intros b c y x Hb. destruct (Z.eqb_spec b idx); [contradiction|reflexivity].
  - intros c y x Hc. rewrite Z.eqb_refl.
    destruct (Z.leb_spec 0 c); try lia.
    destruct (Z.ltb_spec c (size1 t)); try lia.
    cbn [andb].
    replace (y0 + (y1 - y0)) with y1 by lia.
    replace (x0 + (x1 - x0)) with x1 by lia.
    destruct (Z.leb_spec y0 y), (Z.ltb_spec y y1),
             (Z.leb_spec x0 x), (Z.ltb_spec x x1); cbn [andb]; try reflexivity.
    unfold bcast.
    destruct (Z.eqb_spec (size1 t) 1), (Z.eqb_spec (y1 - y0) 1),
             (Z.eqb_spec (x1 - x0) 1); f_equal; lia.
Qed.

Lemma get_crop_inside (t : Tensor4) (idx y0 y1 x0 x1 : Z) :
  0 <= idx < size0 t ->
  0 <= y0 <= y1 -> y1 <= size2 t ->
  0 <= x0 <= x1 -> x1 <= size3 t ->
  get_crop t idx y0 y1 x0 x1 =
    Some (mkTensor3 (size1 t) (y1 - y0) (x1 - x0)
            (fun c y x => elem4 t idx c (y0 + y) (x0 + x))).
Proof.
  intros Hidx Hy Hy1 Hx Hx1. unfold get_crop.
  rewrite PyFacts.index_norm_in by assumption.
  now rewrite !PyFacts.slice_lo_in, !PyFacts.slice_len_in by lia.
Qed.

End TorchFacts.

(** ** The crop window and the local input *)

Module TTNetFacts.

Import Torch TTNet TorchFacts.

Section Window.

Variable self : TTNet.
Variables w_original h_original : Z.

Hypothesis w_pos : 0 < w_resize self.
Hypothesis h_pos : 0 < h_resize self.
Hypothesis w_original_nonneg : 0 <= w_original.
Hypothesis h_original_nonneg : 0 <= h_original.

(** The position read from a row of [w_resize + h_resize] entries lies
    on the resized grid, whichever branch produces it. *)
Lemma ball_pos_on_grid (row : list Q) :
  Z.of_nat (length row) = w_resize self + h_resize self ->
  exists bx by_,
    ball_pos self row = Some (bx, by_)
    /\ 0 <= bx < w_resize self /\ 0 <= by_ < h_resize self.
Proof.
  intros Hlen. unfold ball_pos.
  pose proof (PyFacts.length_slice_to (w_resize self) row ltac:(lia)) as Lx.
  pose proof (PyFacts.length_slice_from (w_resize self) row ltac:(lia)) as Ly.
  destruct (Qeq_bool (sum (Py.slice_to (w_resize self) row)) 0) eqn:Ex;
    cbn [orb].
  - do 2 eexists. split; [reflexivity|].
    rewrite !PyFacts.int_half_nonneg by lia.
    split; split; try (apply Z.div_pos; lia); apply Z.div_lt_upper_bound; lia.
  - destruct (Qeq_bool (sum (Py.slice_from (w_resize self) row)) 0) eqn:Ey.
    + do 2 eexists. split; [reflexivity|].
      rewrite !PyFacts.int_half_nonneg by lia.
      split; split; try (apply Z.div_pos; lia); apply Z.div_lt_upper_bound; lia.
    + destruct (argmax_nonempty _ (sum_nonzero_nonempty _ Ex)) as [bx Hx].
      destruct (argmax_nonempty _ (sum_nonzero_nonempty _ Ey)) as [by_ Hy].
      rewrite Hx, Hy. exists bx, by_. split; [reflexivity|].
      apply argmax_range in Hx. apply argmax_range in Hy. lia.
Qed.

(** The bounds [get_crop_params] returns for a centre inside the image. *)
Lemma get_crop_params_bounds (x_center y_center x_min x_max y_min y_max : Z) :
  0 <= x_center <= w_original -> 0 <= y_center <= h_original ->
  get_crop_params x_center y_center (w_resize self) (h_resize self)
                  w_original h_original = (x_min, x_max, y_min, y_max) ->
  0 <= x_min <= x_max /\ x_max <= w_original
  /\ 0 <= y_min <= y_max /\ y_max <= h_original
  /\ x_max - x_min <= w_resize self /\ y_max - y_min <= h_resize self.
Proof.
  intros Hx Hy. unfold get_crop_params.
  rewrite !PyFacts.int_half_nonneg by lia.
  pose proof (Z.div_pos (w_resize self) 2 ltac:(lia) ltac:(lia)).
  pose proof (Z.div_pos (h_resize self) 2 ltac:(lia) ltac:(lia)).
  intros [= <- <- <- <-]. lia.
Qed.

(** Every row of the prediction yields a crop window, and the window is
    clamped to the original image. *)
Lemma crop_window_bounds (row : list Q) :
  Z.of_nat (length row) = w_resize self + h_resize self ->
  exists x_min x_max y_min y_max,
    crop_window self (inject_Z h_original / inject_Z (h_resize self))
                (inject_Z w_original / inject_Z (w_resize self))
                w_original h_original row
    = Some (x_min, x_max, y_min, y_max)
    /\ 0 <= x_min <= x_max /\ x_max <= w_original
    /\ 0 <= y_min <= y_max /\ y_max <= h_original
    /\ x_max - x_min <= w_resize self /\ y_max - y_min <= h_resize self.
Proof.
  intros Hlen. unfold crop_window.
  destruct (ball_pos_on_grid row Hlen) as (bx & by_ & -> & Hbx & Hby).
  destruct (get_crop_params _ _ _ _ _ _) as [[[x_min x_max] y_min] y_max] eqn:E.
  exists x_min, x_max, y_min, y_max. split; [reflexivity|].
  eapply get_crop_params_bounds; [| |exact E]; unfold scale_pos;
    apply PyFacts.int_scale_bounds; lia.
Qed.

(** The offsets of the centred copy keep it inside the local input. *)
Lemma pad_inside (size crop : Z) :
  0 <= crop <= size ->
  Py.int (inject_Z (size - crop) / 2) = (size - crop) / 2
  /\ 0 <= (size - crop) / 2 /\ (size - crop) / 2 + crop <= size.
Proof.
  intros H. rewrite PyFacts.int_half_nonneg by lia.
  pose proof (Z.div_pos (size - crop) 2 ltac:(lia) ltac:(lia)).
  pose proof (Z.mul_div_le (size - crop) 2 ltac:(lia)). lia.
Qed.

End Window.

End TTNetFacts.

(** ** The loop of [crop_original_batch] *)

Module CropFacts.

Import Torch TTNet TorchFacts TTNetFacts.

Section Loop.

Variable self : TTNet.
Variable original_batch_input : Tensor4.

Hypothesis w_pos : 0 < w_resize self.
Hypothesis h_pos : 0 < h_resize self.
Hypothesis w_original_nonneg : 0 <= size3 original_batch_input.
Hypothesis h_original_nonneg : 0 <= size2 original_batch_input.

Lemma put_crop_spec (t : Tensor4) (idx x_min x_max y_min y_max : Z) :
  local_shape self original_batch_input t ->
  0 <= idx < size0 original_batch_input ->
  0 <= x_min <= x_max -> x_max <= size3 original_batch_input ->
  0 <= y_min <= y_max -> y_max <= size2 original_batch_input ->
  x_max - x_min <= w_resize self -> y_max - y_min <= h_resize self ->
  (forall c y x, elem4 t idx c y x = 0%Q) ->
  exists t',
    put_crop self original_batch_input t idx x_min x_max y_min y_max = Some t'
    /\ local_shape self original_batch_input t'
    /\ (forall b c y x, b <> idx -> elem4 t' b c y x = elem4 t b c y x)
    /\ (forall c y x,
          0 <= c < size1 original_batch_input ->
          0 <= y < h_resize self -> 0 <= x < w_resize self ->
          elem4 t' idx c y x
          = placed self original_batch_input idx x_min x_max y_min y_max c y x).
Proof.
  intros (S0 & S1 & S2 & S3) Hidx Hx Hx' Hy Hy' Hw Hh Hzero.
  unfold put_crop.
  rewrite get_crop_inside by lia.
  destruct (pad_inside (w_resize self) (x_max - x_min) ltac:(lia))
    as (Px & Px0 & Px1).
  destruct (pad_inside (h_resize self) (y_max - y_min) ltac:(lia))
    as (Py_ & Py0 & Py1).
  rewrite Px, Py_.
  destruct (negb (y_max - y_min =? h_resize self)
            || negb (x_max - x_min =? w_resize self)) eqn:Epad.
  - (* the crop is smaller than the local input *)
    destruct (set_crop_inside t idx
                ((h_resize self - (y_max - y_min)) / 2)
                ((h_resize self - (y_max - y_min)) / 2 + (y_max - y_min))
                ((w_resize self - (x_max - x_min)) / 2)
                ((w_resize self - (x_max - x_min)) / 2 + (x_max - x_min))
                (mkTensor3 (size1 original_batch_input) (y_max - y_min)
                   (x_max - x_min)
                   (fun c y x => elem4 original_batch_input idx c
                                       (y_min + y) (x_min + x))))
      as (t' & Hset & Hframe & Hin); cbn [dim0 dim1 dim2]; try lia.
    exists t'. split; [exact Hset|].
    apply set_crop_sizes in Hset. split; [unfold local_shape; lia|].
    split; [exact Hframe|].
    intros c y x Hc Hy_ Hx_. rewrite Hin by lia. cbn [elem3].
    unfold placed, centered_pad.
    assert ((y_max - y_min =? h_resize self)
            && (x_max - x_min =? w_resize self) = false) as ->.
    { destruct (y_max - y_min =? h_resize self),
               (x_max - x_min =? w_resize self); cbn in *; congruence. }
    destruct (_ && _); [reflexivity | apply Hzero].
  - (* the crop has the size of the local input *)
    apply orb_false_elim in Epad as [Eh Ew].
    apply negb_false_iff in Eh, Ew. apply Z.eqb_eq in Eh, Ew.
    unfold set_all.
    destruct (set_crop_inside t idx 0 (size2 t) 0 (size3 t)
                (mkTensor3 (size1 original_batch_input) (y_max - y_min)
                   (x_max - x_min)
                   (fun c y x => elem4 original_batch_input idx c
                                       (y_min + y) (x_min + x))))
      as (t' & Hset & Hframe & Hin); cbn [dim0 dim1 dim2]; try lia.
    exists t'. split; [exact Hset|].
    apply set_crop_sizes in Hset. split; [unfold local_shape; lia|].
    split; [exact Hframe|].
    intros c y x Hc Hy_ Hx_. rewrite Hin by lia. cbn [elem3].
    unfold placed. rewrite Eh, Ew, !Z.eqb_refl. cbn [andb].
    destruct (Z.leb_spec 0 y), (Z.ltb_spec y (size2 t)),
             (Z.leb_spec 0 x), (Z.ltb_spec x (size3 t)); try lia.
    cbn [andb]. now rewrite !Z.sub_0_r.
Qed.

Variable pred_ball_global_mask : list (list Q).

Hypothesis batch_rows :
  Z.of_nat (length pred_ball_global_mask) = size0 original_batch_input.
Hypothesis row_length :
  Forall (fun row => Z.of_nat (length row) = w_resize self + h_resize self)
         pred_ball_global_mask.

Lemma crop_step_spec (t : Tensor4) (idx : Z) :
  local_shape self original_batch_input t ->
  0 <= idx < size0 original_batch_input ->
  (forall c y x, elem4 t idx c y x = 0%Q) ->
  exists t',
    crop_step self original_batch_input
      (inject_Z (size2 original_batch_input) / inject_Z (h_resize self))
      (inject_Z (size3 original_batch_input) / inject_Z (w_resize self))
      pred_ball_global_mask t idx = Some t'
    /\ local_shape self original_batch_input t'
    /\ (forall b c y x, b <> idx -> elem4 t' b c y x = elem4 t b c y x)
    /\ entry_done self original_batch_input pred_ball_global_mask idx t'.
Proof.
  intros Hshape Hidx Hzero. unfold crop_step.
  destruct (PyFacts.getitem_in pred_ball_global_mask idx ltac:(lia))
    as (row & Hrow & Hin).
  rewrite Hrow.
  pose proof (proj1 (Forall_forall _ _) row_length row Hin) as Hlen.
  destruct (crop_window_bounds self _ _ w_pos h_pos w_original_nonneg
              h_original_nonneg row Hlen)
    as (x_min & x_max & y_min & y_max & Hwin & Hb).
  rewrite Hwin.
  destruct (put_crop_spec t idx x_min x_max y_min y_max)
    as (t' & Hput & Hshape' & Hframe & Hplaced); try tauto.
  exists t'. split; [exact Hput|]. split; [exact Hshape'|].
  split; [exact Hframe|].
  exists row, x_min, x_max, y_min, y_max. tauto.
Qed.

Lemma entry_done_frame (idx : Z) (t t' : Tensor4) :
  (forall c y x, elem4 t' idx c y x = elem4 t idx c y x) ->
  entry_done self original_batch_input pred_ball_global_mask idx t ->
  entry_done self original_batch_input pred_ball_global_mask idx t'.
Proof.
  intros Hsame (row & x_min & x_max & y_min & y_max & H1 & H2 & H3 & H4).
  exists row, x_min, x_max, y_min, y_max.
  split; [exact H1|]. split; [exact H2|]. split; [exact H3|].
  intros c y x Hc Hy Hx. rewrite Hsame. now apply H4.
Qed.

(** The loop over distinct indices of the batch succeeds, fills every
    entry it visits and leaves the others as they were. *)
Lemma for_each_crop (idxs : list Z) :
  NoDup idxs ->
  forall t,
    (forall i, In i idxs -> 0 <= i < size0 original_batch_input) ->
    local_shape self original_batch_input t ->
    (forall i c y x, In i idxs -> elem4 t i c y x = 0%Q) ->
    exists t',
      for_each (crop_step self original_batch_input
                  (inject_Z (size2 original_batch_input) / inject_Z (h_resize self))
                  (inject_Z (size3 original_batch_input) / inject_Z (w_resize self))
                  pred_ball_global_mask) idxs t = Some t'
      /\ local_shape self original_batch_input t'
      /\ (forall b c y x, ~ In b idxs -> elem4 t' b c y x = elem4 t b c y x)
      /\ (forall i, In i idxs ->
                    entry_done self original_batch_input pred_ball_global_mask i t').
Proof.
  induction 1 as [|i rest Hnotin Hnodup IH]; intros t Hrange Hshape Hzero.
  - exists t. cbn [for_each]. split; [reflexivity|]. split; [exact Hshape|].
    split; [reflexivity|]. intros i [].
  - cbn [for_each].
    destruct (crop_step_spec t i Hshape)
      as (t1 & Hstep & Hshape1 & Hframe1 & Hdone1).
    { apply Hrange. now left. }
    { intros. apply Hzero. now left. }
    rewrite Hstep.
    destruct (IH t1) as (t' & Hloop & Hshape' & Hframe' & Hdone').
    { intros j Hj. apply Hrange. now right. }
    { exact Hshape1. }
    { intros j c y x Hj. rewrite Hframe1.
      - apply Hzero. now right.
      - intros ->. contradiction. }
    exists t'. split; [exact Hloop|]. split; [exact Hshape'|]. split.
    + intros b c y x Hb. rewrite Hframe'.
      * apply Hframe1. intros ->. apply Hb. now left.
      * intros Hin. apply Hb. now right.
    + intros j [<-|Hj].
      * apply entry_done_frame with t1; [|exact Hdone1].
        intros c y x. now apply Hframe'.
      * now apply Hdone'.
Qed.

End Loop.

Lemma apply_mask_shape (pred_ball_global : list (list Q)) (n : nat) :
  Forall (fun row => length row = n) pred_ball_global ->
  length (apply_mask pred_ball_global) = length pred_ball_global
  /\ Forall (fun row => length row = n) (apply_mask pred_ball_global).
Proof.
  intros H. unfold apply_mask. split; [apply length_map|].
  apply Forall_map. eapply Forall_impl; [|exact H].
  intros row Hrow. unfold mask_row. now rewrite length_map.
Qed.

(** [crop_original_batch] returns for every well-shaped batch, and the
    result holds, for every element, the crop selected by its row. *)
Lemma crop_original_batch_spec (self : TTNet)
  (original_batch_input resize_batch_input : Tensor4)
  (pred_ball_global : list (list Q)) :
  0 < w_resize self -> 0 < h_resize self ->
  0 <= size3 original_batch_input -> 0 <= size2 original_batch_input ->
  local_shape self original_batch_input resize_batch_input ->
  Z.of_nat (length pred_ball_global) = size0 original_batch_input ->
  Forall (fun row => length row = Z.to_nat (w_resize self + h_resize self))
         pred_ball_global ->
  exists input_ball_local,
    crop_original_batch self original_batch_input resize_batch_input
                        pred_ball_global = Some input_ball_local
    /\ local_shape self original_batch_input input_ball_local
    /\ forall idx,
        0 <= idx < size0 original_batch_input ->
        entry_done self original_batch_input (apply_mask pred_ball_global)
                   idx input_ball_local.
Proof.
  intros Hw Hh HW HH Hshape Hrows Hlen.
  unfold crop_original_batch.
  rewrite !PyFacts.truediv_pos by assumption.
  destruct (apply_mask_shape _ _ Hlen) as [Lm Fm].
  destruct (for_each_crop self original_batch_input Hw Hh HW HH
              (apply_mask pred_ball_global)
              ltac:(lia)
              ltac:(eapply Forall_impl; [|exact Fm]; cbn; intros; lia)
              (Py.range (size0 original_batch_input))
              (PyFacts.NoDup_range _)
              (zeros_like resize_batch_input))
    as (t' & Hloop & Hshape' & _ & Hdone).
  - intros i Hi. now apply PyFacts.in_range.
  - exact Hshape.
  - reflexivity.
  - exists t'. split; [exact Hloop|]. split; [exact Hshape'|].
    intros idx Hidx. apply Hdone. now apply PyFacts.in_range.
Qed.

End CropFacts.

(** ** Claims on the crop window *)

Module CropClaims.

Import Torch TTNet TorchFacts TTNetFacts CropFacts.

(** C1.  For 1080x1920 frames resized to 128x320 and a prediction of
    shape (batch, 448), [crop_original_batch] returns, and for every
    element of the batch the window computed by [get_crop_params] from the
    derived ball centre satisfies [0 <= x_min <= x_max <= 1920],
    [0 <= y_min <= y_max <= 1080], [x_max - x_min <= 320] and
    [y_max - y_min <= 128]; the offsets of the centred copy are
    non-negative and the copy ends inside the 128x320 local input. *)
Theorem crop_bounds_clamped (self : TTNet)
  (original_batch_input resize_batch_input : Tensor4)
  (pred_ball_global : list (list Q)) :
  w_resize self = 320 -> h_resize self = 128 ->
  size2 original_batch_input = 1080 -> size3 original_batch_input = 1920 ->
  size0 resize_batch_input = size0 original_batch_input ->
  size1 resize_batch_input = size1 original_batch_input ->
  size2 resize_batch_input = 128 -> size3 resize_batch_input = 320 ->
  Z.of_nat (length pred_ball_global) = size0 original_batch_input ->
  Forall (fun row => length row = 448%nat) pred_ball_global ->
  exists input_ball_local,
    crop_original_batch self original_batch_input resize_batch_input
                        pred_ball_global = Some input_ball_local
    /\ forall idx,
        0 <= idx < size0 original_batch_input ->
        exists row x_min x_max y_min y_max,
          Py.getitem (apply_mask pred_ball_global) idx = Some row
          /\ crop_window self (inject_Z 1080 / inject_Z 128)
                         (inject_Z 1920 / inject_Z 320) 1920 1080 row
             = Some (x_min, x_max, y_min, y_max)
          /\ (0 <= x_min <= x_max /\ x_max <= 1920)
          /\ (0 <= y_min <= y_max /\ y_max <= 1080)
          /\ x_max - x_min <= 320 /\ y_max - y_min <= 128
          /\ (0 <= Py.int (inject_Z (320 - (x_max - x_min)) / 2)
              /\ Py.int (inject_Z (320 - (x_max - x_min)) / 2)
                 + (x_max - x_min) <= 320)
          /\ (0 <= Py.int (inject_Z (128 - (y_max - y_min)) / 2)
              /\ Py.int (inject_Z (128 - (y_max - y_min)) / 2)
                 + (y_max - y_min) <= 128).
Proof.
  intros Hw Hh H2 H3 R0 R1 R2 R3 Hrows Hlen.
  destruct (crop_original_batch_spec self original_batch_input
              resize_batch_input pred_ball_global)
    as (t & Hrun & _ & Hdone); try lia.
  - unfold local_shape. lia.
  - rewrite Hw, Hh. exact Hlen.
  - exists t. split; [exact Hrun|].
    intros idx Hidx.
    destruct (Hdone idx Hidx)
      as (row & x_min & x_max & y_min & y_max & Hrow & Hwin & Hb & _).
    rewrite Hw, Hh, H2, H3 in *.
    exists row, x_min, x_max, y_min, y_max.
    destruct (pad_inside 320 (x_max - x_min) ltac:(lia)) as (-> & ? & ?).
    destruct (pad_inside 128 (y_max - y_min) ltac:(lia)) as (-> & ? & ?).
    repeat (split; [tauto || lia|]). lia.
Qed.

Lemma crop_bounds_clamped_example :
  exists input_ball_local,
    crop_original_batch example_net (example_frames 2 27 1080 1920)
      (example_frames 2 27 128 320)
      [repeat (1 # 2) 448; repeat 0%Q 448] = Some input_ball_local
    /\ forall idx,
        0 <= idx < 2 ->
        exists row x_min x_max y_min y_max,
          Py.getitem (apply_mask [repeat (1 # 2) 448; repeat 0%Q 448]) idx
          = Some row
          /\ crop_window example_net (inject_Z 1080 / inject_Z 128)
                         (inject_Z 1920 / inject_Z 320) 1920 1080 row
             = Some (x_min, x_max, y_min, y_max)
          /\ (0 <= x_min <= x_max /\ x_max <= 1920)
          /\ (0 <= y_min <= y_max /\ y_max <= 1080)
          /\ x_max - x_min <= 320 /\ y_max - y_min <= 128
          /\ (0 <= Py.int (inject_Z (320 - (x_max - x_min)) / 2)
              /\ Py.int (inject_Z (320 - (x_max - x_min)) / 2)
                 + (x_max - x_min) <= 320)
          /\ (0 <= Py.int (inject_Z (128 - (y_max - y_min)) / 2)
              /\ Py.int (inject_Z (128 - (y_max - y_min)) / 2)
                 + (y_max - y_min) <= 128).
Proof.
  apply (crop_bounds_clamped example_net (example_frames 2 27 1080 1920)
           (example_frames 2 27 128 320)
           [repeat (1 # 2) 448; repeat 0%Q 448]);
    try reflexivity.
  repeat constructor.
Defined.





(** C2, as the code has it.  When the window around the scaled position
    does not cross the border of the original image, and the resized
    sizes are even, the crop window is centred on that position:
    [x_min = x_center - w_resize/2], [x_max = x_center + w_resize/2], and
    likewise for y. *)
Theorem crop_window_centred_inside (self : TTNet) (h_ratio w_ratio : Q)
  (w_original h_original : Z) (row : list Q) (ball_pos_x ball_pos_y : Z) :
  ball_pos self row = Some (ball_pos_x, ball_pos_y) ->
  0 <= w_resize self -> 0 <= h_resize self ->
  Z.even (w_resize self) = true -> Z.even (h_resize self) = true ->
  0 <= scale_pos w_ratio ball_pos_x - w_resize self / 2 ->
  scale_pos w_ratio ball_pos_x + w_resize self / 2 <= w_original ->
  0 <= scale_pos h_ratio ball_pos_y - h_resize self / 2 ->
  scale_pos h_ratio ball_pos_y + h_resize self / 2 <= h_original ->
  crop_window self h_ratio w_ratio w_original h_original row
  = Some (spec_centered_window (scale_pos w_ratio ball_pos_x)
                               (scale_pos h_ratio ball_pos_y)
                               (w_resize self) (h_resize self)).
Proof.
  intros Hpos Hw Hh Ew Eh Hx0 Hx1 Hy0 Hy1.
  unfold crop_window. rewrite Hpos.
  unfold get_crop_params, spec_centered_window.
  rewrite !PyFacts.int_half_nonneg by assumption.
  apply Zeven_bool_iff, Zeven_div2 in Ew, Eh.
  rewrite Z.div2_div in Ew, Eh.
  rewrite !Z.max_r by lia. rewrite !Z.min_r by lia.
  apply f_equal.
  apply f_equal2; [apply f_equal2; [apply f_equal2|]|]; lia.
Qed.

Lemma crop_window_centred_inside_example :
  crop_window example_net (inject_Z 1080 / inject_Z 128)
              (inject_Z 1920 / inject_Z 320) 1920 1080
              (mask_row (example_row 100 50))
  = Some (spec_centered_window 600 421 320 128).
Proof.
  apply (crop_window_centred_inside example_net
           (inject_Z 1080 / inject_Z 128) (inject_Z 1920 / inject_Z 320)
           1920 1080 (mask_row (example_row 100 50)) 100 50);
    vm_compute; congruence.
Defined.

(** C2 fails at the border: for a prediction that peaks in the corner
    [(0, 0)] of the grid the centre is [(0, 0)], the window returned is
    [(0, 320, 0, 128)], and the centred window would be
    [(-160, 160, -64, 64)]. *)
Lemma crop_window_not_centred_at_border :
  ball_pos example_net (mask_row (example_row 0 0)) = Some (0, 0)
  /\ crop_window example_net (inject_Z 1080 / inject_Z 128)
                 (inject_Z 1920 / inject_Z 320) 1920 1080
                 (mask_row (example_row 0 0))
     = Some (0, 320, 0, 128)
  /\ spec_centered_window
       (scale_pos (inject_Z 1920 / inject_Z 320) 0)
       (scale_pos (inject_Z 1080 / inject_Z 128) 0) 320 128
     = (-160, 160, -64, 64).
Proof.
  repeat split; vm_compute; reflexivity.
Qed.








End CropClaims.

(** ** The demo's reconstruction of the ball position *)

Module DemoClaims.

Import TTNet.

(** C4.  For a global grid prediction [(gx, gy)] whose crop window around
    [(x_center, y_center) = (int(gx * w_ratio), int(gy * h_ratio))] is not
    clamped, and an integer local prediction [(lx, ly)] inside the crop,
    the position the demo reports is the pixel [(x_min + lx, y_min + ly)]
    of the original image, with [x_min], [y_min] from [get_crop_params]. *)
Theorem demo_inverts_crop (gx gy lx ly x_min x_max y_min y_max : Z) :
  get_crop_params (scale_pos (inject_Z 1920 / inject_Z 320) gx)
                  (scale_pos (inject_Z 1080 / inject_Z 128) gy)
                  320 128 1920 1080
  = (x_min, x_max, y_min, y_max) ->
  0 <= scale_pos (inject_Z 1920 / inject_Z 320) gx - 160 ->
  scale_pos (inject_Z 1920 / inject_Z 320) gx + 160 <= 1920 ->
  0 <= scale_pos (inject_Z 1080 / inject_Z 128) gy - 64 ->
  scale_pos (inject_Z 1080 / inject_Z 128) gy + 64 <= 1080 ->
  0 <= lx < 320 -> 0 <= ly < 128 ->
  Demo.prediction_ball_final (gx, gy) (lx, ly) = (x_min + lx, y_min + ly).
Proof.
  unfold get_crop_params, scale_pos.
  rewrite !PyFacts.int_half, !PyFacts.int_scale by lia.
  change (Z.quot 320 2) with 160. change (Z.quot 128 2) with 64.
  intros [= <- <- <- <-] Hx0 Hx1 Hy0 Hy1 Hlx Hly.
  unfold Demo.prediction_ball_final, Demo.w_ratio, Demo.h_ratio, Py.int.
  cbn [fst snd]. cbn.
  apply f_equal2; Z.to_euclidean_division_equations; lia.
Qed.

Lemma demo_inverts_crop_example :
  Demo.prediction_ball_final (100, 50) (7, 9) = (440 + 7, 357 + 9).
Proof.
  apply (demo_inverts_crop 100 50 7 9 440 760 357 485);
    first [lia | vm_compute; congruence].
Defined.

End DemoClaims.

(** ** The training wrapper *)

Module WrapperClaims.

Import String Call Wrapper.
Local Open Scope string_scope.

(** C6 does not hold of the code.  The wrapper calls the model with three
    positional arguments where [TTNet.forward] takes two, so the call
    raises [TypeError]; [create_model] passes keywords [TTNet.__init__]
    does not have, and raises [TypeError] as well; and a model with the
    right arity that returned four values would fail the unpacking of
    five. *)
Theorem wrapper_call_mismatch :
  Unbalance_Loss_Model_forward TTNet_forward TTNet_forward_returns
  = Raise TypeError
  /\ create_model "ttnet" = Raise TypeError
  /\ bind TTNet_forward 3 [] = Raise TypeError
  /\ unpack 5 TTNet_forward_returns = Raise ValueError
  /\ bind TTNet_init 0 ["dropout_p"; "tasks"; "input_size";
                        "thresh_ball_pos_mask"]
     = Raise TypeError.
Proof.
  repeat split; reflexivity.
Qed.

End WrapperClaims.

(** ** The targets of the losses *)

Module TargetClaims.

Import DataUtils.

(** C7.  For an event class [0] or [1] [create_target_events] returns the
    vector of length 2 that is 1 at the class and 0 at the other index,
    and for every class from 2 on it returns the zero vector of length 2. *)
Theorem create_target_events_one_hot (event_class : Z) :
  0 <= event_class ->
  exists target_event,
    create_target_events event_class = Some target_event
    /\ length target_event = 2%nat
    /\ (event_class = 0 -> target_event = [1; 0]%Q)
    /\ (event_class = 1 -> target_event = [0; 1]%Q)
    /\ (2 <= event_class -> target_event = [0; 0]%Q).
Proof.
  intros H. unfold create_target_events.
  destruct (Z.ltb_spec event_class 2) as [Hlt|Hge].
  - assert (event_class = 0 \/ event_class = 1) as [-> | ->] by lia;
      eexists; (split; [reflexivity|]); repeat split; intros; (reflexivity || lia).
  - eexists. split; [reflexivity|]. repeat split; intros; (reflexivity || lia).
Qed.

Lemma create_target_events_example :
  exists target_event,
    create_target_events 1 = Some target_event
    /\ length target_event = 2%nat
    /\ (1 = 0 -> target_event = [1; 0]%Q)
    /\ (1 = 1 -> target_event = [0; 1]%Q)
    /\ (2 <= 1 -> target_event = [0; 0]%Q).
Proof.
  apply (create_target_events_one_hot 1). lia.
Defined.

Lemma length_arange (n : Z) : length (arange n) = Z.to_nat n.
Proof.
  unfold arange, Py.range. now rewrite !length_map, length_seq.
Qed.

Lemma zeros_nonneg (n : Z) :
  0 <= n -> zeros n = Some (repeat 0%Q (Z.to_nat n)).
Proof.
  intros H. unfold zeros. destruct (Z.ltb_spec n 0); [lia | reflexivity].
Qed.

(** Assigning [w] values to [t[:w]] and then [h] values to [t[w:]] of a
    vector of length [w + h] replaces the whole vector. *)
Lemma set_both_halves (t vx vy : list Q) (w h : Z) :
  0 <= w -> 0 <= h ->
  length t = Z.to_nat (w + h) ->
  length vx = Z.to_nat w -> length vy = Z.to_nat h ->
  exists t1,
    set_slice t 0 w vx = Some t1
    /\ set_slice t1 w (Z.of_nat (length t1)) vy = Some (vx ++ vy).
Proof.
  intros Hw Hh Lt Lx Ly.
  exists (vx ++ skipn (Z.to_nat w) t). split.
  - unfold set_slice.
    rewrite PyFacts.slice_lo_in, PyFacts.slice_len_in by lia.
    rewrite Z.sub_0_r, Lx, Nat.eqb_refl. reflexivity.
  - assert (length (vx ++ skipn (Z.to_nat w) t) = Z.to_nat (w + h)) as L1.
    { rewrite length_app, length_skipn. lia. }
    unfold set_slice. rewrite L1.
    rewrite PyFacts.slice_lo_in, PyFacts.slice_len_in by lia.
    replace (Z.to_nat (Z.of_nat (Z.to_nat (w + h)) - w)) with (Z.to_nat h)
      by lia.
    rewrite Ly, Nat.eqb_refl. f_equal.
    rewrite firstn_app, Lx, Nat.sub_diag, firstn_all2 by lia.
    cbn [firstn]. rewrite app_nil_r.
    rewrite skipn_all2 by (rewrite L1; lia).
    now rewrite app_nil_r.
Qed.

(** C9.  For sizes [w, h >= 0] [create_target_ball] returns a vector of
    length [w + h].  For a position that is not strictly inside the frame
    ([x <= 0], [x >= w], [y <= 0] or [y >= h]) the vector is all zero; the
    Gaussian values are written when [0 < x < w] and [0 < y < h], and
    then the vector holds the two Gaussians with the entries below
    [thresh_mask] zeroed. *)
Theorem create_target_ball_frame (exp : Q -> Q) (x y sigma : Q) (w h : Z)
  (thresh_mask : Q) :
  0 <= w -> 0 <= h ->
  exists target_ball_position,
    create_target_ball exp (x, y) sigma w h thresh_mask
    = Some target_ball_position
    /\ length target_ball_position = Z.to_nat (w + h)
    /\ ((x <= 0 \/ inject_Z w <= x \/ y <= 0 \/ inject_Z h <= y)%Q ->
        target_ball_position = repeat 0%Q (Z.to_nat (w + h)))
    /\ ((0 < x /\ x < inject_Z w /\ 0 < y /\ y < inject_Z h)%Q ->
        target_ball_position
        = zero_below thresh_mask
            (map (fun p => gaussian_1d exp p x sigma) (arange w)
             ++ map (fun p => gaussian_1d exp p y sigma) (arange h))).
Proof.
  intros Hw Hh. unfold create_target_ball.
  rewrite zeros_nonneg by lia. cbn [fst snd].
  destruct (Qlt_le_dec x (inject_Z w)) as [Hxw|Hxw];
    destruct (Qlt_le_dec 0 x) as [Hx0|Hx0];
    destruct (Qlt_le_dec y (inject_Z h)) as [Hyh|Hyh];
    destruct (Qlt_le_dec 0 y) as [Hy0|Hy0]; cbn [andb];
    try (eexists; split; [reflexivity|];
         split; [apply repeat_length|];
         split; [reflexivity|];
         intros (H1 & H2 & H3 & H4);
         first [ exfalso; apply (Qlt_not_le _ _ H1 Hx0)
               | exfalso; apply (Qlt_not_le _ _ H2 Hxw)
               | exfalso; apply (Qlt_not_le _ _ H3 Hy0)
               | exfalso; apply (Qlt_not_le _ _ H4 Hyh) ]).
  destruct (set_both_halves (repeat 0%Q (Z.to_nat (w + h)))
              (map (fun p => gaussian_1d exp p x sigma) (arange w))
              (map (fun p => gaussian_1d exp p y sigma) (arange h)) w h)
    as (t1 & -> & ->); try lia.
  - apply repeat_length.
  - now rewrite length_map, length_arange.
  - now rewrite length_map, length_arange.
  - eexists. split; [reflexivity|]. split.
    + unfold zero_below.
      rewrite length_map, length_app, !length_map, !length_arange. lia.
    + split; [|reflexivity].
      intros [H|[H|[H|H]]]; exfalso;
        [ apply (Qlt_not_le _ _ Hx0 H) | apply (Qlt_not_le _ _ Hxw H)
        | apply (Qlt_not_le _ _ Hy0 H) | apply (Qlt_not_le _ _ Hyh H) ].
Qed.

Lemma create_target_ball_example :
  exists target_ball_position,
    create_target_ball (fun q => q) (400 # 1, 50 # 1)%Q 1 320 128 (1 # 100)
    = Some target_ball_position
    /\ length target_ball_position = Z.to_nat (320 + 128)
    /\ ((400 # 1 <= 0 \/ inject_Z 320 <= 400 # 1
         \/ 50 # 1 <= 0 \/ inject_Z 128 <= 50 # 1)%Q ->
        target_ball_position = repeat 0%Q (Z.to_nat (320 + 128)))
    /\ ((0 < 400 # 1 /\ 400 # 1 < inject_Z 320
         /\ 0 < 50 # 1 /\ 50 # 1 < inject_Z 128)%Q ->
        target_ball_position
        = zero_below (1 # 100)
            (map (fun p => gaussian_1d (fun q => q) p (400 # 1) 1) (arange 320)
             ++ map (fun p => gaussian_1d (fun q => q) p (50 # 1) 1)
                    (arange 128))).
Proof.
  apply (create_target_ball_frame (fun q => q) (400 # 1) (50 # 1) 1 320 128
           (1 # 100)); lia.
Defined.

End TargetClaims.

(** ** Dotted names *)

Module NameFacts.

Import String Ascii ModelUtils.
Local Open Scope string_scope.

Lemma prefix_app (n s : string) : prefix n (n ++ s) = true.
Proof.
  induction n as [|c n IH]; cbn.
  - now destruct s.
  - destruct (ascii_dec c c); [exact IH | contradiction].
Qed.

Lemma prefix_refl (n : string) : prefix n n = true.
Proof.
  induction n as [|c n IH]; cbn; [reflexivity|].
  destruct (ascii_dec c c); [exact IH | contradiction].
Qed.

Lemma contains_prefix (n s : string) :
  prefix n s = true -> contains n s = true.
Proof.
  intros H. destruct s; cbn [contains]; now rewrite H.
Qed.

Lemma contains_app_r (n a s : string) :
  contains n s = true -> contains n (a ++ s) = true.
Proof.
  intros H. induction a as [|c a IH]; cbn [append]; [exact H|].
  cbn [contains]. rewrite IH. apply orb_true_r.
Qed.

Lemma split_nonempty (sep : ascii) (s : string) : split sep s <> [].
Proof.
  destruct s as [|c s]; cbn; [discriminate|].
  destruct (Ascii.eqb c sep); [discriminate|].
  destruct (split sep s); discriminate.
Qed.

(** Splitting on dots and joining with dots gives the name back. *)
Lemma join_split (s : string) : join "." (split "." s) = s.
Proof.
  unfold join. induction s as [|c s IH]; [reflexivity|].
  cbn [split]. pose proof (split_nonempty "." s) as Hne.
  destruct (Ascii.eqb_spec c ".") as [->|Hc].
  - destruct (split "." s) as [|q qs]; [contradiction|].
    cbn [concat]. cbn [concat] in IH. now rewrite IH.
  - destruct (split "." s) as [|q qs]; [contradiction|].
    destruct qs as [|q' qs].
    + cbn [concat] in *. now rewrite IH.
    + change (concat "." (String c q :: q' :: qs))
        with (String c (concat "." (q :: q' :: qs))).
      now rewrite IH.
Qed.

Lemma split_dot_free (s : string) :
  Forall (fun part => dot_free part = true) (split "." s).
Proof.
  induction s as [|c s IH]; cbn [split].
  - repeat constructor.
  - destruct (Ascii.eqb c ".") eqn:Ec.
    + constructor; [reflexivity | exact IH].
    + destruct (split "." s) as [|q qs].
      * constructor; [|constructor]. cbn. now rewrite Ec.
      * inversion IH; subst. constructor; [|assumption].
        cbn. now rewrite Ec.
Qed.

Lemma split_one (part : string) :
  dot_free part = true -> split "." part = [part].
Proof.
  induction part as [|c part IH]; cbn; [reflexivity|].
  intros H. apply andb_true_iff in H as [Hc Hp].
  apply negb_true_iff in Hc. rewrite Hc, (IH Hp). reflexivity.
Qed.

Lemma split_app (part s : string) :
  dot_free part = true ->
  split "." (part ++ "." ++ s) = part :: split "." s.
Proof.
  induction part as [|c part IH]; cbn [append split dot_free].
  - intros _. reflexivity.
  - intros H. apply andb_true_iff in H as [Hc Hp].
    apply negb_true_iff in Hc. rewrite Hc.
    change (part ++ String "." s) with (part ++ "." ++ s).
    now rewrite (IH Hp).
Qed.

(** Joining dot-free parts and splitting gives the parts back. *)
Lemma split_join (parts : list string) :
  parts <> [] ->
  Forall (fun part => dot_free part = true) parts ->
  split "." (join "." parts) = parts.
Proof.
  unfold join. induction parts as [|part rest IH]; [congruence|].
  intros _ H. inversion H as [|? ? Hp Hrest]; subst.
  destruct rest as [|part' rest].
  - cbn [concat]. now apply split_one.
  - change (concat "." (part :: part' :: rest))
      with (part ++ "." ++ concat "." (part' :: rest)).
    rewrite split_app by assumption.
    f_equal. apply IH; [discriminate | assumption].
Qed.

Lemma setitem_second {A} (a b v : A) (rest : list A) :
  Py.setitem (a :: b :: rest) 1 v = Some (a :: v :: rest).
Proof.
  unfold Py.setitem.
  rewrite PyFacts.index_norm_in by (cbn [List.length]; lia).
  reflexivity.
Qed.

(** What [local_name] returns on a name with at least two components. *)
Lemma local_name_parts (layer_name first second : string) (rest : list string) :
  split "." layer_name = first :: second :: rest ->
  local_name layer_name = Some (join "." (first :: "ball_local_stage" :: rest)).
Proof.
  intros H. unfold local_name. now rewrite H, setitem_second.
Qed.

Lemma local_name_inv (layer_name name : string) :
  local_name layer_name = Some name ->
  exists first second rest,
    split "." layer_name = first :: second :: rest
    /\ name = join "." (first :: "ball_local_stage" :: rest).
Proof.
  unfold local_name.
  destruct (split "." layer_name) as [|first [|second rest]] eqn:E;
    [discriminate | discriminate |].
  rewrite setitem_second. intros [= <-]. now exists first, second, rest.
Qed.

(** Every name [local_name] returns contains the name of the local stage. *)
Lemma local_name_contains (layer_name name : string) :
  local_name layer_name = Some name ->
  contains "ball_local_stage" name = true.
Proof.
  intros H. apply local_name_inv in H as (first & second & rest & _ & ->).
  unfold join.
  change (concat "." (first :: "ball_local_stage" :: rest))
    with (first ++ "." ++ concat "." ("ball_local_stage" :: rest)).
  apply contains_app_r, contains_app_r, contains_prefix.
  destruct rest as [|r rest]; cbn [concat].
  - apply prefix_refl.
  - apply prefix_app.
Qed.

(** On names whose second component is the global stage, [local_name]
    is injective. *)
Lemma local_name_injective (k1 k2 name : string) :
  global_second k1 = true -> global_second k2 = true ->
  local_name k1 = Some name -> local_name k2 = Some name -> k1 = k2.
Proof.
  unfold global_second. intros G1 G2 H1 H2.
  pose proof (split_dot_free k1) as D1. pose proof (split_dot_free k2) as D2.
  destruct (split "." k1) as [|f1 [|s1 r1]] eqn:E1; try discriminate.
  destruct (split "." k2) as [|f2 [|s2 r2]] eqn:E2; try discriminate.
  apply String.eqb_eq in G1, G2. subst s1 s2.
  rewrite (local_name_parts _ _ _ _ E1) in H1.
  rewrite (local_name_parts _ _ _ _ E2) in H2.
  assert (join "." (f1 :: "ball_local_stage" :: r1) = name) as J1
    by congruence.
  assert (join "." (f2 :: "ball_local_stage" :: r2) = name) as J2
    by congruence.
  assert (split "." name = f1 :: "ball_local_stage" :: r1) as S1.
  { rewrite <- J1. apply split_join; [discriminate|].
    inversion D1 as [|? ? ? D1']; subst. inversion D1'; subst.
    repeat constructor; assumption. }
  assert (split "." name = f2 :: "ball_local_stage" :: r2) as S2.
  { rewrite <- J2. apply split_join; [discriminate|].
    inversion D2 as [|? ? ? D2']; subst. inversion D2'; subst.
    repeat constructor; assumption. }
  rewrite S1 in S2. injection S2 as -> ->.
  rewrite <- (join_split k1), <- (join_split k2). now rewrite E1, E2.
Qed.

End NameFacts.

(** ** Dictionaries and [load_weights_local_stage] *)

Module DictFacts.

Import String Ascii ModelUtils NameFacts.
Local Open Scope string_scope.

Section Facts.

Variable V : Type.

Implicit Types (d : dict V) (k name : string) (v : V).

Lemma dict_get_set d k v k' :
  dict_get (dict_set d k v) k' = if String.eqb k' k then Some v else dict_get d k'.
Proof.
  induction d as [|[k0 v0] rest IH]; cbn [dict_set dict_get].
  - reflexivity.
  - destruct (String.eqb_spec k k0) as [->|Hk]; cbn [dict_get].
    + destruct (String.eqb_spec k' k0); reflexivity.
    + rewrite IH.
      destruct (String.eqb_spec k' k0) as [->|]; [|reflexivity].
      destruct (String.eqb_spec k0 k); [congruence | reflexivity].
Qed.

Lemma dict_get_In d k v : dict_get d k = Some v -> In (k, v) d.
Proof.
  induction d as [|[k0 v0] rest IH]; cbn [dict_get]; [discriminate|].
  destruct (String.eqb_spec k k0) as [->|Hk].
  - intros [= ->]. now left.
  - intros H. right. now apply IH.
Qed.

Lemma dict_get_None d k : ~ In k (map fst d) -> dict_get d k = None.
Proof.
  induction d as [|[k0 v0] rest IH]; cbn [dict_get map fst]; [reflexivity|].
  intros H. destruct (String.eqb_spec k k0) as [->|Hk].
  - exfalso. apply H. now left.
  - apply IH. intros Hin. apply H. now right.
Qed.

Lemma In_dict_get d k v :
  NoDup (map fst d) -> In (k, v) d -> dict_get d k = Some v.
Proof.
  induction d as [|[k0 v0] rest IH]; cbn [dict_get map fst]; [contradiction|].
  intros Hnd [[= -> ->]|Hin]; inversion Hnd as [|? ? Hnotin Hnd']; subst.
  - now rewrite String.eqb_refl.
  - destruct (String.eqb_spec k k0) as [->|Hk].
    + exfalso. apply Hnotin. apply in_map_iff. now exists (k0, v).
    + now apply IH.
Qed.

Lemma keys_dict_set d k v k' :
  In k' (map fst (dict_set d k v)) -> k' = k \/ In k' (map fst d).
Proof.
  induction d as [|[k0 v0] rest IH]; cbn [dict_set map fst].
  - intros [<-|[]]. now left.
  - destruct (String.eqb_spec k k0) as [->|Hk]; cbn [map fst].
    + intros H. now right.
    + intros [<-|H]; [right; now left|].
      destruct (IH H) as [->|Hin]; [now left | right; now right].
Qed.

Lemma NoDup_dict_set d k v :
  NoDup (map fst d) -> NoDup (map fst (dict_set d k v)).
Proof.
  induction d as [|[k0 v0] rest IH]; cbn [dict_set map fst]; intros Hnd.
  - repeat constructor. intros [].
  - inversion Hnd as [|? ? Hnotin Hnd']; subst.
    destruct (String.eqb_spec k k0) as [->|Hk]; cbn [map fst].
    + now constructor.
    + constructor; [|now apply IH].
      intros Hin. apply keys_dict_set in Hin as [->|Hin];
        [now apply Hk | now apply Hnotin].
Qed.

(** [{**a, **b}] keeps the entries of [a] whose key is not in [b]. *)
Lemma dict_merge_left (b : dict V) :
  forall a k, dict_get b k = None -> dict_get (dict_merge a b) k = dict_get a k.
Proof.
  unfold dict_merge.
  induction b as [|[k0 v0] rest IH]; intros a k; cbn [fold_left dict_get fst snd].
  - reflexivity.
  - destruct (String.eqb_spec k k0) as [->|Hk]; [discriminate|].
    intros H. rewrite (IH _ _ H), dict_get_set.
    destruct (String.eqb_spec k k0); [contradiction | reflexivity].
Qed.

(** [{**a, **b}] has the entries of [b]. *)
Lemma dict_merge_right (b : dict V) :
  NoDup (map fst b) ->
  forall a k v, dict_get b k = Some v -> dict_get (dict_merge a b) k = Some v.
Proof.
  unfold dict_merge.
  induction b as [|[k0 v0] rest IH]; intros Hnd a k v;
    cbn [fold_left dict_get fst snd map]; [discriminate|].
  inversion Hnd as [|? ? Hnotin Hnd']; subst.
  destruct (String.eqb_spec k k0) as [->|Hk].
  - intros [= ->].
    pose proof (dict_merge_left rest (dict_set a k0 v) k0
                  (dict_get_None _ _ Hnotin)) as H.
    unfold dict_merge in H. rewrite H, dict_get_set.
    now rewrite String.eqb_refl.
  - intros H. now apply IH.
Qed.

(** ** The loop that collects the local names *)

Lemma local_loop_nodup (items : list (string * V)) :
  forall acc local,
    NoDup (map fst acc) -> local_loop V items acc = Some local ->
    NoDup (map fst local).
Proof.
  induction items as [|[k v] rest IH]; intros acc local Hnd;
    cbn [local_loop local_step].
  - now intros [= <-].
  - destruct (contains "ball_global_stage" k).
    + destruct (local_name k) as [name|]; [|discriminate].
      apply IH. now apply NoDup_dict_set.
    + now apply IH.
Qed.

(** A name no item is copied to keeps what it had before the loop. *)
Lemma local_loop_keep (items : list (string * V)) :
  forall acc local name,
    local_loop V items acc = Some local ->
    (forall k v, In (k, v) items -> contains "ball_global_stage" k = true ->
                 local_name k <> Some name) ->
    dict_get local name = dict_get acc name.
Proof.
  induction items as [|[k v] rest IH]; intros acc local name;
    cbn [local_loop local_step].
  - now intros [= <-].
  - intros Hrun Hno.
    assert (forall k' v', In (k', v') rest ->
              contains "ball_global_stage" k' = true ->
              local_name k' <> Some name) as Hrest.
    { intros k' v' Hin. apply (Hno k' v'). now right. }
    destruct (contains "ball_global_stage" k) eqn:Eg.
    + destruct (local_name k) as [n|] eqn:En; [|discriminate].
      rewrite (IH _ _ _ Hrun Hrest), dict_get_set.
      destruct (String.eqb_spec name n) as [->|]; [|reflexivity].
      exfalso. apply (Hno k v); [now left | exact Eg | exact En].
    + apply (IH _ _ _ Hrun Hrest).
Qed.

(** Every entry after the loop was there before or is the copy of a
    weight of the global stage. *)
Lemma local_loop_origin (items : list (string * V)) :
  forall acc local name v,
    local_loop V items acc = Some local ->
    dict_get local name = Some v ->
    dict_get acc name = Some v
    \/ exists k, In (k, v) items
                 /\ contains "ball_global_stage" k = true
                 /\ local_name k = Some name.
Proof.
  induction items as [|[k0 v0] rest IH]; intros acc local name v;
    cbn [local_loop local_step].
  - intros [= <-] H. now left.
  - destruct (contains "ball_global_stage" k0) eqn:Eg.
    + destruct (local_name k0) as [n|] eqn:En; [|discriminate].
      intros Hrun Hget.
      destruct (IH _ _ _ _ Hrun Hget) as [Hacc|(k & Hin & Hg & Hn)].
      * rewrite dict_get_set in Hacc.
        destruct (String.eqb_spec name n) as [->|]; [|now left].
        injection Hacc as ->. right. exists k0.
        split; [now left|]. now split.
      * right. exists k. split; [now right|]. now split.
    + intros Hrun Hget.
      destruct (IH _ _ _ _ Hrun Hget) as [Hacc|(k & Hin & Hg & Hn)].
      * now left.
      * right. exists k. split; [now right|]. now split.
Qed.

Section Layout.

Variable pretrained_dict : dict V.

Hypothesis layout :
  forall k v, In (k, v) pretrained_dict ->
              contains "ball_global_stage" k = true -> global_second k = true.

Lemma global_second_local_name k :
  global_second k = true -> exists name, local_name k = Some name.
Proof.
  unfold global_second.
  destruct (split "." k) as [|f [|s r]] eqn:E; try discriminate.
  intros _. eexists. apply (local_name_parts _ _ _ _ E).
Qed.

(** With the layout above the loop does not raise, and every weight of
    the global stage is found under its local name afterwards. *)
Lemma local_loop_copy (items : list (string * V)) :
  NoDup (map fst items) ->
  (forall k v, In (k, v) items -> In (k, v) pretrained_dict) ->
  forall acc,
  exists local,
    local_loop V items acc = Some local
    /\ forall k v, In (k, v) items ->
                   contains "ball_global_stage" k = true ->
                   exists name, local_name k = Some name
                                /\ dict_get local name = Some v.
Proof.
  induction items as [|[k0 v0] rest IH]; intros Hnd Hsub acc;
    cbn [local_loop local_step].
  - exists acc. split; [reflexivity|]. intros k v [].
  - inversion Hnd as [|? ? Hnotin Hnd']; subst.
    assert (forall k v, In (k, v) rest -> In (k, v) pretrained_dict) as Hsub'.
    { intros k v Hin. apply Hsub. now right. }
    destruct (contains "ball_global_stage" k0) eqn:Eg.
    + pose proof (layout k0 v0 (Hsub _ _ (or_introl eq_refl)) Eg) as Hsec.
      destruct (global_second_local_name k0 Hsec) as [n En]. rewrite En.
      destruct (IH Hnd' Hsub' (dict_set acc n v0)) as (local & Hrun & Hcopy).
      exists local. split; [exact Hrun|].
      intros k v [[= <- <-]|Hin] Hg.
      * exists n. split; [exact En|].
        rewrite (local_loop_keep rest _ _ n Hrun).
        -- rewrite dict_get_set. now rewrite String.eqb_refl.
        -- intros k' v' Hin' Hg' Hn'.
           pose proof (layout k' v' (Hsub' _ _ Hin') Hg') as Hsec'.
           pose proof (local_name_injective _ _ _ Hsec' Hsec Hn' En) as ->.
           apply Hnotin. apply in_map_iff. now exists (k0, v').
      * now apply Hcopy.
    + destruct (IH Hnd' Hsub' acc) as (local & Hrun & Hcopy).
      exists local. split; [exact Hrun|].
      intros k v [[= <- <-]|Hin] Hg; [congruence|]. now apply Hcopy.
Qed.

End Layout.

End Facts.

End DictFacts.

(** ** Claims on [load_weights_local_stage] *)

Module WeightClaims.

Import String Ascii ModelUtils NameFacts DictFacts.
Local Open Scope string_scope.

(** C10, as the code has it.  For a state dict in which every key that
    contains ['ball_global_stage'] has it as second dotted component,
    [load_weights_local_stage] returns a dict in which: a key that does
    not contain ['ball_local_stage'] maps to what it mapped to before;
    the value of every key containing ['ball_global_stage'] is found under
    the name with the second component replaced by ['ball_local_stage'],
    whatever was there before; and every entry is an entry of the input
    or such a copy. *)
Theorem load_weights_local_stage_layout {V : Type} (pretrained_dict : dict V) :
  NoDup (map fst pretrained_dict) ->
  (forall k v, In (k, v) pretrained_dict ->
               contains "ball_global_stage" k = true ->
               global_second k = true) ->
  exists result,
    load_weights_local_stage pretrained_dict = Some result
    /\ (forall k, contains "ball_local_stage" k = false ->
                  dict_get result k = dict_get pretrained_dict k)
    /\ (forall k v, dict_get pretrained_dict k = Some v ->
                    contains "ball_global_stage" k = true ->
                    exists name, local_name k = Some name
                                 /\ dict_get result name = Some v)
    /\ (forall name v,
          dict_get result name = Some v ->
          dict_get pretrained_dict name = Some v
          \/ exists k, dict_get pretrained_dict k = Some v
                       /\ contains "ball_global_stage" k = true
                       /\ local_name k = Some name).
Proof.
  intros Hnd Hlayout. unfold load_weights_local_stage.
  destruct (local_loop_copy V pretrained_dict Hlayout pretrained_dict Hnd
              (fun k v H => H) [])
    as (local & Hrun & Hcopy).
  rewrite Hrun.
  pose proof (local_loop_nodup V pretrained_dict [] local (NoDup_nil _) Hrun)
    as Hlocal.
  eexists. split; [reflexivity|]. split; [|split].
  - intros k Hk. apply dict_merge_left.
    destruct (dict_get local k) as [v|] eqn:E; [|reflexivity].
    destruct (local_loop_origin V _ _ _ _ _ Hrun E)
      as [Hnil|(k' & _ & _ & Hname)]; [discriminate|].
    apply local_name_contains in Hname. congruence.
  - intros k v Hget Hg.
    destruct (Hcopy k v (dict_get_In V _ _ _ Hget) Hg) as (name & Hname & Hl).
    exists name. split; [exact Hname|].
    now apply dict_merge_right.
  - intros name v Hget.
    destruct (dict_get local name) as [v'|] eqn:E.
    + rewrite (dict_merge_right V local Hlocal _ _ _ E) in Hget.
      injection Hget as ->.
      destruct (local_loop_origin V _ _ _ _ _ Hrun E)
        as [Hnil|(k & Hin & Hg & Hname)]; [discriminate|].
      right. exists k. split; [now apply In_dict_get|]. now split.
    + rewrite (dict_merge_left V local _ _ E) in Hget. now left.
Qed.

Lemma load_weights_local_stage_example :
  exists result,
    load_weights_local_stage
      [("model.ball_global_stage.conv1.weight", 7);
       ("model.ball_local_stage.conv1.weight", 3);
       ("model.segmentation.conv1.weight", 5)] = Some result
    /\ (forall k, contains "ball_local_stage" k = false ->
                  dict_get result k
                  = dict_get [("model.ball_global_stage.conv1.weight", 7);
                              ("model.ball_local_stage.conv1.weight", 3);
                              ("model.segmentation.conv1.weight", 5)] k)
    /\ (forall k v,
          dict_get [("model.ball_global_stage.conv1.weight", 7);
                    ("model.ball_local_stage.conv1.weight", 3);
                    ("model.segmentation.conv1.weight", 5)] k = Some v ->
          contains "ball_global_stage" k = true ->
          exists name, local_name k = Some name
                       /\ dict_get result name = Some v)
    /\ (forall name v,
          dict_get result name = Some v ->
          dict_get [("model.ball_global_stage.conv1.weight", 7);
                    ("model.ball_local_stage.conv1.weight", 3);
                    ("model.segmentation.conv1.weight", 5)] name = Some v
          \/ exists k,
              dict_get [("model.ball_global_stage.conv1.weight", 7);
                        ("model.ball_local_stage.conv1.weight", 3);
                        ("model.segmentation.conv1.weight", 5)] k = Some v
              /\ contains "ball_global_stage" k = true
              /\ local_name k = Some name).
Proof.
  apply (@load_weights_local_stage_layout Z
           [("model.ball_global_stage.conv1.weight", 7);
            ("model.ball_local_stage.conv1.weight", 3);
            ("model.segmentation.conv1.weight", 5)]).
  - repeat constructor; cbn; intuition discriminate.
  - intros k v [[= <- <-]|[[= <- <-]|[[= <- <-]|[]]]]; vm_compute; congruence.
Defined.

(** C10 fails for a key whose global-stage component is not the second
    one: from ["ball_global_stage.conv1.weight"] the code derives the key
    ["ball_global_stage.ball_local_stage.weight"], and the key with the
    global-stage component replaced, ["ball_local_stage.conv1.weight"],
    is not in the result. *)
Lemma load_weights_local_stage_first_component :
  load_weights_local_stage [("ball_global_stage.conv1.weight", 7)]
  = Some [("ball_global_stage.conv1.weight", 7);
          ("ball_global_stage.ball_local_stage.weight", 7)]
  /\ spec_counterpart "ball_global_stage.conv1.weight"
     = "ball_local_stage.conv1.weight"
  /\ dict_get [("ball_global_stage.conv1.weight", 7);
               ("ball_global_stage.ball_local_stage.weight", 7)]
              "ball_local_stage.conv1.weight" = None.
Proof.
  repeat split; reflexivity.
Qed.

End WeightClaims.

(** ** Freezing, counting and loading parameters *)

Module ParamsFacts.

Import String Ascii ModelUtils Params NameFacts DictFacts.
Local Open Scope string_scope.

(** Whether some entry of the list occurs in the name. *)
Lemma freeze_scan_flag (freeze_modules_list : list string) (p : NamedParam) :
  freeze_scan freeze_modules_list p
  = mkNamedParam (layer_name p) (numel p)
      (if existsb (fun m => contains m (layer_name p)) freeze_modules_list
       then false else requires_grad p).
Proof.
  induction freeze_modules_list as [|m rest IH]; cbn [freeze_scan existsb].
  - now destruct p.
  - destruct (contains m (layer_name p)); cbn [orb]; [reflexivity | exact IH].
Qed.

(** X1.  After [freeze_model] a parameter requires a gradient exactly
    when no entry of [freeze_modules_list] occurs in its name; names,
    sizes and order are kept, and the flags the parameters had before
    play no role. *)
Theorem freeze_model_flags (model : list NamedParam)
  (freeze_modules_list : list string) :
  freeze_model model freeze_modules_list
  = map (fun p =>
           mkNamedParam (layer_name p) (numel p)
             (negb (existsb (fun m => contains m (layer_name p))
                            freeze_modules_list)))
        model.
Proof.
  unfold freeze_model. apply map_ext. intros p.
  rewrite freeze_scan_flag. cbn [layer_name numel requires_grad set_requires_grad].
  now destruct (existsb _ _).
Qed.

(** X2.  Freezing does not accumulate: a second call of [freeze_model]
    undoes the first, so the result is that of the second list alone. *)
Theorem freeze_model_overrides (model : list NamedParam)
  (first second : list string) :
  freeze_model (freeze_model model first) second = freeze_model model second.
Proof.
  unfold freeze_model. rewrite map_map. apply map_ext. intros p.
  rewrite !freeze_scan_flag.
  cbn [layer_name numel requires_grad set_requires_grad].
  reflexivity.
Qed.

Lemma count_from (model : list NamedParam) :
  forall acc,
    fold_left (fun acc p => if requires_grad p then acc + numel p else acc)
              model acc
    = acc + get_num_parameters model.
Proof.
  unfold get_num_parameters.
  induction model as [|p rest IH]; intros acc; cbn [fold_left]; [lia|].
  rewrite IH, (IH (if requires_grad p then 0 + numel p else 0)).
  destruct (requires_grad p); lia.
Qed.

(** X3.  After [freeze_model], [get_num_parameters] counts the elements
    of the parameters whose name contains no entry of the list, and of
    no others. *)
Theorem get_num_parameters_frozen (model : list NamedParam)
  (freeze_modules_list : list string) :
  get_num_parameters (freeze_model model freeze_modules_list)
  = fold_right Z.add 0
      (map numel
         (filter (fun p => negb (existsb (fun m => contains m (layer_name p))
                                         freeze_modules_list))
                 model)).
Proof.
  rewrite freeze_model_flags.
  induction model as [|p rest IH]; [reflexivity|].
  cbn [map filter]. unfold get_num_parameters in *. cbn [fold_left requires_grad numel].
  rewrite count_from. unfold get_num_parameters. rewrite IH.
  destruct (negb _); cbn [map fold_right]; lia.
Qed.

Section Loading.

Variable V : Type.
Variable shape : V -> list Z.
Variable item0 : V -> option V.

Implicit Types (d model_state_dict pretrained_dict : dict V) (k : string).

Lemma dict_get_filter_known model_state_dict pretrained_dict k :
  dict_get (filter_known model_state_dict pretrained_dict) k
  = if dict_mem model_state_dict k then dict_get pretrained_dict k else None.
Proof.
  unfold filter_known.
  induction pretrained_dict as [|[k0 v0] rest IH]; cbn [filter dict_get fst].
  - now destruct (dict_mem model_state_dict k).
  - destruct (dict_mem model_state_dict k0) eqn:E0; cbn [dict_get].
    + destruct (String.eqb_spec k k0) as [->|]; [now rewrite E0 | exact IH].
    + rewrite IH. destruct (String.eqb_spec k k0) as [->|]; [|reflexivity].
      now rewrite E0.
Qed.

Lemma NoDup_filter_known model_state_dict pretrained_dict :
  NoDup (map fst pretrained_dict) ->
  NoDup (map fst (filter_known model_state_dict pretrained_dict)).
Proof.
  unfold filter_known.
  induction pretrained_dict as [|[k0 v0] rest IH]; cbn [filter map fst];
    intros H; [constructor|].
  inversion H as [|? ? Hnotin Hnd]; subst.
  destruct (dict_mem model_state_dict k0); cbn [map fst]; [|now apply IH].
  constructor; [|now apply IH].
  intros Hin. apply Hnotin. apply in_map_iff in Hin as ([k v] & <- & Hin).
  apply filter_In in Hin as [Hin _]. apply in_map_iff. now exists (k, v).
Qed.

Lemma dict_merge_get (a b : dict V) k :
  NoDup (map fst b) ->
  dict_get (dict_merge a b) k
  = match dict_get b k with
    | Some v => Some v
    | None => dict_get a k
    end.
Proof.
  intros Hnd. destruct (dict_get b k) as [v|] eqn:E.
  - now apply dict_merge_right.
  - now apply dict_merge_left.
Qed.

Lemma In_dict_mem d k (v : V) : In (k, v) d -> dict_mem d k = true.
Proof.
  unfold dict_mem.
  induction d as [|[k0 v0] rest IH]; cbn [dict_get]; [contradiction|].
  intros [[= -> ->]|Hin].
  - now rewrite String.eqb_refl.
  - destruct (String.eqb k k0); [reflexivity | now apply IH].
Qed.

(** A tensor of the shape of the parameter is copied as it is. *)
Lemma load_param_same (param input_param : V) :
  shape input_param = shape param ->
  load_param shape item0 param input_param = Some input_param.
Proof.
  intros H. unfold load_param.
  assert ((List.length (shape param) =? 0)%nat
          && (List.length (shape input_param) =? 1)%nat = false) as ->.
  { rewrite H. now destruct (List.length (shape param)) as [|[|n]]. }
  destruct (list_eq_dec Z.eq_dec (shape input_param) (shape param));
    [reflexivity | contradiction].
Qed.

(** A tensor of another shape is a size mismatch, unless the parameter
    has no dimension. *)
Lemma load_param_mismatch (param input_param : V) :
  shape input_param <> shape param -> shape param <> [] ->
  load_param shape item0 param input_param = None.
Proof.
  intros H Hdim. unfold load_param.
  destruct (shape param) as [|n rest] eqn:E; [congruence|].
  cbn [List.length Nat.eqb andb].
  now destruct (list_eq_dec Z.eq_dec (shape input_param) (n :: rest)).
Qed.

Lemma load_params_same (params : dict V) d :
  (forall k param, In (k, param) params ->
     exists v, dict_get d k = Some v /\ shape v = shape param) ->
  exists loaded,
    load_params shape item0 params d = Some loaded
    /\ forall k,
        dict_get loaded k
        = match dict_get params k with
          | Some _ => dict_get d k
          | None => None
          end.
Proof.
  induction params as [|[k0 p0] rest IH]; intros H; cbn [load_params].
  - exists []. split; reflexivity.
  - destruct (H k0 p0 (or_introl eq_refl)) as (v & Hv & Hs).
    rewrite Hv, (load_param_same _ _ Hs).
    destruct IH as (loaded & -> & Hget).
    { intros k p Hin. apply H. now right. }
    eexists. split; [reflexivity|].
    intros k. cbn [dict_get].
    destruct (String.eqb_spec k k0) as [->|]; [now rewrite Hv | apply Hget].
Qed.

Lemma load_params_mismatch (params : dict V) d k (param v : V) :
  dict_get params k = Some param -> dict_get d k = Some v ->
  load_param shape item0 param v = None ->
  load_params shape item0 params d = None.
Proof.
  intros Hp Hv Hload.
  induction params as [|[k0 p0] rest IH]; cbn [load_params dict_get] in *;
    [discriminate|].
  destruct (String.eqb_spec k k0) as [->|].
  - injection Hp as ->. now rewrite Hv, Hload.
  - rewrite (IH Hp). destruct (dict_get d k0) as [v0|]; [|reflexivity].
    now destruct (load_param shape item0 p0 v0).
Qed.

(** The strict load succeeds when the two dicts have the same keys and
    every tensor has the shape of its parameter. *)
Lemma load_state_dict_same_keys model_state_dict d :
  NoDup (map fst model_state_dict) ->
  (forall k, dict_mem d k = dict_mem model_state_dict k) ->
  (forall k param v,
     dict_get model_state_dict k = Some param -> dict_get d k = Some v ->
     shape v = shape param) ->
  exists loaded,
    load_state_dict shape item0 model_state_dict d = Some loaded
    /\ forall k, dict_get loaded k = dict_get d k.
Proof.
  intros Hnd Hkeys Hshape. unfold load_state_dict.
  assert (forallb (fun kv => dict_mem d (fst kv)) model_state_dict = true) as ->.
  { apply forallb_forall. intros [k v] Hin. cbn [fst].
    rewrite Hkeys. now apply In_dict_mem with v. }
  assert (forallb (fun kv => dict_mem model_state_dict (fst kv)) d = true) as ->.
  { apply forallb_forall. intros [k v] Hin. cbn [fst].
    rewrite <- Hkeys. now apply In_dict_mem with v. }
  cbn [andb].
  destruct (load_params_same model_state_dict d) as (loaded & Hload & Hget).
  { intros k param Hin.
    pose proof (In_dict_mem _ _ _ Hin) as Hm. rewrite <- Hkeys in Hm.
    unfold dict_mem in Hm. destruct (dict_get d k) as [v|] eqn:E;
      [|discriminate].
    exists v. split; [reflexivity|].
    apply Hshape with k; [now apply In_dict_get | exact E]. }
  exists loaded. split; [exact Hload|].
  intros k. rewrite Hget.
  destruct (dict_get model_state_dict k) as [p|] eqn:E; [reflexivity|].
  specialize (Hkeys k). unfold dict_mem in Hkeys. rewrite E in Hkeys.
  now destruct (dict_get d k).
Qed.

(** The strict load raises on a key the model does not have. *)
Lemma load_state_dict_unexpected model_state_dict d k :
  dict_mem d k = true -> dict_mem model_state_dict k = false ->
  load_state_dict shape item0 model_state_dict d = None.
Proof.
  intros Hd Hm. unfold load_state_dict.
  assert (forallb (fun kv => dict_mem model_state_dict (fst kv)) d = false) as ->.
  { apply not_true_is_false. intros Hall.
    rewrite forallb_forall in Hall.
    unfold dict_mem in Hd. destruct (dict_get d k) as [v|] eqn:E; [|discriminate].
    apply dict_get_In in E. specialize (Hall _ E). cbn [fst] in Hall. congruence. }
  now rewrite andb_false_r.
Qed.

(** X4.  Without the copy to the local stage, when the tensors of the
    checkpoint have the shapes of the parameters they are stored for,
    [load_pretrained_model] does not raise: the model keeps exactly its
    own keys, a key the checkpoint has takes the checkpoint's value, any
    other key keeps its value, and keys of the checkpoint that the model
    does not have are ignored. *)
Theorem load_pretrained_model_plain model_state_dict pretrained_dict :
  NoDup (map fst model_state_dict) ->
  NoDup (map fst pretrained_dict) ->
  (forall k param v,
     dict_get model_state_dict k = Some param ->
     dict_get pretrained_dict k = Some v ->
     shape v = shape param) ->
  exists loaded,
    load_pretrained_model shape item0 model_state_dict (Some pretrained_dict)
                          false
    = Some loaded
    /\ forall k,
        dict_get loaded k
        = match dict_get model_state_dict k with
          | None => None
          | Some old =>
              Some (match dict_get pretrained_dict k with
                    | Some v => v
                    | None => old
                    end)
          end.
Proof.
  intros Hmodel Hnd Hshape. unfold load_pretrained_model.
  pose proof (NoDup_filter_known model_state_dict _ Hnd) as Hnd'.
  assert (forall k,
            dict_get (dict_merge model_state_dict
                        (filter_known model_state_dict pretrained_dict)) k
            = match dict_get model_state_dict k with
              | None => None
              | Some old =>
                  Some (match dict_get pretrained_dict k with
                        | Some v => v
                        | None => old
                        end)
              end) as Hget.
  { intros k. rewrite dict_merge_get by assumption.
    rewrite dict_get_filter_known. unfold dict_mem.
    destruct (dict_get model_state_dict k) as [old|];
      destruct (dict_get pretrained_dict k); reflexivity. }
  destruct (load_state_dict_same_keys model_state_dict
              (dict_merge model_state_dict
                 (filter_known model_state_dict pretrained_dict)) Hmodel)
    as (loaded & Hload & Hloaded).
  - intros k. unfold dict_mem at 1 2.
    rewrite Hget. now destruct (dict_get model_state_dict k).
  - intros k param v Hp. rewrite Hget, Hp.
    destruct (dict_get pretrained_dict k) as [v'|] eqn:E; intros [= <-].
    + now apply Hshape with k.
    + reflexivity.
  - exists loaded. split; [exact Hload|].
    intros k. now rewrite Hloaded, Hget.
Qed.

(** X23.  A tensor of the checkpoint whose shape differs from that of
    the parameter of the model it is stored for makes
    [load_pretrained_model] raise, when the parameter has at least one
    dimension: the strict load reports a size mismatch. *)
Theorem load_pretrained_model_size_mismatch model_state_dict pretrained_dict
  k (param v : V) :
  NoDup (map fst pretrained_dict) ->
  dict_get model_state_dict k = Some param ->
  dict_get pretrained_dict k = Some v ->
  shape v <> shape param -> shape param <> [] ->
  load_pretrained_model shape item0 model_state_dict (Some pretrained_dict)
                        false
  = None.
Proof.
  intros Hnd Hp Hv Hs Hdim. unfold load_pretrained_model, load_state_dict.
  destruct (_ && _); [|reflexivity].
  apply load_params_mismatch with k param v.
  - exact Hp.
  - rewrite dict_merge_get by now apply NoDup_filter_known.
    rewrite dict_get_filter_known. unfold dict_mem. now rewrite Hp, Hv.
  - now apply load_param_mismatch.
Qed.

End Loading.

Lemma load_pretrained_model_plain_example :
  exists loaded,
    load_pretrained_model example_shape example_item0
      [("model.ball_global_stage.conv1.weight", ([64; 27; 1; 1], 1));
       ("model.ball_local_stage.conv1.weight", ([64; 27; 1; 1], 2))]
      (Some [("model.ball_global_stage.conv1.weight", ([64; 27; 1; 1], 7));
             ("optimizer.lr", ([], 9))]) false
    = Some loaded
    /\ forall k,
        dict_get loaded k
        = match dict_get
                  [("model.ball_global_stage.conv1.weight", ([64; 27; 1; 1], 1));
                   ("model.ball_local_stage.conv1.weight", ([64; 27; 1; 1], 2))]
                  k with
          | None => None
          | Some old =>
              Some (match dict_get
                            [("model.ball_global_stage.conv1.weight",
                              ([64; 27; 1; 1], 7));
                             ("optimizer.lr", ([], 9))] k with
                    | Some v => v
                    | None => old
                    end)
          end.
Proof.
  apply (load_pretrained_model_plain (list Z * Z) example_shape example_item0).
  - repeat constructor; cbn; intuition discriminate.
  - repeat constructor; cbn; intuition discriminate.
  - intros k param v Hp Hv.
    apply dict_get_In in Hp, Hv.
    destruct Hp as [[= <- <-]|[[= <- <-]|[]]];
      destruct Hv as [Hv|[Hv|[]]]; inversion Hv; reflexivity.
Defined.

Lemma load_pretrained_model_size_mismatch_example :
  load_pretrained_model example_shape example_item0
    [("model.ball_global_stage.conv1.weight", ([64; 27; 1; 1], 1))]
    (Some [("model.ball_global_stage.conv1.weight", ([64; 9; 1; 1], 7))])
    false
  = None.
Proof.
  apply (load_pretrained_model_size_mismatch (list Z * Z) example_shape
           example_item0 _ _ "model.ball_global_stage.conv1.weight"
           ([64; 27; 1; 1], 1) ([64; 9; 1; 1], 7));
    first [reflexivity | discriminate
          | repeat constructor; cbn; intuition discriminate].
Defined.

Section Overwrite.

Variable V : Type.
Variable shape : V -> list Z.
Variable item0 : V -> option V.

Implicit Types (d model_state_dict pretrained_dict : dict V) (k name : string).

Lemma NoDup_dict_merge (b : dict V) :
  forall a, NoDup (map fst a) -> NoDup (map fst (dict_merge a b)).
Proof.
  unfold dict_merge.
  induction b as [|[k0 v0] rest IH]; intros a Ha; cbn [fold_left fst snd].
  - exact Ha.
  - apply IH. now apply NoDup_dict_set.
Qed.

Lemma dict_mem_set d k (v : V) k' :
  dict_mem (dict_set d k v) k' = String.eqb k' k || dict_mem d k'.
Proof.
  unfold dict_mem. rewrite dict_get_set.
  now destruct (String.eqb k' k).
Qed.

(** [{**a, **b}] has the keys of [a] and the keys of [b]. *)
Lemma dict_mem_merge (b : dict V) :
  forall a k, dict_mem (dict_merge a b) k = dict_mem a k || dict_mem b k.
Proof.
  unfold dict_merge.
  induction b as [|[k0 v0] rest IH]; intros a k; cbn [fold_left fst snd].
  - unfold dict_mem at 3. cbn [dict_get]. now rewrite orb_false_r.
  - rewrite IH, dict_mem_set. unfold dict_mem at 4. cbn [dict_get].
    destruct (String.eqb k k0); cbn [orb].
    + now rewrite orb_true_r.
    + destruct (dict_mem a k); reflexivity.
Qed.

(** Every name a weight of the global stage is copied to is a key after
    the loop. *)
Lemma local_loop_present (items : list (string * V)) :
  forall acc local name,
    local_loop V items acc = Some local ->
    dict_mem acc name = true
    \/ (exists k v, In (k, v) items
                    /\ contains "ball_global_stage" k = true
                    /\ local_name k = Some name) ->
    dict_mem local name = true.
Proof.
  induction items as [|[k0 v0] rest IH]; intros acc local name;
    cbn [local_loop local_step].
  - intros [= <-] [H|(k & v & [] & _)]. exact H.
  - destruct (contains "ball_global_stage" k0) eqn:Eg.
    + destruct (local_name k0) as [n|] eqn:En; [|discriminate].
      intros Hrun H. apply (IH _ _ _ Hrun).
      destruct H as [H|(k & v & [[= <- <-]|Hin] & Hg & Hn)].
      * left. rewrite dict_mem_set, H. apply orb_true_r.
      * left. rewrite dict_mem_set.
        assert (n = name) as -> by congruence.
        now rewrite String.eqb_refl.
      * right. now exists k, v.
    + intros Hrun H. apply (IH _ _ _ Hrun).
      destruct H as [H|(k & v & [[= <- <-]|Hin] & Hg & Hn)].
      * now left.
      * congruence.
      * right. now exists k, v.
Qed.

Lemma In_filter_known model_state_dict pretrained_dict k (v : V) :
  In (k, v) (filter_known model_state_dict pretrained_dict)
  <-> In (k, v) pretrained_dict /\ dict_mem model_state_dict k = true.
Proof.
  unfold filter_known. now rewrite filter_In.
Qed.

(** A name whose second component is the global stage contains its
    name. *)
Lemma second_component_contains k (first : string) (rest : list string) :
  split "." k = first :: "ball_global_stage" :: rest ->
  contains "ball_global_stage" k = true.
Proof.
  intros H. rewrite <- (join_split k), H. unfold join.
  change (concat "." (first :: "ball_global_stage" :: rest))
    with (first ++ "." ++ concat "." ("ball_global_stage" :: rest)).
  apply contains_app_r, contains_app_r, contains_prefix.
  destruct rest as [|r rest]; cbn [concat].
  - apply prefix_refl.
  - apply prefix_app.
Qed.

(** X5.  With the copy to the local stage, when the tensors of the
    checkpoint have the shapes of the parameters they are stored for,
    and every key [first.ball_global_stage.rest] of the checkpoint that
    the model knows has ['ball_global_stage'] as second component and a
    counterpart [first.ball_local_stage.rest] of the same shape in the
    model, [load_pretrained_model] does not raise, the model keeps exactly
    its keys, every such weight of the global stage is loaded under
    [first.ball_local_stage.rest] as well, and a key that does not
    contain ['ball_local_stage'] gets the checkpoint's value if there is
    one and keeps its own otherwise. *)
Theorem load_pretrained_model_overwrite model_state_dict pretrained_dict :
  NoDup (map fst model_state_dict) ->
  NoDup (map fst pretrained_dict) ->
  (forall k param v,
     dict_get model_state_dict k = Some param ->
     dict_get pretrained_dict k = Some v ->
     shape v = shape param) ->
  (forall k v,
     dict_get pretrained_dict k = Some v ->
     dict_mem model_state_dict k = true ->
     contains "ball_global_stage" k = true ->
     exists first rest param,
       split "." k = first :: "ball_global_stage" :: rest
       /\ dict_get model_state_dict
            (join "." (first :: "ball_local_stage" :: rest)) = Some param
       /\ shape v = shape param) ->
  exists loaded,
    load_pretrained_model shape item0 model_state_dict (Some pretrained_dict)
                          true
    = Some loaded
    /\ (forall k, dict_mem loaded k = dict_mem model_state_dict k)
    /\ (forall k v first rest,
          dict_get pretrained_dict k = Some v ->
          dict_mem model_state_dict k = true ->
          split "." k = first :: "ball_global_stage" :: rest ->
          dict_get loaded (join "." (first :: "ball_local_stage" :: rest))
          = Some v)
    /\ (forall k old,
          contains "ball_local_stage" k = false ->
          dict_get model_state_dict k = Some old ->
          dict_get loaded k
          = Some (match dict_get pretrained_dict k with
                  | Some v => v
                  | None => old
                  end)).
Proof.
  intros Hmodel Hnd Hshape Hlayout. unfold load_pretrained_model.
  set (known := filter_known model_state_dict pretrained_dict).
  pose proof (NoDup_filter_known V model_state_dict _ Hnd) as Hknown.
  fold known in Hknown.
  assert (forall k v, In (k, v) known ->
            dict_get pretrained_dict k = Some v
            /\ dict_mem model_state_dict k = true) as Hin_known.
  { intros k v Hin. apply In_filter_known in Hin as [Hin Hm].
    split; [now apply In_dict_get | exact Hm]. }
  assert (forall k v, In (k, v) known ->
            contains "ball_global_stage" k = true -> global_second k = true)
    as Hsecond.
  { intros k v Hin Hg. destruct (Hin_known _ _ Hin) as [Hget Hm].
    destruct (Hlayout k v Hget Hm Hg) as (first & rest & _ & Hsplit & _).
    unfold global_second. now rewrite Hsplit. }
  unfold load_weights_local_stage.
  destruct (local_loop_copy V known Hsecond known Hknown (fun k v H => H) [])
    as (local & Hrun & Hcopy).
  rewrite Hrun.
  pose proof (local_loop_nodup V known [] local (NoDup_nil _) Hrun) as Hlocal.
  pose proof (NoDup_dict_merge local known Hknown) as Hresult.
  set (result := dict_merge known local) in *.
  (* a copy has the shape of the parameter it is stored for *)
  assert (forall name v, dict_get local name = Some v ->
            exists param, dict_get model_state_dict name = Some param
                          /\ shape v = shape param) as Hlocal_known.
  { intros name v Hget.
    destruct (local_loop_origin V _ _ _ _ _ Hrun Hget)
      as [Hnil|(k & Hin & Hg & Hname)]; [discriminate|].
    destruct (Hin_known _ _ Hin) as [Hget' Hm].
    destruct (Hlayout k v Hget' Hm Hg)
      as (first & rest & param & Hsplit & Hparam & Hs).
    rewrite (local_name_parts _ _ _ _ Hsplit) in Hname.
    assert (join "." (first :: "ball_local_stage" :: rest) = name) as <-
      by congruence.
    now exists param. }
  assert (forall k,
            dict_get (dict_merge model_state_dict result) k
            = match dict_get local k with
              | Some v => Some v
              | None =>
                  match dict_get model_state_dict k with
                  | None => None
                  | Some old =>
                      Some (match dict_get pretrained_dict k with
                            | Some v => v
                            | None => old
                            end)
                  end
              end) as Hget.
  { intros k. rewrite dict_merge_get by exact Hresult.
    subst result. rewrite dict_merge_get by exact Hlocal.
    destruct (dict_get local k) as [v|]; [reflexivity|].
    subst known. rewrite dict_get_filter_known. unfold dict_mem.
    destruct (dict_get model_state_dict k) as [old|];
      destruct (dict_get pretrained_dict k); reflexivity. }
  assert (forall k, dict_mem (dict_merge model_state_dict result) k
                    = dict_mem model_state_dict k) as Hkeys.
  { intros k. unfold dict_mem at 1. rewrite Hget.
    destruct (dict_get local k) as [v|] eqn:El.
    - destruct (Hlocal_known _ _ El) as (param & Hparam & _).
      unfold dict_mem. now rewrite Hparam.
    - unfold dict_mem. now destruct (dict_get model_state_dict k). }
  destruct (load_state_dict_same_keys V shape item0 model_state_dict
              (dict_merge model_state_dict result) Hmodel Hkeys)
    as (loaded & Hload & Hloaded).
  { intros k param v Hp. rewrite Hget.
    destruct (dict_get local k) as [v'|] eqn:El.
    - intros [= <-]. destruct (Hlocal_known _ _ El) as (param' & Hparam & Hs).
      congruence.
    - rewrite Hp. destruct (dict_get pretrained_dict k) as [v'|] eqn:E;
        intros [= <-]; [now apply Hshape with k | reflexivity]. }
  exists loaded. split; [exact Hload|]. split; [|split].
  - intros k. unfold dict_mem at 1. rewrite Hloaded. apply Hkeys.
  - intros k v first rest Hv Hm Hsplit.
    assert (In (k, v) known) as Hin.
    { apply In_filter_known. split; [now apply dict_get_In | exact Hm]. }
    destruct (Hcopy k v Hin (second_component_contains _ _ _ Hsplit))
      as (name & Hname & Hl).
    rewrite (local_name_parts _ _ _ _ Hsplit) in Hname.
    assert (join "." (first :: "ball_local_stage" :: rest) = name) as ->
      by congruence.
    now rewrite Hloaded, Hget, Hl.
  - intros k old Hk Hold. rewrite Hloaded, Hget.
    destruct (dict_get local k) as [v|] eqn:El.
    + destruct (local_loop_origin V _ _ _ _ _ Hrun El)
        as [Hnil|(k' & _ & _ & Hname)]; [discriminate|].
      apply local_name_contains in Hname. congruence.
    + now rewrite Hold.
Qed.

(** X6.  With the copy to the local stage, when the local name of a
    weight of the global stage that the model knows is not a key of the
    model, [load_pretrained_model] raises: the strict load meets an
    unexpected key (or the name has no second component to overwrite). *)
Theorem load_pretrained_model_unexpected model_state_dict pretrained_dict
  k (v : V) name :
  dict_get pretrained_dict k = Some v ->
  dict_mem model_state_dict k = true ->
  contains "ball_global_stage" k = true ->
  local_name k = Some name ->
  dict_mem model_state_dict name = false ->
  load_pretrained_model shape item0 model_state_dict (Some pretrained_dict)
                        true
  = None.
Proof.
  intros Hget Hm Hg Hname Hmiss. unfold load_pretrained_model.
  unfold load_weights_local_stage.
  destruct (local_loop V (filter_known model_state_dict pretrained_dict) [])
    as [local|] eqn:Hrun; [|reflexivity].
  apply load_state_dict_unexpected with name; [|exact Hmiss].
  rewrite !dict_mem_merge.
  rewrite (local_loop_present _ _ _ _ Hrun); [now rewrite !orb_true_r|].
  right. exists k, v. split; [|now split].
  apply In_filter_known. split; [now apply dict_get_In | exact Hm].
Qed.

End Overwrite.

Lemma load_pretrained_model_overwrite_example :
  exists loaded,
    load_pretrained_model example_shape example_item0
      [("model.ball_global_stage.conv1.weight", ([64; 27; 1; 1], 1));
       ("model.ball_local_stage.conv1.weight", ([64; 27; 1; 1], 2))]
      (Some [("model.ball_global_stage.conv1.weight", ([64; 27; 1; 1], 7))])
      true
    = Some loaded
    /\ (forall k,
          dict_mem loaded k
          = dict_mem
              [("model.ball_global_stage.conv1.weight", ([64; 27; 1; 1], 1));
               ("model.ball_local_stage.conv1.weight", ([64; 27; 1; 1], 2))] k)
    /\ (forall k v first rest,
          dict_get
            [("model.ball_global_stage.conv1.weight", ([64; 27; 1; 1], 7))] k
          = Some v ->
          dict_mem
            [("model.ball_global_stage.conv1.weight", ([64; 27; 1; 1], 1));
             ("model.ball_local_stage.conv1.weight", ([64; 27; 1; 1], 2))] k
          = true ->
          split "." k = first :: "ball_global_stage" :: rest ->
          dict_get loaded (join "." (first :: "ball_local_stage" :: rest))
          = Some v)
    /\ (forall k old,
          contains "ball_local_stage" k = false ->
          dict_get
            [("model.ball_global_stage.conv1.weight", ([64; 27; 1; 1], 1));
             ("model.ball_local_stage.conv1.weight", ([64; 27; 1; 1], 2))] k
          = Some old ->
          dict_get loaded k
          = Some (match dict_get
                          [("model.ball_global_stage.conv1.weight",
                            ([64; 27; 1; 1], 7))] k
                  with
                  | Some v => v
                  | None => old
                  end)).
Proof.
  apply (load_pretrained_model_overwrite (list Z * Z) example_shape
           example_item0).
  - repeat constructor; cbn; intuition discriminate.
  - repeat constructor; cbn; intuition discriminate.
  - intros k param v Hp Hv.
    apply dict_get_In in Hp, Hv.
    destruct Hv as [Hv|[]]; inversion Hv; subst.
    destruct Hp as [Hp|[Hp|[]]]; inversion Hp; reflexivity.
  - intros k v Hget _ _. apply dict_get_In in Hget.
    destruct Hget as [[= <- <-]|[]].
    exists "model", ["conv1"; "weight"], ([64; 27; 1; 1], 2).
    repeat split.
Defined.

Lemma load_pretrained_model_unexpected_example :
  load_pretrained_model example_shape example_item0
    [("ball_global_stage.conv1.weight", ([64; 27; 1; 1], 1));
     ("ball_local_stage.conv1.weight", ([64; 27; 1; 1], 2))]
    (Some [("ball_global_stage.conv1.weight", ([64; 27; 1; 1], 7))]) true
  = None.
Proof.
  apply (load_pretrained_model_unexpected (list Z * Z) example_shape
           example_item0 _ _
           "ball_global_stage.conv1.weight" ([64; 27; 1; 1], 7)
           "ball_global_stage.ball_local_stage.weight");
    reflexivity.
Defined.

End ParamsFacts.

(** ** Splitting work between processes *)

Module ParallelFacts.

Import Parallel.

(** Rounding to the nearest multiple of [1 / P] does not cross an
    integer as long as the denominator stays below [2 * P]. *)
Lemma round_half_even_floor (a b P : Z) :
  0 <= a -> 0 < b -> 0 < P -> b < 2 * P ->
  round_half_even (a * P) b / P = a / b.
Proof.
  intros Ha Hb HP Hlt. unfold round_half_even.
  pose proof (Z.div_mod a b ltac:(lia)) as Ea.
  pose proof (Z.mod_pos_bound a b Hb) as Ra.
  pose proof (Z.div_mod (a * P) b ltac:(lia)) as Ef.
  pose proof (Z.mod_pos_bound (a * P) b Hb) as Rf.
  set (k := a / b) in *. set (r0 := a mod b) in *.
  set (f := a * P / b) in *. set (r := (a * P) mod b) in *.
  assert (0 <= k) as Hk by (apply Z.div_pos; lia).
  assert (b * f + r = (b * k + r0) * P) as E by (rewrite <- Ea; lia).
  assert (k * P <= f) as Hlow by nia.
  assert (f < (k + 1) * P) as Hup by nia.
  assert (2 * r < b \/ f + 1 < (k + 1) * P) as Hround.
  { destruct (Z_lt_ge_dec (2 * r) b) as [H|H]; [now left|]. right.
    destruct (Z_lt_ge_dec (f + 1) ((k + 1) * P)) as [H'|H']; [exact H'|].
    exfalso. assert (f = (k + 1) * P - 1) as Hf by lia.
    assert (r = r0 * P - b * P + b) as Hr by nia.
    nia. }
  symmetry. apply Z.div_unique_pos with
    (r := (if 2 * r <? b then f else if b <? 2 * r then f + 1
           else if Z.even f then f else f + 1) - k * P).
  - destruct (Z.ltb_spec (2 * r) b); [lia|].
    destruct Hround as [?|?]; [lia|].
    destruct (b <? 2 * r), (Z.even f); lia.
  - lia.
Qed.

Lemma pow2_pos (n : Z) : 0 <= n -> 0 < 2 ^ n.
Proof. intros. apply Z.pow_pos_nonneg; lia. Qed.

(** For integers below [2^53] the integer part of the rounded quotient
    is the integer quotient. *)
Lemma int_float_truediv (a b : Z) :
  0 <= a < 2 ^ 53 -> 0 < b < 2 ^ 53 ->
  exists x, float_truediv a b = Some x /\ Py.int x = a / b.
Proof.
  intros Ha Hb. unfold float_truediv.
  destruct (Z.eqb_spec b 0) as [E|_]; [lia|].
  rewrite (Z.abs_eq a), (Z.abs_eq b) by lia.
  assert ((Z.sgn a * Z.sgn b <? 0) = false) as ->.
  { apply Z.ltb_ge. rewrite (Z.sgn_pos b) by lia.
    pose proof (Z.sgn_nonneg a). lia. }
  unfold nearest_double.
  destruct (Z.eqb_spec a 0) as [->|Hne].
  { exists 0%Q. split; [reflexivity|]. now rewrite Z.div_0_l by lia. }
  set (C := 2 ^ 1074). set (N := a * C / b).
  assert (C = 2 ^ 1021 * 2 ^ 53) as HC
    by (subst C; rewrite <- Z.pow_add_r by lia; reflexivity).
  assert (0 < 2 ^ 1021) as H1021 by (apply pow2_pos; lia).
  assert (2 ^ 1021 <= N) as HN.
  { subst N. apply Z.div_le_lower_bound; [lia|]. nia. }
  assert (2 ^ 52 <= 2 ^ 1021) as H52 by (apply Z.pow_le_mono_r; lia).
  destruct (Z.ltb_spec N (2 ^ 52)) as [H|_]; [lia|].
  pose proof (Z.log2_spec N ltac:(lia)) as [HL1 HL2].
  set (L := Z.log2 N) in *.
  assert (1021 <= L) as HLlow.
  { subst L. apply Z.log2_le_pow2; lia. }
  assert (N < 2 ^ 1127) as HNup.
  { subst N. apply Z.div_lt_upper_bound; [lia|].
    replace (2 ^ 1127) with (2 ^ 53 * C)
      by (subst C; rewrite <- Z.pow_add_r by lia; reflexivity).
    assert (0 < C) by (subst C; apply pow2_pos; lia). nia. }
  assert (L < 1127) as HLup.
  { subst L. apply Z.log2_lt_pow2; lia. }
  destruct (Z.leb_spec (L - 1126) 0) as [_|H]; [|lia].
  replace (- (L - 1126)) with (1126 - L) by lia.
  set (P := 2 ^ (1126 - L)).
  assert (0 < P) as HP by (subst P; apply pow2_pos; lia).
  assert (P * 2 ^ L = 2 ^ 1126) as HPL.
  { subst P. rewrite <- Z.pow_add_r by lia. f_equal. lia. }
  assert (b < 2 * P) as HbP.
  { assert (b * N <= a * C) as H1
      by (subst N; apply Z.mul_div_le; lia).
    assert (a * C < 2 ^ 53 * C) as H2.
    { assert (0 < C) by (subst C; apply pow2_pos; lia). nia. }
    assert (2 ^ 53 * C = 2 * 2 ^ 1126) as H3 by (subst C; reflexivity).
    rewrite <- HPL in H3.
    assert (0 < 2 ^ L) by (apply pow2_pos; lia).
    nia. }
  eexists. split; [reflexivity|].
  unfold Py.int. cbn [Qnum Qden]. rewrite Z2Pos.id by exact HP.
  rewrite Z.quot_div_nonneg.
  - now apply round_half_even_floor.
  - unfold round_half_even.
    pose proof (Z.div_pos (a * P) b ltac:(nia) ltac:(lia)).
    repeat match goal with |- context [if ?c then _ else _] => destruct c end;
      lia.
  - exact HP.
Qed.

(** X7.  In a distributed run on a chosen GPU, for a batch size and a
    number of workers that are not negative and stay below [2^53]
    together with the number of GPUs per node, [make_data_parallel]
    replaces the batch size by [floor(batch_size / ngpus_per_node)] and
    the number of workers by [ceil(num_workers / ngpus_per_node)],
    although both are computed with a division of floats: the processes
    of a node together load at most the configured batch and run at
    least the configured workers, with fewer than [ngpus_per_node] in
    excess. *)
Theorem make_data_parallel_split (configs : Configs) (idx : Z) :
  distributed configs = true -> gpu_idx configs = Some idx ->
  0 < ngpus_per_node configs < 2 ^ 53 ->
  0 <= batch_size configs < 2 ^ 53 ->
  0 <= num_workers configs ->
  num_workers configs + ngpus_per_node configs - 1 < 2 ^ 53 ->
  exists configs',
    make_data_parallel configs = Some (DistributedOnDevice idx, configs')
    /\ ngpus_per_node configs' = ngpus_per_node configs
    /\ ngpus_per_node configs * batch_size configs' <= batch_size configs
       < ngpus_per_node configs * (batch_size configs' + 1)
    /\ ngpus_per_node configs * (num_workers configs' - 1)
       < num_workers configs
       <= ngpus_per_node configs * num_workers configs'.
Proof.
  intros Hd Hg Hn Hb Hw Hbound. unfold make_data_parallel.
  rewrite Hd, Hg.
  destruct (int_float_truediv (batch_size configs) (ngpus_per_node configs))
    as (b & -> & Hb'); [lia | lia |].
  destruct (int_float_truediv
              (num_workers configs + ngpus_per_node configs - 1)
              (ngpus_per_node configs))
    as (n & -> & Hn'); [lia | lia |].
  eexists. split; [reflexivity|]. cbn [ngpus_per_node batch_size num_workers].
  rewrite Hb', Hn'.
  split; [reflexivity|].
  pose proof (Z.div_mod (batch_size configs) (ngpus_per_node configs)
                ltac:(lia)).
  pose proof (Z.mod_pos_bound (batch_size configs) (ngpus_per_node configs)
                ltac:(lia)).
  pose proof (Z.div_mod (num_workers configs + ngpus_per_node configs - 1)
                (ngpus_per_node configs) ltac:(lia)).
  pose proof (Z.mod_pos_bound
                (num_workers configs + ngpus_per_node configs - 1)
                (ngpus_per_node configs) ltac:(lia)).
  nia.
Qed.

Lemma make_data_parallel_split_example :
  exists configs',
    make_data_parallel (mkConfigs true (Some 1) 10 5 4)
    = Some (DistributedOnDevice 1, configs')
    /\ ngpus_per_node configs' = 4
    /\ 4 * batch_size configs' <= 10 < 4 * (batch_size configs' + 1)
    /\ 4 * (num_workers configs' - 1) < 5 <= 4 * num_workers configs'.
Proof.
  apply (make_data_parallel_split (mkConfigs true (Some 1) 10 5 4) 1);
    first [reflexivity | cbn; lia].
Defined.

End ParallelFacts.

(** ** Ranks, best loss and early stopping *)

Module TrainingFacts.

Import Training.

(** X8.  With one process per GPU, the process that [main] starts for
    [gpu_idx] on the node of rank [rank] gets the rank
    [rank * ngpus_per_node + gpu_idx]: it lies below the world size
    [main] computes, node and GPU can be read back from it, so no two
    processes share a rank, and the process is the master of its node
    exactly when [gpu_idx] is 0. *)
Theorem worker_rank_in_world (configs : DistConfigs) (gpu_idx : Z)
  (env_world_size env_rank : option Z) :
  multiprocessing_distributed configs = true ->
  0 < ngpus_per_node configs ->
  0 <= rank configs < world_size configs ->
  0 <= gpu_idx < ngpus_per_node configs ->
  exists configs' r,
    main_setup configs env_world_size = Some configs'
    /\ worker_rank configs' gpu_idx env_rank = Some r
    /\ r = rank configs * ngpus_per_node configs + gpu_idx
    /\ 0 <= r < world_size configs'
    /\ r / ngpus_per_node configs = rank configs
    /\ r mod ngpus_per_node configs = gpu_idx
    /\ is_master_node configs' r = Some (gpu_idx =? 0).
Proof.
  intros Hmp Hn Hr Hg. unfold main_setup.
  destruct (Z.eqb_spec (world_size configs) (-1)) as [E|_]; [lia|].
  rewrite andb_false_r, Hmp, orb_true_r.
  eexists. eexists. split; [reflexivity|].
  unfold worker_rank, is_master_node.
  cbn [distributed dist_url_is_env rank multiprocessing_distributed
       ngpus_per_node world_size negb].
  destruct (Z.eqb_spec (rank configs) (-1)) as [E|_]; [lia|].
  rewrite andb_false_r.
  destruct (Z.eqb_spec (ngpus_per_node configs) 0) as [E|_]; [lia|].
  split; [reflexivity|]. split; [reflexivity|].
  assert ((rank configs * ngpus_per_node configs + gpu_idx)
            / ngpus_per_node configs = rank configs) as Hdiv.
  { rewrite Z.mul_comm, Z.add_comm, Z.mul_comm, Z.div_add by lia.
    rewrite Z.div_small by lia. lia. }
  assert ((rank configs * ngpus_per_node configs + gpu_idx)
            mod ngpus_per_node configs = gpu_idx) as Hmod.
  { rewrite Z.add_comm, Z.mod_add by lia. apply Z.mod_small. lia. }
  rewrite Hmod. repeat split; try assumption; nia.
Qed.

Lemma worker_rank_in_world_example :
  exists configs' r,
    main_setup (mkDistConfigs false 2 1 true 4 false) None = Some configs'
    /\ worker_rank configs' 3 None = Some r
    /\ r = 1 * 4 + 3
    /\ 0 <= r < world_size configs'
    /\ r / 4 = 1
    /\ r mod 4 = 3
    /\ is_master_node configs' r = Some (3 =? 0).
Proof.
  apply (worker_rank_in_world (mkDistConfigs false 2 1 true 4 false) 3
           None None); first [reflexivity | cbn; lia].
Defined.

(** The order of floats that are not NaN. *)
Ltac float_cases :=
  repeat match goal with
    | a : Float |- _ => destruct a
    end;
  cbn [float_lt float_le float_min is_nan] in *;
  repeat match goal with
    | H : context [Qlt_le_dec ?x ?y] |- _ => destruct (Qlt_le_dec x y)
    | |- context [Qlt_le_dec ?x ?y] => destruct (Qlt_le_dec x y)
    end;
  try reflexivity; try discriminate; try (exfalso; lra).

Lemma float_le_not_nan (a b : Float) :
  float_le a b = true -> is_nan a = false /\ is_nan b = false.
Proof. intros H. split; float_cases. Qed.

Lemma float_le_refl (a : Float) : is_nan a = false -> float_le a a = true.
Proof. intros H. float_cases. Qed.

Lemma float_lt_le (a b : Float) : float_lt a b = true -> float_le a b = true.
Proof. intros H. float_cases. Qed.

Lemma float_le_not_lt (a b : Float) :
  float_le a b = true -> float_lt b a = false.
Proof. intros H. float_cases. Qed.

Lemma float_not_le_lt (a b : Float) :
  is_nan a = false -> is_nan b = false ->
  float_le a b = false -> float_lt b a = true.
Proof. intros Ha Hb H. float_cases. Qed.

Lemma float_le_trans (a b c : Float) :
  float_le a b = true -> float_le b c = true -> float_le a c = true.
Proof. intros H1 H2. float_cases. Qed.

(** [min(val_loss, best)] when the epoch is the best, and when it is
    not. *)
Lemma float_min_improved (val_loss best : Float) :
  float_le val_loss best = true -> float_min val_loss best = val_loss.
Proof.
  intros H. unfold float_min. now rewrite (float_le_not_lt _ _ H).
Qed.

Lemma float_min_kept (val_loss best : Float) :
  is_nan val_loss = false -> is_nan best = false ->
  float_le val_loss best = false ->
  float_min val_loss best = best /\ float_lt best val_loss = true.
Proof.
  intros Hv Hb H. unfold float_min.
  now rewrite (float_not_le_lt _ _ Hv Hb H).
Qed.

Lemma float_min_spec (val_loss best : Float) :
  is_nan val_loss = false -> is_nan best = false ->
  is_nan (float_min val_loss best) = false
  /\ float_le (float_min val_loss best) val_loss = true
  /\ float_le (float_min val_loss best) best = true
  /\ (float_min val_loss best = val_loss \/ float_min val_loss best = best).
Proof.
  intros Hv Hb.
  destruct (float_le val_loss best) eqn:E.
  - rewrite (float_min_improved _ _ E).
    split; [exact Hv|]. split; [now apply float_le_refl|].
    split; [exact E | now left].
  - destruct (float_min_kept _ _ Hv Hb E) as [-> Hlt].
    split; [exact Hb|]. split; [now apply float_lt_le|].
    split; [now apply float_le_refl | now right].
Qed.

(** One epoch, when [checkpoint_freq] is not 0: the step does not raise,
    the best loss becomes the minimum, and a checkpoint is saved on the
    master node when the epoch is the best. *)
Lemma epoch_step_spec (configs : LoopConfigs) (s : LoopState) (epoch : Z)
  (val_loss : Float) :
  checkpoint_freq configs <> 0 ->
  exists s' stop,
    epoch_step configs s epoch val_loss = Some (s', stop)
    /\ best_val_loss s' = float_min val_loss (best_val_loss s)
    /\ (forall e, In e (saved s) -> In e (saved s'))
    /\ (is_master configs = true ->
        float_le val_loss (best_val_loss s) = true -> In epoch (saved s'))
    /\ match earlystop_patience configs with
       | Some patience =>
           if patience =? 0
           then earlystop_count s' = earlystop_count s /\ stop = false
           else earlystop_count s'
                = (if float_le val_loss (best_val_loss s)
                   then 0 else earlystop_count s + 1)
                /\ stop = (patience <=? earlystop_count s')
       | None => earlystop_count s' = earlystop_count s /\ stop = false
       end.
Proof.
  intros Hfreq. unfold epoch_step.
  destruct (Z.eqb_spec (checkpoint_freq configs) 0) as [E|_]; [contradiction|].
  set (save := if is_master configs
               then if float_le val_loss (best_val_loss s) then Some true
                    else Some (epoch mod checkpoint_freq configs =? 0)
               else Some false).
  assert (exists flag, save = Some flag
            /\ (is_master configs = true ->
                float_le val_loss (best_val_loss s) = true -> flag = true))
    as (flag & -> & Hflag).
  { subst save. destruct (is_master configs);
      destruct (float_le val_loss (best_val_loss s));
      eexists; (split; [reflexivity|]); intros; congruence. }
  assert (forall e, In e (saved s) ->
            In e (if flag then saved s ++ [epoch] else saved s)) as Hkeep.
  { intros e He. destruct flag; [apply in_or_app; now left | exact He]. }
  assert (is_master configs = true ->
          float_le val_loss (best_val_loss s) = true ->
          In epoch (if flag then saved s ++ [epoch] else saved s)) as Hsave.
  { intros Hm Hb. rewrite (Hflag Hm Hb). apply in_or_app. right. now left. }
  destruct (earlystop_patience configs) as [patience|].
  - destruct (Z.eqb_spec patience 0).
    + do 2 eexists. split; [reflexivity|]. cbn. repeat split; assumption.
    + do 2 eexists. split; [reflexivity|]. cbn. repeat split; assumption.
  - do 2 eexists. split; [reflexivity|]. cbn. repeat split; assumption.
Qed.

Lemma epoch_loop_min (configs : LoopConfigs) (epochs : list (Z * Float)) :
  checkpoint_freq configs <> 0 ->
  Forall (fun ev => is_nan (snd ev) = false) epochs ->
  forall s ran0,
    is_nan (best_val_loss s) = false ->
    (forall v, In v ran0 -> float_le (best_val_loss s) v = true) ->
    exists s' ran,
      epoch_loop configs epochs s ran0 = Some (s', ran)
      /\ is_nan (best_val_loss s') = false
      /\ (forall v, In v ran -> float_le (best_val_loss s') v = true)
      /\ (best_val_loss s' = best_val_loss s \/ In (best_val_loss s') ran)
      /\ float_le (best_val_loss s') (best_val_loss s) = true
      /\ (forall v, In v ran0 -> In v ran).
Proof.
  intros Hfreq Hfin.
  induction Hfin as [|[epoch val_loss] rest Hv Hrest IH]; intros s ran0 Hb Hinv;
    cbn [epoch_loop].
  - exists s, ran0. split; [reflexivity|]. split; [exact Hb|].
    split; [exact Hinv|]. split; [now left|].
    split; [now apply float_le_refl | auto].
  - cbn [snd] in Hv.
    destruct (epoch_step_spec configs s epoch val_loss Hfreq)
      as (s1 & stop & -> & Hbest & _).
    destruct (float_min_spec val_loss (best_val_loss s) Hv Hb)
      as (Hnan1 & Hle & Hold & Hwhich).
    rewrite <- Hbest in Hnan1, Hle, Hold, Hwhich.
    assert (forall v, In v (val_loss :: ran0) ->
              float_le (best_val_loss s1) v = true) as Hinv1.
    { intros v [<-|Hin]; [exact Hle|].
      apply float_le_trans with (best_val_loss s); [exact Hold | now apply Hinv]. }
    destruct stop.
    + exists s1, (val_loss :: ran0). split; [reflexivity|].
      split; [exact Hnan1|]. split; [exact Hinv1|]. split.
      * destruct Hwhich as [H|H]; [right; rewrite H; now left | now left].
      * split; [exact Hold | intros v Hin; now right].
    + destruct (IH s1 (val_loss :: ran0) Hnan1 Hinv1)
        as (s' & ran & Hrun & Hnan' & Hall & Hfrom & Hdown & Hsub).
      exists s', ran. split; [exact Hrun|]. split; [exact Hnan'|].
      split; [exact Hall|]. split.
      * destruct Hfrom as [H|H]; [|now right].
        destruct Hwhich as [H1|H1]; [|left; congruence].
        right. rewrite H, H1. apply Hsub. now left.
      * split; [|intros v Hin; apply Hsub; now right].
        now apply float_le_trans with (best_val_loss s1).
Qed.

(** X9.  When [checkpoint_freq] is not 0 and no loss is NaN, the epoch
    loop does not raise, and the best validation loss it ends with is the
    minimum of the loss it started with and the validation losses of the
    epochs that ran: it is at most each of them and it is one of them. *)
Theorem best_val_loss_is_min (configs : LoopConfigs)
  (epochs : list (Z * Float)) (s : LoopState) :
  checkpoint_freq configs <> 0 ->
  is_nan (best_val_loss s) = false ->
  Forall (fun ev => is_nan (snd ev) = false) epochs ->
  exists s' ran,
    epoch_loop configs epochs s [] = Some (s', ran)
    /\ (forall v, In v ran -> float_le (best_val_loss s') v = true)
    /\ float_le (best_val_loss s') (best_val_loss s) = true
    /\ (best_val_loss s' = best_val_loss s \/ In (best_val_loss s') ran).
Proof.
  intros Hfreq Hb Hfin.
  destruct (epoch_loop_min configs epochs Hfreq Hfin s [] Hb)
    as (s' & ran & Hrun & _ & Hall & Hfrom & Hdown & _).
  { intros v []. }
  exists s', ran. repeat split; assumption.
Qed.

Lemma best_val_loss_is_min_example :
  exists s' ran,
    epoch_loop (mkLoopConfigs true 2 (Some 2))
      [(1, Finite (5 # 1)); (2, Finite (3 # 1)); (3, PosInf);
       (4, Finite (7 # 2)); (5, Finite (1 # 1))]
      (mkLoopState PosInf 0 []) [] = Some (s', ran)
    /\ (forall v, In v ran -> float_le (best_val_loss s') v = true)
    /\ float_le (best_val_loss s') (best_val_loss (mkLoopState PosInf 0 []))
       = true
    /\ (best_val_loss s' = best_val_loss (mkLoopState PosInf 0 [])
        \/ In (best_val_loss s') ran).
Proof.
  apply (best_val_loss_is_min (mkLoopConfigs true 2 (Some 2)));
    [cbn; lia | reflexivity | repeat constructor].
Defined.

Section EarlyStopping.

Variable configs : LoopConfigs.
Variable patience : Z.

Hypothesis freq_nonzero : checkpoint_freq configs <> 0.
Hypothesis patience_set : earlystop_patience configs = Some patience.
Hypothesis patience_pos : 0 < patience.

(** What the loop keeps true of the counter: it counts the most recent
    epochs, all strictly worse than the best loss, and the epoch before
    them attained the best loss. *)
Lemma epoch_loop_counter (epochs : list (Z * Float)) :
  Forall (fun ev => is_nan (snd ev) = false) epochs ->
  forall s ran0,
    is_nan (best_val_loss s) = false ->
    0 <= earlystop_count s <= Z.of_nat (length ran0) ->
    earlystop_count s < patience ->
    (forall v, In v (firstn (Z.to_nat (earlystop_count s)) ran0) ->
               float_lt (best_val_loss s) v = true) ->
    (earlystop_count s < Z.of_nat (length ran0) ->
     nth_error ran0 (Z.to_nat (earlystop_count s)) = Some (best_val_loss s)) ->
    exists s' ran,
      epoch_loop configs epochs s ran0 = Some (s', ran)
      /\ 0 <= earlystop_count s' <= Z.of_nat (length ran)
      /\ earlystop_count s' <= patience
      /\ (forall v, In v (firstn (Z.to_nat (earlystop_count s')) ran) ->
                    float_lt (best_val_loss s') v = true)
      /\ (earlystop_count s' < Z.of_nat (length ran) ->
          nth_error ran (Z.to_nat (earlystop_count s'))
          = Some (best_val_loss s'))
      /\ (length ran <= length ran0 + length epochs)%nat
      /\ ((length ran < length ran0 + length epochs)%nat ->
          earlystop_count s' = patience).
Proof.
  intros Hfin.
  induction Hfin as [|[epoch val_loss] rest Hv Hrest IH];
    intros s ran0 Hb Hcount Hlt Hworse Hbest; cbn [epoch_loop].
  - exists s, ran0. split; [reflexivity|].
    repeat (split; [first [assumption | lia]|]). cbn [length]. lia.
  - cbn [snd] in Hv.
    destruct (epoch_step_spec configs s epoch val_loss freq_nonzero)
      as (s1 & stop & -> & Hb1 & _ & _ & Hpat).
    rewrite patience_set in Hpat.
    destruct (Z.eqb_spec patience 0) as [E|_]; [lia|].
    destruct Hpat as [Hc1 Hstop].
    assert (is_nan (best_val_loss s1) = false
            /\ 0 <= earlystop_count s1 <= Z.of_nat (length (val_loss :: ran0))
            /\ (forall v,
                  In v (firstn (Z.to_nat (earlystop_count s1))
                               (val_loss :: ran0)) ->
                  float_lt (best_val_loss s1) v = true)
            /\ (earlystop_count s1 < Z.of_nat (length (val_loss :: ran0)) ->
                nth_error (val_loss :: ran0) (Z.to_nat (earlystop_count s1))
                = Some (best_val_loss s1))
            /\ earlystop_count s1 <= earlystop_count s + 1)
      as (Hnan1 & Hcount1 & Hworse1 & Hbest1 & Hgrow).
    { destruct (float_le val_loss (best_val_loss s)) eqn:Ebest.
      - rewrite (float_min_improved _ _ Ebest) in Hb1. rewrite Hc1, Hb1.
        cbn [length Z.to_nat firstn nth_error].
        split; [exact Hv|]. split; [lia|]. split; [intros v []|].
        split; [now intros _ | lia].
      - destruct (float_min_kept _ _ Hv Hb Ebest) as (Hmin & Hbv).
        rewrite Hmin in Hb1. rewrite Hc1, Hb1.
        replace (Z.to_nat (earlystop_count s + 1))
          with (S (Z.to_nat (earlystop_count s))) by lia.
        cbn [length firstn nth_error].
        split; [exact Hb|]. split; [lia|]. split; [|split; [|lia]].
        + intros v [<-|Hin]; [exact Hbv | now apply Hworse].
        + intros H. apply Hbest. lia. }
    destruct stop.
    + symmetry in Hstop. apply Z.leb_le in Hstop.
      exists s1, (val_loss :: ran0). split; [reflexivity|].
      split; [exact Hcount1|]. split; [lia|]. split; [exact Hworse1|].
      split; [exact Hbest1|]. cbn [length]. split; lia.
    + symmetry in Hstop. apply Z.leb_gt in Hstop.
      destruct (IH s1 (val_loss :: ran0) Hnan1 Hcount1 Hstop Hworse1 Hbest1)
        as (s' & ran & Hrun & H1 & H2 & H3 & H4 & H5 & H6).
      exists s', ran. split; [exact Hrun|].
      repeat (split; [assumption|]). cbn [length] in *. split; lia.
Qed.

(** X10.  With [checkpoint_freq] not 0, a positive [earlystop_patience],
    the counter at 0 and no loss NaN, when the loop ends the counter is
    the number of epochs since the last epoch that attained the best
    validation loss: those later epochs were all strictly worse than the
    best, the epoch before them has exactly the best loss, and the loop
    ends before the last epoch only when the counter has reached the
    patience. *)
Theorem early_stopping_counts (epochs : list (Z * Float)) (s : LoopState) :
  earlystop_count s = 0 ->
  is_nan (best_val_loss s) = false ->
  Forall (fun ev => is_nan (snd ev) = false) epochs ->
  exists s' ran,
    epoch_loop configs epochs s [] = Some (s', ran)
    /\ 0 <= earlystop_count s' <= Z.of_nat (length ran)
    /\ earlystop_count s' <= patience
    /\ (forall v, In v (firstn (Z.to_nat (earlystop_count s')) ran) ->
                  float_lt (best_val_loss s') v = true)
    /\ (earlystop_count s' < Z.of_nat (length ran) ->
        nth_error ran (Z.to_nat (earlystop_count s')) = Some (best_val_loss s'))
    /\ (length ran <= length epochs)%nat
    /\ ((length ran < length epochs)%nat -> earlystop_count s' = patience).
Proof.
  intros Hzero Hb Hfin.
  destruct (epoch_loop_counter epochs Hfin s [] Hb) as (s' & ran & H);
    rewrite ?Hzero; cbn [length Z.to_nat firstn]; try lia.
  - intros v [].
  - exists s', ran. exact H.
Qed.

End EarlyStopping.

Lemma early_stopping_counts_example :
  exists s' ran,
    epoch_loop (mkLoopConfigs true 2 (Some 2))
      [(1, Finite (5 # 1)); (2, Finite (3 # 1)); (3, Finite (4 # 1));
       (4, Finite (7 # 2)); (5, Finite (1 # 1))]
      (mkLoopState PosInf 0 []) [] = Some (s', ran)
    /\ 0 <= earlystop_count s' <= Z.of_nat (length ran)
    /\ earlystop_count s' <= 2
    /\ (forall v, In v (firstn (Z.to_nat (earlystop_count s')) ran) ->
                  float_lt (best_val_loss s') v = true)
    /\ (earlystop_count s' < Z.of_nat (length ran) ->
        nth_error ran (Z.to_nat (earlystop_count s')) = Some (best_val_loss s'))
    /\ (length ran <= 5)%nat
    /\ ((length ran < 5)%nat -> earlystop_count s' = 2).
Proof.
  apply (early_stopping_counts (mkLoopConfigs true 2 (Some 2)) 2);
    first [reflexivity | cbn; lia | repeat constructor].
Defined.

(** The master node has saved a checkpoint at an epoch whose validation
    loss is the best one. *)
Lemma epoch_loop_saved (configs : LoopConfigs) (all : list (Z * Float))
  (epochs : list (Z * Float)) :
  checkpoint_freq configs <> 0 -> is_master configs = true ->
  Forall (fun ev => is_nan (snd ev) = false) epochs ->
  forall s ran0,
    (forall x, In x epochs -> In x all) ->
    is_nan (best_val_loss s) = false ->
    (exists e, In (e, best_val_loss s) all /\ In e (saved s)) ->
    exists s' ran,
      epoch_loop configs epochs s ran0 = Some (s', ran)
      /\ exists e, In (e, best_val_loss s') all /\ In e (saved s').
Proof.
  intros Hfreq Hmaster Hfin.
  induction Hfin as [|[epoch val_loss] rest Hv Hrest IH];
    intros s ran0 Hsub Hb Hsome; cbn [epoch_loop].
  - exists s, ran0. split; [reflexivity | exact Hsome].
  - cbn [snd] in Hv.
    destruct (epoch_step_spec configs s epoch val_loss Hfreq)
      as (s1 & stop & -> & Hb1 & Hkeep & Hsave & _).
    assert (is_nan (best_val_loss s1) = false
            /\ exists e, In (e, best_val_loss s1) all /\ In e (saved s1))
      as [Hnan1 Hinv].
    { destruct (float_le val_loss (best_val_loss s)) eqn:Ebest.
      - rewrite (float_min_improved _ _ Ebest) in Hb1. rewrite Hb1.
        split; [exact Hv|]. exists epoch.
        split; [apply Hsub; now left | now apply Hsave].
      - destruct (float_min_kept _ _ Hv Hb Ebest) as (Hmin & _).
        rewrite Hmin in Hb1. rewrite Hb1. split; [exact Hb|].
        destruct Hsome as (e & Hin & Hsaved).
        exists e. split; [exact Hin | now apply Hkeep]. }
    destruct stop.
    + exists s1, (val_loss :: ran0). split; [reflexivity | exact Hinv].
    + apply IH; [|exact Hnan1 | exact Hinv].
      intros x Hx. apply Hsub. now right.
Qed.

(** X11.  On the master node, when [checkpoint_freq] is not 0, no
    loss is NaN and training starts with the best loss [np.inf], the
    loop over at least one epoch ends with a checkpoint saved at an epoch
    whose validation loss is the best validation loss. *)
Theorem best_epoch_saved (configs : LoopConfigs) (epochs : list (Z * Float))
  (s : LoopState) :
  checkpoint_freq configs <> 0 -> is_master configs = true ->
  best_val_loss s = PosInf -> epochs <> [] ->
  Forall (fun ev => is_nan (snd ev) = false) epochs ->
  exists s' ran,
    epoch_loop configs epochs s [] = Some (s', ran)
    /\ exists e, In (e, best_val_loss s') epochs /\ In e (saved s').
Proof.
  intros Hfreq Hmaster Hinf Hne Hfin.
  destruct epochs as [|[epoch val_loss] rest]; [contradiction|].
  inversion Hfin as [|? ? Hv Hrest]; subst. cbn [snd] in Hv.
  cbn [epoch_loop].
  destruct (epoch_step_spec configs s epoch val_loss Hfreq)
    as (s1 & stop & -> & Hb1 & _ & Hsave & _).
  assert (float_le val_loss (best_val_loss s) = true) as Hbest.
  { rewrite Hinf. now destruct val_loss. }
  rewrite (float_min_improved _ _ Hbest) in Hb1.
  assert (exists e, In (e, best_val_loss s1) ((epoch, val_loss) :: rest)
                    /\ In e (saved s1)) as Hinv.
  { exists epoch. rewrite Hb1. split; [now left | now apply Hsave]. }
  destruct stop.
  - exists s1, [val_loss]. split; [reflexivity | exact Hinv].
  - apply (epoch_loop_saved configs ((epoch, val_loss) :: rest) rest
             Hfreq Hmaster Hrest s1 [val_loss]).
    + intros x Hx. now right.
    + now rewrite Hb1.
    + exact Hinv.
Qed.

Lemma best_epoch_saved_example :
  exists s' ran,
    epoch_loop (mkLoopConfigs true 2 None)
      [(1, Finite (5 # 1)); (2, Finite (3 # 1)); (3, Finite (4 # 1))]
      (mkLoopState PosInf 0 []) [] = Some (s', ran)
    /\ exists e,
        In (e, best_val_loss s')
           [(1, Finite (5 # 1)); (2, Finite (3 # 1)); (3, Finite (4 # 1))]
        /\ In e (saved s').
Proof.
  apply (best_epoch_saved (mkLoopConfigs true 2 None));
    first [reflexivity | cbn; lia | discriminate | repeat constructor].
Defined.

End TrainingFacts.

(** ** The delay of the demo *)

Module DemoLoopFacts.

Import DemoLoop.

Section Delay.

Variable Pred : Type.

Lemma loop_snoc (middle_idx : Z) (predictions : list Pred) (p : Pred) :
  forall s,
    loop middle_idx (predictions ++ [p]) s
    = match loop middle_idx predictions s with
      | Some s' => step middle_idx s' p
      | None => None
      end.
Proof.
  induction predictions as [|q rest IH]; intros s; cbn [app loop].
  - now destruct (step middle_idx s p).
  - destruct (step middle_idx s q); [apply IH | reflexivity].
Qed.

Lemma skipn_head (k : nat) :
  forall (l : list Pred) x rest,
    skipn k l = x :: rest ->
    firstn (S k) l = firstn k l ++ [x] /\ skipn (S k) l = rest.
Proof.
  induction k as [|k IH]; intros l x rest H.
  - cbn in H. subst l. now split.
  - destruct l as [|y l]; [discriminate|].
    cbn [skipn] in H. destruct (IH l x rest H) as [H1 H2].
    split; [|exact H2].
    change (firstn (S (S k)) (y :: l)) with (y :: firstn (S k) l).
    now rewrite H1.
Qed.

Lemma combine_snoc {A B} (a : list A) :
  forall (b : list B) x y,
    length a = length b ->
    combine (a ++ [x]) (b ++ [y]) = combine a b ++ [(x, y)].
Proof.
  induction a as [|a0 a IH]; intros [|b0 b] x y H; try discriminate.
  - reflexivity.
  - cbn. f_equal. apply IH. now injection H.
Qed.

(** After [n] predictions, with [m = middle_idx + 1]: the queue holds
    the last [m] predictions, and the first [n - m] predictions have been
    plotted, on the frames [m, m + 1, ...]. *)
Lemma loop_delay (m : nat) (predictions : list Pred) :
  loop (Z.of_nat m) predictions (mkState [] 0 [])
  = Some (mkState (skipn (length predictions - S m) predictions)
                  (Z.of_nat (length predictions))
                  (combine
                     (map Z.of_nat (seq (S m) (length predictions - S m)))
                     (firstn (length predictions - S m) predictions))).
Proof.
  induction predictions as [|p ps IH] using rev_ind.
  - reflexivity.
  - rewrite loop_snoc, IH. unfold step. cbn [queue_frames frame_idx plotted].
    rewrite length_skipn, length_app. cbn [length].
    replace (length ps + 1)%nat with (S (length ps)) by lia.
    destruct (Z.eqb_spec (Z.of_nat (length ps - (length ps - S m)))
                         (Z.of_nat m + 1)) as [Hfull|Hshort].
    + assert (S m <= length ps)%nat as Hle by lia.
      destruct (skipn (length ps - S m) ps) as [|x rest] eqn:Eq.
      { apply (f_equal (@length _)) in Eq. rewrite length_skipn in Eq.
        cbn in Eq. lia. }
      destruct (skipn_head _ _ _ _ Eq) as [Hfirst Hrest].
      assert (length rest = m) as Lrest.
      { apply (f_equal (@length _)) in Eq. rewrite length_skipn in Eq.
        cbn [length] in Eq. lia. }
      unfold append.
      destruct (Z.eqb_spec (Z.of_nat m + 1) 0); [lia|].
      destruct (Z.ltb_spec (Z.of_nat (length rest)) (Z.of_nat m + 1)); [|lia].
      f_equal. f_equal.
      * replace (S (length ps) - S m)%nat with (S (length ps - S m)) by lia.
        rewrite skipn_app, Hrest.
        replace (S (length ps - S m) - length ps)%nat with 0%nat by lia.
        reflexivity.
      * lia.
      * replace (S (length ps) - S m)%nat with (S (length ps - S m)) by lia.
        rewrite seq_S, map_app. cbn [map].
        rewrite firstn_app, Hfirst.
        replace (S (length ps - S m) - length ps)%nat with 0%nat by lia.
        rewrite firstn_O, app_nil_r.
        rewrite combine_snoc
          by (rewrite length_map, length_seq, length_firstn; lia).
        do 3 f_equal. lia.
    + assert (length ps < S m)%nat as Hlt by lia.
      replace (length ps - S m)%nat with 0%nat by lia.
      cbn [skipn]. unfold append.
      destruct (Z.eqb_spec (Z.of_nat m + 1) 0); [lia|].
      destruct (Z.ltb_spec (Z.of_nat (length ps)) (Z.of_nat m + 1)); [|lia].
      f_equal. f_equal.
      * replace (S (length ps) - S m)%nat with 0%nat by lia. reflexivity.
      * lia.
      * replace (S (length ps) - S m)%nat with 0%nat by lia.
        reflexivity.
Qed.

(** X12.  For [num_frames_sequence >= 0] and [m = num_frames_sequence //
    2 + 1], the demo plots nothing during its first [m] iterations, and
    from then on the frame of iteration [i] is drawn with the prediction
    of iteration [i - m]: after [n] predictions the plotted frames are
    [m, ..., n - 1] with the predictions [0, ..., n - m - 1], the last
    [m] predictions are still in the queue and are never drawn. *)
Theorem demo_delay (num_frames_sequence : Z) (predictions : list Pred) :
  0 <= num_frames_sequence ->
  demo_frames num_frames_sequence predictions
  = Some (mkState
            (skipn (length predictions
                    - Z.to_nat (num_frames_sequence / 2 + 1))
                   predictions)
            (Z.of_nat (length predictions))
            (combine
               (map Z.of_nat
                    (seq (Z.to_nat (num_frames_sequence / 2 + 1))
                         (length predictions
                          - Z.to_nat (num_frames_sequence / 2 + 1))))
               (firstn (length predictions
                        - Z.to_nat (num_frames_sequence / 2 + 1))
                       predictions))).
Proof.
  intros Hn. unfold demo_frames.
  rewrite PyFacts.int_half_nonneg by assumption.
  pose proof (Z.div_pos num_frames_sequence 2 Hn ltac:(lia)) as Hm.
  unfold deque. destruct (Z.ltb_spec (num_frames_sequence / 2 + 1) 0); [lia|].
  replace (Z.to_nat (num_frames_sequence / 2 + 1))
    with (S (Z.to_nat (num_frames_sequence / 2))) by lia.
  rewrite <- (Z2Nat.id (num_frames_sequence / 2)) at 1 by assumption.
  apply loop_delay.
Qed.

End Delay.

Lemma demo_delay_example :
  demo_frames 9 [10; 11; 12; 13; 14; 15; 16]
  = Some (mkState
            (skipn (length [10; 11; 12; 13; 14; 15; 16] - Z.to_nat (9 / 2 + 1))
                   [10; 11; 12; 13; 14; 15; 16])
            (Z.of_nat (length [10; 11; 12; 13; 14; 15; 16]))
            (combine
               (map Z.of_nat
                    (seq (Z.to_nat (9 / 2 + 1))
                         (length [10; 11; 12; 13; 14; 15; 16]
                          - Z.to_nat (9 / 2 + 1))))
               (firstn (length [10; 11; 12; 13; 14; 15; 16]
                        - Z.to_nat (9 / 2 + 1))
                       [10; 11; 12; 13; 14; 15; 16]))).
Proof.
  apply (demo_delay Z 9 [10; 11; 12; 13; 14; 15; 16]). lia.
Defined.

End DemoLoopFacts.

(** ** The shapes through the network *)

Module ShapeFacts.

Import Shapes.

(** Boolean tests on integers, turned into propositions. *)
Ltac reflect_tests :=
  repeat match goal with
    | H : (_ && _) = true |- _ => apply andb_prop in H; destruct H
    | H : (_ && _) = false |- _ => apply andb_false_iff in H; destruct H
    | H : negb _ = true |- _ => apply negb_true_iff in H
    | H : negb _ = false |- _ => apply negb_false_iff in H
    | H : (_ =? _) = true |- _ => apply Z.eqb_eq in H
    | H : (_ =? _) = false |- _ => apply Z.eqb_neq in H
    | H : (_ <=? _) = true |- _ => apply Z.leb_le in H
    | H : (_ <=? _) = false |- _ => apply Z.leb_gt in H
    | H : (_ <? _) = true |- _ => apply Z.ltb_lt in H
    | H : (_ <? _) = false |- _ => apply Z.ltb_ge in H
    end.

Ltac div_lia := Z.to_euclidean_division_equations; lia.

(** Two shapes are equal when their sizes are, one by one. *)
Ltac shape_eq :=
  try apply (f_equal (@Some Shape));
  repeat (apply (f_equal2 (@cons Z)); [lia|]);
  reflexivity.

(** Both sides are a test followed by a result: compare the tests, then
    the results. *)
Ltac same_test :=
  repeat match goal with
    | |- context [if ?b then _ else _] => destruct b eqn:?
    end;
  reflect_tests;
  first [ reflexivity
        | exfalso; div_lia
        | repeat f_equal; div_lia ].

Lemma conv_out_1x1 (size : Z) : conv_out size 1 1 0 = size.
Proof. unfold conv_out. rewrite Z.div_1_r. lia. Qed.

Lemma conv_out_3x3 (size : Z) : conv_out size 3 1 1 = size.
Proof. unfold conv_out. rewrite Z.div_1_r. lia. Qed.

Lemma conv_out_pool (size : Z) : conv_out size 2 2 0 = size / 2.
Proof. unfold conv_out. div_lia. Qed.

Lemma Conv2d_1x1 (cin cout n c h w : Z) :
  Conv2d cin cout 1 1 0 [n; c; h; w]
  = if (c =? cin) && (0 <? h) && (0 <? w)
    then Some [n; cout; h; w] else None.
Proof. unfold Conv2d. now rewrite !conv_out_1x1. Qed.

Lemma Conv2d_3x3 (cin cout n c h w : Z) :
  Conv2d cin cout 3 1 1 [n; c; h; w]
  = if (c =? cin) && (0 <? h) && (0 <? w)
    then Some [n; cout; h; w] else None.
Proof. unfold Conv2d. now rewrite !conv_out_3x3. Qed.

(** A block with pooling halves height and width and needs at least two
    rows and two columns. *)
Lemma ConvBlock_eq (cin cout n c h w : Z) :
  ConvBlock cin cout [n; c; h; w]
  = if (c =? cin) && (2 <=? h) && (2 <=? w)
    then Some [n; cout; h / 2; w / 2] else None.
Proof.
  unfold ConvBlock. rewrite Conv2d_3x3.
  destruct ((c =? cin) && (0 <? h) && (0 <? w)) eqn:E; cbn [bind].
  - unfold BatchNorm2d. rewrite Z.eqb_refl. cbn [bind].
    unfold MaxPool2d. rewrite !conv_out_pool. same_test.
  - same_test.
Qed.

Lemma ConvBlock_without_Pooling_eq (cin cout n c h w : Z) :
  ConvBlock_without_Pooling cin cout [n; c; h; w]
  = if (c =? cin) && (0 <? h) && (0 <? w)
    then Some [n; cout; h; w] else None.
Proof.
  unfold ConvBlock_without_Pooling. rewrite Conv2d_3x3.
  destruct ((c =? cin) && (0 <? h) && (0 <? w)); cbn [bind]; [|reflexivity].
  unfold BatchNorm2d. now rewrite Z.eqb_refl.
Qed.

(** What [BallDetection.forward] accepts and what it returns. *)
Lemma BallDetection_eq (n c h w : Z) :
  BallDetection [n; c; h; w]
  = if (c =? 27) && (64 <=? h) && (64 <=? w) && negb (n =? 0)
       && ((h / 64) * (w / 64) =? 10)
    then Some (mkBallShapes [n; 448] [n; 256; h / 64; w / 64]
                 [n; 64; h / 4; w / 4] [n; 128; h / 8; w / 8]
                 [n; 128; h / 16; w / 16] [n; 256; h / 32; w / 32])
    else None.
Proof.
  unfold BallDetection. rewrite Conv2d_1x1.
  destruct ((c =? 27) && (0 <? h) && (0 <? w)) eqn:E0; cbn [bind];
    [|same_test].
  unfold BatchNorm2d at 1. rewrite Z.eqb_refl. cbn [bind].
  rewrite ConvBlock_eq, Z.eqb_refl. cbn [andb].
  destruct ((2 <=? h) && (2 <=? w)) eqn:E1; cbn [bind]; [|same_test].
  rewrite ConvBlock_eq, Z.eqb_refl. cbn [andb].
  destruct ((2 <=? h / 2) && (2 <=? w / 2)) eqn:E2; cbn [bind]; [|same_test].
  rewrite ConvBlock_eq, Z.eqb_refl. cbn [andb].
  destruct ((2 <=? h / 2 / 2) && (2 <=? w / 2 / 2)) eqn:E3; cbn [bind];
    [|same_test].
  rewrite ConvBlock_eq, Z.eqb_refl. cbn [andb].
  destruct ((2 <=? h / 2 / 2 / 2) && (2 <=? w / 2 / 2 / 2)) eqn:E4;
    cbn [bind]; [|same_test].
  rewrite ConvBlock_eq, Z.eqb_refl. cbn [andb].
  destruct ((2 <=? h / 2 / 2 / 2 / 2) && (2 <=? w / 2 / 2 / 2 / 2)) eqn:E5;
    cbn [bind]; [|same_test].
  rewrite ConvBlock_eq, Z.eqb_refl. cbn [andb].
  destruct ((2 <=? h / 2 / 2 / 2 / 2 / 2) && (2 <=? w / 2 / 2 / 2 / 2 / 2))
    eqn:E6; cbn [bind]; [|same_test].
  unfold flatten.
  destruct (n =? 0) eqn:En; cbn [bind negb]; [same_test|].
  unfold Linear at 1.
  assert (h / 2 / 2 / 2 / 2 / 2 / 2 = h / 64) as -> by div_lia.
  assert (w / 2 / 2 / 2 / 2 / 2 / 2 = w / 64) as -> by div_lia.
  assert ((256 * (h / 64) * (w / 64) =? 2560) = (h / 64 * (w / 64) =? 10))
    as ->.
  { destruct (Z.eqb_spec (256 * (h / 64) * (w / 64)) 2560),
             (Z.eqb_spec (h / 64 * (w / 64)) 10); try reflexivity; lia. }
  destruct (h / 64 * (w / 64) =? 10) eqn:Ef; cbn [bind].
  - cbn [Linear bind]. rewrite !Z.eqb_refl. cbn [bind]. reflect_tests.
    replace (c =? 27) with true by (symmetry; apply Z.eqb_eq; lia).
    replace (64 <=? h) with true by (symmetry; apply Z.leb_le; div_lia).
    replace (64 <=? w) with true by (symmetry; apply Z.leb_le; div_lia).
    cbn [andb negb].
    replace (h / 2 / 2 / 2 / 2 / 2) with (h / 32) by div_lia.
    replace (w / 2 / 2 / 2 / 2 / 2) with (w / 32) by div_lia.
    replace (h / 2 / 2 / 2 / 2) with (h / 16) by div_lia.
    replace (w / 2 / 2 / 2 / 2) with (w / 16) by div_lia.
    replace (h / 2 / 2 / 2) with (h / 8) by div_lia.
    replace (w / 2 / 2 / 2) with (w / 8) by div_lia.
    replace (h / 2 / 2) with (h / 4) by div_lia.
    replace (w / 2 / 2) with (w / 4) by div_lia.
    reflexivity.
  - now rewrite !andb_false_r.
Qed.

(** X13.  [BallDetection.forward] accepts a batch [(N, C, H, W)]
    exactly when [C = 27], the batch is not empty, [H >= 64], [W >= 64] and
    [floor(H / 64) * floor(W / 64) = 10] (the 2560 features of [fc1]); it
    then returns a prediction of shape [(N, 448)], features of shape
    [(N, 256, H/64, W/64)] and the four blocks at [H/4], [H/8], [H/16]
    and [H/32]. *)
Theorem ball_detection_accepts (n c h w : Z) (b : BallShapes) :
  BallDetection [n; c; h; w] = Some b
  <-> c = 27 /\ n <> 0 /\ 64 <= h /\ 64 <= w /\ (h / 64) * (w / 64) = 10
      /\ b = mkBallShapes [n; 448] [n; 256; h / 64; w / 64]
                [n; 64; h / 4; w / 4] [n; 128; h / 8; w / 8]
                [n; 128; h / 16; w / 16] [n; 256; h / 32; w / 32].
Proof.
  rewrite BallDetection_eq.
  destruct ((c =? 27) && (64 <=? h) && (64 <=? w) && negb (n =? 0)
            && (h / 64 * (w / 64) =? 10)) eqn:E.
  - reflect_tests. split.
    + intros [= <-]. repeat (split; [assumption|]). reflexivity.
    + intros (_ & _ & _ & _ & _ & ->). reflexivity.
  - split; [discriminate|].
    intros (Hc & Hn & Hh & Hw & Hf & _). exfalso.
    reflect_tests; try contradiction; lia.
Qed.

(** What [EventsSpotting.forward] accepts and what it returns. *)
Lemma EventsSpotting_eq (n cg h w n' cl h' w' : Z) :
  EventsSpotting [n; cg; h; w] [n'; cl; h'; w']
  = if (n =? n') && (h =? h') && (w =? w') && (cg + cl =? 512)
       && (0 <? h) && (0 <? w) && negb (n =? 0) && (h * w =? 10)
    then Some [n; 2] else None.
Proof.
  unfold EventsSpotting, cat1.
  destruct ((n =? n') && (h =? h') && (w =? w')) eqn:E; cbn [bind andb];
    [|reflexivity].
  rewrite Conv2d_1x1.
  destruct ((cg + cl =? 512) && (0 <? h) && (0 <? w)) eqn:E1; cbn [bind].
  - unfold BatchNorm2d at 1. rewrite Z.eqb_refl. cbn [bind].
    reflect_tests.
    rewrite !ConvBlock_without_Pooling_eq, Z.eqb_refl.
    replace (0 <? h) with true by (symmetry; apply Z.ltb_lt; lia).
    replace (0 <? w) with true by (symmetry; apply Z.ltb_lt; lia).
    cbn [andb bind].
    rewrite ConvBlock_without_Pooling_eq, Z.eqb_refl.
    replace (0 <? h) with true by (symmetry; apply Z.ltb_lt; lia).
    replace (0 <? w) with true by (symmetry; apply Z.ltb_lt; lia).
    replace (cg + cl =? 512) with true by (symmetry; apply Z.eqb_eq; lia).
    cbn [andb bind]. unfold flatten.
    destruct (n =? 0); cbn [bind negb]; [reflexivity|].
    unfold Linear at 1.
    assert ((64 * h * w =? 640) = (h * w =? 10)) as ->.
    { destruct (Z.eqb_spec (64 * h * w) 640), (Z.eqb_spec (h * w) 10);
        try reflexivity; lia. }
    destruct (h * w =? 10); cbn [bind]; [|reflexivity].
    cbn [Linear]. now rewrite Z.eqb_refl.
  - destruct (cg + cl =? 512), (0 <? h), (0 <? w); cbn in E1 |- *;
      try discriminate; reflexivity.
Qed.

(** X14.  [EventsSpotting.forward] accepts two feature maps exactly when
    they agree in batch size, height and width, their channels add up to
    512, the batch is not empty and [H * W = 10] (the 640 features of
    [fc1]); it then returns a prediction of shape [(N, 2)]. *)
Theorem events_spotting_accepts (n cg h w n' cl h' w' : Z) (r : Shape) :
  EventsSpotting [n; cg; h; w] [n'; cl; h'; w'] = Some r
  <-> n = n' /\ h = h' /\ w = w' /\ cg + cl = 512 /\ n <> 0
      /\ 0 < h /\ 0 < w /\ h * w = 10 /\ r = [n; 2].
Proof.
  rewrite EventsSpotting_eq.
  destruct ((n =? n') && (h =? h') && (w =? w') && (cg + cl =? 512)
            && (0 <? h) && (0 <? w) && negb (n =? 0) && (h * w =? 10)) eqn:E.
  - reflect_tests. split.
    + intros [= <-]. repeat (split; [assumption|]). reflexivity.
    + intros (_ & _ & _ & _ & _ & _ & _ & _ & ->). reflexivity.
  - split; [discriminate|].
    intros (H1 & H2 & H3 & H4 & H5 & H6 & H7 & H8 & _). exfalso.
    reflect_tests; try contradiction; lia.
Qed.

(** A deconvolution block doubles height and width. *)
Lemma DeconvBlock_eq (cin cout n c h w : Z) :
  DeconvBlock cin cout [n; c; h; w]
  = if (c =? cin) && (0 <? h) && (0 <? w)
    then Some [n; cout; 2 * h; 2 * w] else None.
Proof.
  unfold DeconvBlock. rewrite Conv2d_1x1.
  destruct ((c =? cin) && (0 <? h) && (0 <? w)) eqn:E; cbn [bind];
    [|reflexivity].
  reflect_tests.
  unfold BatchNorm2d at 1. rewrite Z.eqb_refl. cbn [bind].
  unfold ConvTranspose2d, tconv_out. rewrite Z.eqb_refl.
  replace (0 <? (h - 1) * 2 - 2 * 1 + 3 + 1) with true
    by (symmetry; apply Z.ltb_lt; lia).
  replace (0 <? (w - 1) * 2 - 2 * 1 + 3 + 1) with true
    by (symmetry; apply Z.ltb_lt; lia).
  cbn [andb bind].
  unfold BatchNorm2d at 1. rewrite Z.eqb_refl. cbn [bind].
  rewrite Conv2d_1x1, Z.eqb_refl.
  replace (0 <? (h - 1) * 2 - 2 * 1 + 3 + 1) with true
    by (symmetry; apply Z.ltb_lt; lia).
  replace (0 <? (w - 1) * 2 - 2 * 1 + 3 + 1) with true
    by (symmetry; apply Z.ltb_lt; lia).
  cbn [andb bind]. unfold BatchNorm2d. rewrite Z.eqb_refl.
  shape_eq.
Qed.

Lemma add_same (x : Shape) (n c h w : Z) :
  x = [n; c; h; w] -> add x [n; c; h; w] = Some [n; c; h; w].
Proof.
  intros ->. unfold add, broadcast. now rewrite !Z.eqb_refl.
Qed.

(** The decoder on the blocks of an encoder whose input has a height
    [32 * a] and a width [32 * b]. *)
Lemma Segmentation_blocks (n a b : Z) :
  0 < a -> 0 < b ->
  Segmentation [n; 64; 8 * a; 8 * b] [n; 128; 4 * a; 4 * b]
               [n; 128; 2 * a; 2 * b] [n; 256; a; b]
  = Some [n; 3; 32 * a; 32 * b].
Proof.
  intros Ha Hb. unfold Segmentation.
  rewrite DeconvBlock_eq, Z.eqb_refl.
  replace (0 <? a) with true by (symmetry; apply Z.ltb_lt; lia).
  replace (0 <? b) with true by (symmetry; apply Z.ltb_lt; lia).
  cbn [andb bind]. rewrite add_same by reflexivity. cbn [bind].
  rewrite DeconvBlock_eq, Z.eqb_refl.
  replace (0 <? 2 * a) with true by (symmetry; apply Z.ltb_lt; lia).
  replace (0 <? 2 * b) with true by (symmetry; apply Z.ltb_lt; lia).
  cbn [andb bind]. rewrite add_same by shape_eq. cbn [bind].
  rewrite DeconvBlock_eq, Z.eqb_refl.
  replace (0 <? 4 * a) with true by (symmetry; apply Z.ltb_lt; lia).
  replace (0 <? 4 * b) with true by (symmetry; apply Z.ltb_lt; lia).
  cbn [andb bind]. rewrite add_same by shape_eq. cbn [bind].
  rewrite DeconvBlock_eq, Z.eqb_refl.
  replace (0 <? 8 * a) with true by (symmetry; apply Z.ltb_lt; lia).
  replace (0 <? 8 * b) with true by (symmetry; apply Z.ltb_lt; lia).
  cbn [andb bind].
  unfold ConvTranspose2d, tconv_out. rewrite Z.eqb_refl.
  replace (0 <? (2 * (8 * a) - 1) * 2 - 2 * 0 + 3 + 0) with true
    by (symmetry; apply Z.ltb_lt; lia).
  replace (0 <? (2 * (8 * b) - 1) * 2 - 2 * 0 + 3 + 0) with true
    by (symmetry; apply Z.ltb_lt; lia).
  cbn [andb bind].
  unfold Conv2d, conv_out. rewrite !Z.div_1_r, !Z.eqb_refl.
  replace (0 <? (2 * (8 * a) - 1) * 2 - 2 * 0 + 3 + 0 + 2 * 0 - 3 + 1)
    with true by (symmetry; apply Z.ltb_lt; lia).
  replace (0 <? (2 * (8 * b) - 1) * 2 - 2 * 0 + 3 + 0 + 2 * 0 - 3 + 1)
    with true by (symmetry; apply Z.ltb_lt; lia).
  cbn [andb bind]. rewrite !Z.div_1_r, !Z.eqb_refl.
  replace (0 <? (2 * (8 * a) - 1) * 2 - 2 * 0 + 3 + 0 + 2 * 0 - 3 + 1
                + 2 * 1 - 2 + 1)
    with true by (symmetry; apply Z.ltb_lt; lia).
  replace (0 <? (2 * (8 * b) - 1) * 2 - 2 * 0 + 3 + 0 + 2 * 0 - 3 + 1
                + 2 * 1 - 2 + 1)
    with true by (symmetry; apply Z.ltb_lt; lia).
  cbn [andb]. shape_eq.
Qed.

(** X15.  When height and width of the input are multiples of 32 and
    [BallDetection.forward] accepts it, [Segmentation.forward] accepts
    the four encoder blocks and returns three channels at the
    resolution of the input: [(N, 3, H, W)]. *)
Theorem segmentation_input_resolution (n h w : Z) (b : BallShapes) :
  h mod 32 = 0 -> w mod 32 = 0 ->
  BallDetection [n; 27; h; w] = Some b ->
  Segmentation (out_block2 b) (out_block3 b) (out_block4 b) (out_block5 b)
  = Some [n; 3; h; w].
Proof.
  intros Hh Hw. rewrite BallDetection_eq.
  destruct ((27 =? 27) && (64 <=? h) && (64 <=? w) && negb (n =? 0)
            && (h / 64 * (w / 64) =? 10)) eqn:E; [|discriminate].
  intros [= <-]. cbn [out_block2 out_block3 out_block4 out_block5].
  reflect_tests.
  pose proof (Segmentation_blocks n (h / 32) (w / 32)
                ltac:(div_lia) ltac:(div_lia)) as Hseg.
  replace (8 * (h / 32)) with (h / 4) in Hseg by div_lia.
  replace (8 * (w / 32)) with (w / 4) in Hseg by div_lia.
  replace (4 * (h / 32)) with (h / 8) in Hseg by div_lia.
  replace (4 * (w / 32)) with (w / 8) in Hseg by div_lia.
  replace (2 * (h / 32)) with (h / 16) in Hseg by div_lia.
  replace (2 * (w / 32)) with (w / 16) in Hseg by div_lia.
  replace (32 * (h / 32)) with h in Hseg by div_lia.
  replace (32 * (w / 32)) with w in Hseg by div_lia.
  exact Hseg.
Qed.

Lemma segmentation_input_resolution_example :
  Segmentation [10; 64; 128 / 4; 320 / 4] [10; 128; 128 / 8; 320 / 8]
               [10; 128; 128 / 16; 320 / 16] [10; 256; 128 / 32; 320 / 32]
  = Some [10; 3; 128; 320].
Proof.
  apply (segmentation_input_resolution 10 128 320
           (mkBallShapes [10; 448] [10; 256; 128 / 64; 320 / 64]
              [10; 64; 128 / 4; 320 / 4] [10; 128; 128 / 8; 320 / 8]
              [10; 128; 128 / 16; 320 / 16] [10; 256; 128 / 32; 320 / 32]));
    reflexivity.
Defined.

End ShapeFacts.

(** ** The forward pass *)

Module ForwardClaims.

Import Torch TTNet Pipeline CropFacts.

Lemma size4_inv (t : Tensor4) (n c h w : Z) :
  size4 t = [n; c; h; w] ->
  size0 t = n /\ size1 t = c /\ size2 t = h /\ size3 t = w.
Proof. unfold size4. intros [= -> -> -> ->]. tauto. Qed.

(** The shapes a stage of ball detection returns for resized frames. *)
Lemma BallDetection_frames (N : Z) :
  0 < N ->
  Shapes.BallDetection [N; 27; 128; 320]
  = Some (Shapes.mkBallShapes [N; 448] [N; 256; 2; 5] [N; 64; 32; 80]
            [N; 128; 16; 40] [N; 128; 8; 20] [N; 256; 4; 10]).
Proof.
  intros HN. rewrite ShapeFacts.BallDetection_eq.
  replace (N =? 0) with false by (symmetry; apply Z.eqb_neq; lia).
  reflexivity.
Qed.

Lemma ball_stage_frames (stage : Tensor4 -> option BallOut) (x : Tensor4)
  (N : Z) :
  ball_stage_shaped stage -> 0 < N -> size4 x = [N; 27; 128; 320] ->
  exists g,
    stage x = Some g
    /\ has_shape (out g) [N; 448]
    /\ size4 (features g) = [N; 256; 2; 5]
    /\ size4 (out_block2 g) = [N; 64; 32; 80]
    /\ size4 (out_block3 g) = [N; 128; 16; 40]
    /\ size4 (out_block4 g) = [N; 128; 8; 20]
    /\ size4 (out_block5 g) = [N; 256; 4; 10].
Proof.
  intros Hstage HN Hx. specialize (Hstage x).
  rewrite Hx, BallDetection_frames in Hstage by exact HN. exact Hstage.
Qed.

(** [EventsSpotting.forward] is the concatenation followed by the head. *)
Lemma EventsSpotting_head (g l : Shapes.Shape) :
  Shapes.EventsSpotting g l = Shapes.bind (Shapes.cat1 g l) EventsHead.
Proof. reflexivity. Qed.

(** The head accepts 512 channels on the 2x5 grid of the features. *)
Lemma EventsHead_features (N : Z) :
  0 < N -> EventsHead [N; 512; 2; 5] = Some [N; 2].
Proof.
  intros HN.
  pose proof (ShapeFacts.EventsSpotting_eq N 256 2 5 N 256 2 5) as H.
  rewrite EventsSpotting_head in H. unfold Shapes.cat1 in H.
  rewrite !Z.eqb_refl in H. cbn [andb Shapes.bind] in H.
  change (256 + 256) with 512 in H. rewrite H.
  replace (N =? 0) with false by (symmetry; apply Z.eqb_neq; lia).
  reflexivity.
Qed.

(** C5.  On a network built from the layers of [TTNet.py], for a
    non-empty batch of 1080x1920 frames and its 128x320 resized copy,
    [TTNet.forward] returns [(pred_ball_global, pred_ball_local,
    pred_eventspotting, pred_segmentation)] where: [pred_ball_global] is
    what the global stage yields on the resized frames; the local stage
    is applied to the result of [crop_original_batch] on the original
    frames, the resized frames and that prediction, and yields
    [pred_ball_local]; event spotting is applied to a tensor of 512
    channels whose first 256 channels are the features of the global
    stage and whose last 256 are the features of the local stage;
    segmentation is applied to the four encoder blocks of the global
    stage.  The outputs have the shapes (N, 448), (N, 448), (N, 2) and
    (N, 3, 128, 320). *)
Theorem forward_pipeline (self : TTNet)
  (original_batch_input resize_batch_input : Tensor4) (N : Z) :
  layers_shaped self ->
  w_resize self = 320 -> h_resize self = 128 ->
  0 < N ->
  size4 original_batch_input = [N; 27; 1080; 1920] ->
  size4 resize_batch_input = [N; 27; 128; 320] ->
  exists g input_ball_local l input_eventspotting
         pred_eventspotting pred_segmentation,
    forward self original_batch_input resize_batch_input
    = Some (out g, out l, pred_eventspotting, pred_segmentation)
    /\ ball_global_stage self resize_batch_input = Some g
    /\ crop_original_batch self original_batch_input resize_batch_input
                           (out g) = Some input_ball_local
    /\ ball_local_stage self input_ball_local = Some l
    /\ size4 input_eventspotting = [N; 512; 2; 5]
    /\ (forall n c y x,
          elem4 input_eventspotting n c y x
          = if c <? 256 then elem4 (features g) n c y x
            else elem4 (features l) n (c - 256) y x)
    /\ events_head self input_eventspotting = Some pred_eventspotting
    /\ segmentation self (out_block2 g) (out_block3 g) (out_block4 g)
                    (out_block5 g) = Some pred_segmentation
    /\ has_shape (out g) [N; 448] /\ has_shape (out l) [N; 448]
    /\ has_shape pred_eventspotting [N; 2]
    /\ size4 pred_segmentation = [N; 3; 128; 320].
Proof.
  intros (Hglobal & Hlocal & Hhead & Hseg) Hw Hh HN So Sr.
  apply size4_inv in So as (O0 & O1 & O2 & O3).
  destruct (ball_stage_frames _ resize_batch_input N Hglobal HN Sr)
    as (g & Eg & Sg & Fg & B2 & B3 & B4 & B5).
  apply size4_inv in Sr as (R0 & R1 & R2 & R3).
  pose proof Sg as [Lg Rg].
  (* the crop *)
  destruct (crop_original_batch_spec self original_batch_input
              resize_batch_input (out g))
    as (input_ball_local & Ecrop & (C0 & C1 & C2 & C3) & _); try lia.
  { unfold local_shape. lia. }
  { rewrite Hw, Hh. exact Rg. }
  (* the local stage *)
  destruct (ball_stage_frames _ input_ball_local N Hlocal HN)
    as (l & El & Sl & Fl & _).
  { unfold size4. rewrite C0, C1, C2, C3, O0, O1, Hw, Hh. reflexivity. }
  (* the concatenation *)
  pose proof (size4_inv _ _ _ _ _ Fg) as (G0 & G1 & G2 & G3).
  pose proof (size4_inv _ _ _ _ _ Fl) as (L0 & L1 & L2 & L3).
  assert (exists input_eventspotting,
            cat1 (features g) (features l) = Some input_eventspotting
            /\ size4 input_eventspotting = [N; 512; 2; 5]
            /\ forall n c y x,
                elem4 input_eventspotting n c y x
                = if c <? 256 then elem4 (features g) n c y x
                  else elem4 (features l) n (c - 256) y x)
    as (input_eventspotting & Ecat & Scat & Hcat).
  { unfold cat1. rewrite G0, G1, G2, G3, L0, L1, L2, L3, !Z.eqb_refl.
    cbn [andb]. eexists. split; [reflexivity|]. split; reflexivity. }
  (* the head of event spotting *)
  pose proof (Hhead input_eventspotting) as He.
  rewrite Scat, EventsHead_features in He by exact HN.
  destruct He as (pred_eventspotting & Eev & Sev).
  (* segmentation *)
  pose proof (Hseg (out_block2 g) (out_block3 g) (out_block4 g) (out_block5 g))
    as Hs.
  rewrite B2, B3, B4, B5 in Hs.
  pose proof (ShapeFacts.Segmentation_blocks N 4 10 ltac:(lia) ltac:(lia))
    as Eblocks.
  change (8 * 4) with 32 in Eblocks. change (8 * 10) with 80 in Eblocks.
  change (4 * 4) with 16 in Eblocks. change (4 * 10) with 40 in Eblocks.
  change (2 * 4) with 8 in Eblocks. change (2 * 10) with 20 in Eblocks.
  change (32 * 4) with 128 in Eblocks. change (32 * 10) with 320 in Eblocks.
  rewrite Eblocks in Hs. destruct Hs as (pred_segmentation & Eseg & Sseg).
  exists g, input_ball_local, l, input_eventspotting, pred_eventspotting,
    pred_segmentation.
  split.
  { unfold forward, events_spotting.
    now rewrite Eg, Ecrop, El, Ecat, Eev, Eseg. }
  split; [exact Eg|]. split; [exact Ecrop|]. split; [exact El|].
  split; [exact Scat|]. split; [exact Hcat|]. split; [exact Eev|].
  split; [exact Eseg|]. split; [exact Sg|]. split; [exact Sl|].
  split; [exact Sev | exact Sseg].
Qed.

Lemma has_shape_const2 (n k : Z) (v : Q) : has_shape (const2 [n; k] v) [n; k].
Proof.
  unfold has_shape, const2. split; [apply repeat_length|].
  apply Forall_forall. intros row Hrow. apply repeat_spec in Hrow.
  subst row. apply repeat_length.
Qed.

(** The layers of the example network have the shapes of the layers of
    [TTNet.py]. *)
Lemma shaped_net_layers : layers_shaped shaped_net.
Proof.
  assert (ball_stage_shaped shaped_stage) as Hstage.
  { intros x. unfold shaped_stage, size4.
    rewrite ShapeFacts.BallDetection_eq.
    destruct (_ && _); [|reflexivity].
    eexists. split; [reflexivity|].
    cbn [out features out_block2 out_block3 out_block4 out_block5
         Shapes.out Shapes.features Shapes.out_block2 Shapes.out_block3
         Shapes.out_block4 Shapes.out_block5 const4].
    split; [apply has_shape_const2|]. repeat split. }
  split; [exact Hstage|]. split; [exact Hstage|]. split.
  - intros x. cbn [shaped_net events_head].
    destruct (EventsHead (size4 x)) as [s|] eqn:E; [|reflexivity].
    eexists. split; [reflexivity|].
    unfold EventsHead in E.
    repeat match type of E with
      | Shapes.bind ?a _ = Some _ =>
          destruct a as [?|]; cbn [Shapes.bind] in E; [|discriminate]
      end.
    unfold Shapes.Linear in E.
    repeat match type of E with
      | match ?a with _ => _ end = Some _ => destruct a; try discriminate
      end.
    injection E as <-. apply has_shape_const2.
  - intros b2 b3 b4 b5. cbn [shaped_net segmentation].
    destruct (Shapes.Segmentation _ _ _ _) as [s|] eqn:E; [|reflexivity].
    eexists. split; [reflexivity|].
    unfold Shapes.Segmentation in E.
    repeat match type of E with
      | Shapes.bind ?a _ = Some _ =>
          destruct a as [?|]; cbn [Shapes.bind] in E; [|discriminate]
      end.
    unfold Shapes.Conv2d in E.
    repeat match type of E with
      | match ?a with _ => _ end = Some _ => destruct a; try discriminate
      end.
    injection E as <-. reflexivity.
Qed.

Lemma forward_pipeline_example :
  exists g input_ball_local l input_eventspotting
         pred_eventspotting pred_segmentation,
    forward shaped_net (example_frames 2 27 1080 1920)
            (example_frames 2 27 128 320)
    = Some (out g, out l, pred_eventspotting, pred_segmentation)
    /\ ball_global_stage shaped_net (example_frames 2 27 128 320) = Some g
    /\ crop_original_batch shaped_net (example_frames 2 27 1080 1920)
         (example_frames 2 27 128 320) (out g) = Some input_ball_local
    /\ ball_local_stage shaped_net input_ball_local = Some l
    /\ size4 input_eventspotting = [2; 512; 2; 5]
    /\ (forall n c y x,
          elem4 input_eventspotting n c y x
          = if c <? 256 then elem4 (features g) n c y x
            else elem4 (features l) n (c - 256) y x)
    /\ events_head shaped_net input_eventspotting = Some pred_eventspotting
    /\ segmentation shaped_net (out_block2 g) (out_block3 g) (out_block4 g)
                    (out_block5 g) = Some pred_segmentation
    /\ has_shape (out g) [2; 448] /\ has_shape (out l) [2; 448]
    /\ has_shape pred_eventspotting [2; 2]
    /\ size4 pred_segmentation = [2; 3; 128; 320].
Proof.
  apply (forward_pipeline shaped_net (example_frames 2 27 1080 1920)
           (example_frames 2 27 128 320) 2 shaped_net_layers);
    first [reflexivity | lia].
Defined.

End ForwardClaims.

(** ** The demo at the border of the image *)

Module MoreFacts.

Import Torch TTNet TorchFacts TTNetFacts CropFacts.

Lemma demo_x (gx gy lx ly : Z) :
  fst (Demo.prediction_ball_final (gx, gy) (lx, ly)) = 6 * gx + lx - 160.
Proof.
  remember (6 * gx + lx - 160) as reported eqn:E.
  unfold Demo.prediction_ball_final, Demo.w_ratio, Demo.h_ratio, Py.int.
  cbn [fst snd]. cbn. subst reported.
  Z.to_euclidean_division_equations; lia.
Qed.

(** X17.  In x the demo always reports [x_center + lx - 160].  The local
    input shows at its column [lx] the column [x_min + (lx - x_pad)] of
    the original image, with [x_pad = floor((320 - w_crop) / 2)]; for a
    grid column [0 <= gx < 320] the two agree exactly when the window is
    not clamped in x, so near the left and the right border the
    reported position is off. *)
Theorem demo_exact_iff_unclamped (gx gy lx ly x_min x_max y_min y_max : Z) :
  0 <= gx < 320 ->
  get_crop_params (scale_pos (inject_Z 1920 / inject_Z 320) gx)
                  (scale_pos (inject_Z 1080 / inject_Z 128) gy)
                  320 128 1920 1080
  = (x_min, x_max, y_min, y_max) ->
  fst (Demo.prediction_ball_final (gx, gy) (lx, ly))
  = scale_pos (inject_Z 1920 / inject_Z 320) gx + lx - 160
  /\ (fst (Demo.prediction_ball_final (gx, gy) (lx, ly))
      = x_min + (lx - (320 - (x_max - x_min)) / 2)
      <-> 0 <= scale_pos (inject_Z 1920 / inject_Z 320) gx - 160
          /\ scale_pos (inject_Z 1920 / inject_Z 320) gx + 160 <= 1920).
Proof.
  intros Hgx. unfold get_crop_params, scale_pos.
  rewrite !PyFacts.int_half, !PyFacts.int_scale by lia.
  change (Z.quot 320 2) with 160. change (Z.quot 128 2) with 64.
  intros [= <- <- <- <-]. rewrite demo_x.
  assert (Z.quot (gx * 1920) 320 = 6 * gx) as ->
    by (Z.to_euclidean_division_equations; lia).
  split; [lia|].
  split; intros H; Z.to_euclidean_division_equations; lia.
Qed.

Lemma demo_exact_iff_unclamped_example :
  fst (Demo.prediction_ball_final (10, 50) (7, 9))
  = scale_pos (inject_Z 1920 / inject_Z 320) 10 + 7 - 160
  /\ (fst (Demo.prediction_ball_final (10, 50) (7, 9))
      = 0 + (7 - (320 - (320 - 0)) / 2)
      <-> 0 <= scale_pos (inject_Z 1920 / inject_Z 320) 10 - 160
          /\ scale_pos (inject_Z 1920 / inject_Z 320) 10 + 160 <= 1920).
Proof.
  apply (demo_exact_iff_unclamped 10 50 7 9 0 320 357 485);
    first [lia | vm_compute; congruence].
Defined.

End MoreFacts.

(** ** An edge of [load_weights_local_stage] *)

Module EdgeFacts.

Import String ModelUtils NameFacts DictFacts.
Local Open Scope string_scope.

Lemma local_name_one_component (k : string) :
  dot_free k = true -> local_name k = None.
Proof.
  intros H. unfold local_name. now rewrite (split_one k H).
Qed.

Lemma local_loop_raises {V} (items : list (string * V)) :
  forall acc k v,
    In (k, v) items -> contains "ball_global_stage" k = true ->
    local_name k = None ->
    local_loop V items acc = None.
Proof.
  induction items as [|[k0 v0] rest IH]; intros acc k v Hin Hg Hname;
    [contradiction|].
  cbn [local_loop local_step].
  destruct Hin as [[= -> ->]|Hin].
  - now rewrite Hg, Hname.
  - destruct (contains "ball_global_stage" k0).
    + destruct (local_name k0); [|reflexivity]. now apply IH with k v.
    + now apply IH with k v.
Qed.

(** X18.  A state dict with a key that contains ['ball_global_stage'] and
    has no dot makes [load_weights_local_stage] raise ([IndexError] on
    the missing second component), whatever else the dict holds. *)
Theorem load_weights_local_stage_raises {V} (pretrained_dict : dict V)
  (k : string) (v : V) :
  In (k, v) pretrained_dict ->
  contains "ball_global_stage" k = true ->
  dot_free k = true ->
  load_weights_local_stage pretrained_dict = None.
Proof.
  intros Hin Hg Hdot. unfold load_weights_local_stage.
  rewrite (local_loop_raises pretrained_dict [] k v Hin Hg
             (local_name_one_component k Hdot)).
  reflexivity.
Qed.

Lemma load_weights_local_stage_raises_example :
  load_weights_local_stage
    [("model.segmentation.conv1.weight", 5); ("ball_global_stage_bias", 7)]
  = None.
Proof.
  apply (load_weights_local_stage_raises
           [("model.segmentation.conv1.weight", 5);
            ("ball_global_stage_bias", 7)]
           "ball_global_stage_bias" 7);
    [right; now left | reflexivity | reflexivity].
Defined.

End EdgeFacts.

(** ** The entries of [get_events_infor] *)

Module EventsFacts.

Import String ModelUtils Events.

Section Entries.

Variable events_dict : dict Z.
Variable num_frames_from_event : Z.

(** The body of the loop appends an entry exactly for the events that
    have one. *)
Lemma event_outcome_appends (game : Game) (event : Z * string) (info : Info) :
  event_outcome events_dict num_frames_from_event game event = Appends info
  <-> entry_of events_dict num_frames_from_event game event info.
Proof.
  unfold event_outcome, entry_of. destruct event as [e name]. cbn [fst snd].
  destruct (lookup (ball_annos game) (e + num_frames_from_event))
    as [[x y]|] eqn:El; cbn [fst snd].
  - destruct (Z.ltb_spec x 0) as [Hx|Hx]; cbn [orb].
    { split; [discriminate|]. intros (Hpos & H0 & _).
      injection Hpos as Hpos. rewrite <- Hpos in H0. cbn in H0. lia. }
    destruct (Z.ltb_spec y 0) as [Hy|Hy].
    { split; [discriminate|]. intros (Hpos & _ & H0 & _).
      injection Hpos as Hpos. rewrite <- Hpos in H0. cbn in H0. lia. }
    destruct (has_mask game (e + num_frames_from_event)).
    + destruct (dict_get events_dict name) as [cls|].
      * split.
        -- intros [= <-]. cbn. repeat split; assumption.
        -- destruct info as [paths pos cls' seg].
           cbn [ball_position_xy event_class img_path_list seg_path].
           intros (Hpos & _ & _ & _ & Hcls & Hpaths & Hseg). congruence.
      * split; [discriminate|]. intros (_ & _ & _ & _ & H & _). discriminate.
    + split; [discriminate|]. intros (_ & _ & _ & H & _). discriminate.
  - split; [discriminate|]. intros (H & _). discriminate.
Qed.

Lemma event_outcome_skips (game : Game) (event : Z * string) (info : Info) :
  event_outcome events_dict num_frames_from_event game event = Skips ->
  ~ entry_of events_dict num_frames_from_event game event info.
Proof.
  intros H He. apply event_outcome_appends in He. congruence.
Qed.

Lemma events_loop_spec (game : Game) (events : list (Z * string)) :
  forall acc r,
    events_loop events_dict num_frames_from_event game events acc = Some r ->
    exists new,
      fst r = fst acc ++ new
      /\ snd r = snd acc ++ map event_class new
      /\ forall info,
          In info new
          <-> exists event,
              In event events
              /\ entry_of events_dict num_frames_from_event game event info.
Proof.
  induction events as [|event rest IH]; intros acc r; cbn [events_loop].
  - intros [= <-]. exists []. rewrite !app_nil_r. repeat split; try tauto.
    + intros [].
    + intros (event & [] & _).
  - destruct (event_outcome events_dict num_frames_from_event game event)
      as [| |info0] eqn:Eo; [discriminate| |].
    + intros Hrun. destruct (IH _ _ Hrun) as (new & H1 & H2 & H3).
      exists new. split; [exact H1|]. split; [exact H2|].
      intros info. rewrite H3. split.
      * intros (ev & Hin & He). exists ev. split; [now right | exact He].
      * intros (ev & [<-|Hin] & He).
        -- exfalso. exact (event_outcome_skips _ _ _ Eo He).
        -- now exists ev.
    + intros Hrun. destruct (IH _ _ Hrun) as (new & H1 & H2 & H3).
      cbn [fst snd] in H1, H2.
      exists (info0 :: new).
      split; [rewrite H1, <- app_assoc; reflexivity|].
      split; [rewrite H2, <- app_assoc; reflexivity|].
      intros info. cbn [In]. rewrite H3. split.
      * intros [<-|(ev & Hin & He)].
        -- exists event. split; [now left | now apply event_outcome_appends].
        -- exists ev. split; [now right | exact He].
      * intros (ev & [<-|Hin] & He).
        -- left. apply event_outcome_appends in He. congruence.
        -- right. now exists ev.
Qed.

Lemma games_loop_spec (game_list : list Game) :
  forall acc r,
    games_loop events_dict num_frames_from_event game_list acc = Some r ->
    exists new,
      fst r = fst acc ++ new
      /\ snd r = snd acc ++ map event_class new
      /\ forall info,
          In info new
          <-> exists game event,
              In game game_list /\ In event (events_annos game)
              /\ entry_of events_dict num_frames_from_event game event info.
Proof.
  induction game_list as [|game rest IH]; intros acc r; cbn [games_loop].
  - intros [= <-]. exists []. rewrite !app_nil_r. repeat split; try tauto.
    + intros [].
    + intros (game & event & [] & _).
  - destruct (events_loop events_dict num_frames_from_event game
                (events_annos game) acc) as [acc'|] eqn:Ee; [|discriminate].
    intros Hrun.
    destruct (events_loop_spec _ _ _ _ Ee) as (new1 & A1 & A2 & A3).
    destruct (IH _ _ Hrun) as (new2 & B1 & B2 & B3).
    exists (new1 ++ new2).
    split; [rewrite B1, A1, <- app_assoc; reflexivity|].
    split; [rewrite B2, A2, map_app, <- app_assoc; reflexivity|].
    intros info. rewrite in_app_iff, A3, B3. split.
    + intros [(ev & Hin & He)|(g & ev & Hg & Hin & He)].
      * exists game, ev. split; [now left | now split].
      * exists g, ev. split; [now right | now split].
    + intros (g & ev & [<-|Hg] & Hin & He).
      * left. now exists ev.
      * right. now exists g, ev.
Qed.

End Entries.

(** X20.  When [get_events_infor] returns, the labels are the classes of
    the entries, in order, and the entries are exactly those of the
    events whose sequence ends on a frame with an annotated ball position
    that is not negative: such an event contributes its
    [2 * num_frames_from_event + 1] frames, the ball position of the last
    of them (not of the event frame), its class and the mask of the last
    frame; events with a negative coordinate contribute nothing. *)
Theorem events_infor_entries (game_list : list Game)
  (num_frames_sequence : Z) (events_dict : dict Z)
  (events_infor : list Info) (events_labels : list Z) :
  get_events_infor game_list num_frames_sequence events_dict
  = Some (events_infor, events_labels) ->
  events_labels = map event_class events_infor
  /\ forall info,
      In info events_infor
      <-> exists game event,
          In game game_list /\ In event (events_annos game)
          /\ entry_of events_dict (Z.quot (num_frames_sequence - 1) 2)
                      game event info.
Proof.
  unfold get_events_infor. rewrite PyFacts.int_half. intros Hrun.
  destruct (games_loop_spec _ _ _ _ _ Hrun) as (new & H1 & H2 & H3).
  cbn [fst snd app] in H1, H2. subst. split; [reflexivity | exact H3].
Qed.


Lemma events_infor_entries_example :
  [0] = map event_class
          [mkInfo (map (fun f_idx => ("game_1"%string, f_idx)) (frames 4 10))
                  (100, 50) 0 ("game_1"%string, 14)]
  /\ forall info,
      In info
         [mkInfo (map (fun f_idx => ("game_1"%string, f_idx)) (frames 4 10))
                 (100, 50) 0 ("game_1"%string, 14)]
      <-> exists game event,
          In game [mkGame "game_1" [(14, (100, 50)); (24, (-1, -1))]
                          [(10, "bounce"%string); (20, "net"%string)]
                          (fun _ => true)]
          /\ In event (events_annos game)
          /\ entry_of [("bounce"%string, 0); ("net"%string, 1);
                       ("empty_event"%string, 2)]
                      (Z.quot (9 - 1) 2) game event info.
Proof.
  apply (events_infor_entries
           [mkGame "game_1" [(14, (100, 50)); (24, (-1, -1))]
                   [(10, "bounce"%string); (20, "net"%string)]
                   (fun _ => true)]
           9
           [("bounce"%string, 0); ("net"%string, 1);
            ("empty_event"%string, 2)]).
  reflexivity.
Defined.

Lemma length_frames (n e : Z) :
  0 <= n -> List.length (frames n e) = Z.to_nat (2 * n + 1).
Proof.
  intros Hn. unfold frames, range2, Py.range.
  rewrite !length_map, length_seq. f_equal. lia.
Qed.

Lemma last_frame (n e : Z) :
  0 <= n -> nth_error (frames n e) (Z.to_nat (2 * n)) = Some (e + n).
Proof.
  intros Hn. unfold frames, range2, Py.range.
  rewrite !nth_error_map, nth_error_seq.
  replace (e + n + 1 - (e - n)) with (2 * n + 1) by lia.
  destruct (Nat.ltb_spec (Z.to_nat (2 * n)) (Z.to_nat (2 * n + 1))); [|lia].
  cbn [option_map]. f_equal. lia.
Qed.

(** X21.  When [get_events_infor] returns for [num_frames_sequence >=
    1], every entry lists [num_frames_sequence] image paths if that
    number is odd and one fewer if it is even, and the last path is that
    of the frame whose mask and ball position the entry carries. *)
Theorem events_infor_sequences (game_list : list Game)
  (num_frames_sequence : Z) (events_dict : dict Z)
  (events_infor : list Info) (events_labels : list Z) :
  1 <= num_frames_sequence ->
  get_events_infor game_list num_frames_sequence events_dict
  = Some (events_infor, events_labels) ->
  forall info,
    In info events_infor ->
    Z.of_nat (List.length (img_path_list info))
    = (if Z.odd num_frames_sequence
       then num_frames_sequence else num_frames_sequence - 1)
    /\ nth_error (img_path_list info) (List.length (img_path_list info) - 1)
       = Some (seg_path info).
Proof.
  intros Hn. unfold get_events_infor. rewrite PyFacts.int_half. intros Hrun.
  destruct (games_loop_spec _ _ _ _ _ Hrun) as (new & H1 & _ & H3).
  cbn [fst snd app] in H1. subst new.
  intros info Hin. apply H3 in Hin as (game & [e name] & _ & _ & He).
  destruct He as (_ & _ & _ & _ & _ & Hpaths & Hseg). cbn [fst] in *.
  rewrite Z.quot_div_nonneg in * by lia.
  pose proof (Z.div_pos (num_frames_sequence - 1) 2 ltac:(lia) ltac:(lia))
    as Hpos.
  rewrite Hpaths, Hseg, length_map, length_frames by assumption. split.
  - rewrite Z2Nat.id by lia.
    rewrite <- Z.negb_even.
    destruct (Z.even num_frames_sequence) eqn:E; cbn [negb].
    + apply Z.even_spec in E as [k ->]. Z.to_euclidean_division_equations; lia.
    + assert (Z.odd num_frames_sequence = true) as Ho
          by (now rewrite <- Z.negb_even, E).
      apply Z.odd_spec in Ho as [k ->].
      Z.to_euclidean_division_equations; lia.
  - rewrite nth_error_map.
    replace (Z.to_nat (2 * ((num_frames_sequence - 1) / 2) + 1) - 1)%nat
      with (Z.to_nat (2 * ((num_frames_sequence - 1) / 2))) by lia.
    now rewrite last_frame by assumption.
Qed.

Lemma events_infor_sequences_example :
  Z.of_nat
    (List.length
       (img_path_list
          (mkInfo (map (fun f_idx => ("game_1"%string, f_idx)) (frames 4 10))
                  (100, 50) 0 ("game_1"%string, 14))))
  = (if Z.odd 9 then 9 else 9 - 1)
  /\ nth_error
       (img_path_list
          (mkInfo (map (fun f_idx => ("game_1"%string, f_idx)) (frames 4 10))
                  (100, 50) 0 ("game_1"%string, 14)))
       (List.length
          (img_path_list
             (mkInfo (map (fun f_idx => ("game_1"%string, f_idx)) (frames 4 10))
                     (100, 50) 0 ("game_1"%string, 14))) - 1)
     = Some ("game_1"%string, 14).
Proof.
  apply (events_infor_sequences
           [mkGame "game_1" [(14, (100, 50)); (24, (-1, -1))]
                   [(10, "bounce"%string); (20, "net"%string)]
                   (fun _ => true)]
           9
           [("bounce"%string, 0); ("net"%string, 1);
            ("empty_event"%string, 2)]
           [mkInfo (map (fun f_idx => ("game_1"%string, f_idx)) (frames 4 10))
                   (100, 50) 0 ("game_1"%string, 14)]
           [0]
           ltac:(lia) eq_refl
           (mkInfo (map (fun f_idx => ("game_1"%string, f_idx)) (frames 4 10))
                   (100, 50) 0 ("game_1"%string, 14))
           (or_introl eq_refl)).
Defined.

Lemma events_loop_raises (events_dict : dict Z) (n : Z) (game : Game)
  (events : list (Z * string)) :
  forall acc event,
    In event events ->
    event_outcome events_dict n game event = Raises ->
    events_loop events_dict n game events acc = None.
Proof.
  induction events as [|ev rest IH]; intros acc event Hin Hraise;
    [contradiction|].
  cbn [events_loop]. destruct Hin as [->|Hin].
  - now rewrite Hraise.
  - destruct (event_outcome events_dict n game ev);
      [reflexivity | now apply IH with event | now apply IH with event].
Qed.

Lemma games_loop_raises (events_dict : dict Z) (n : Z)
  (game_list : list Game) :
  forall acc game event,
    In game game_list -> In event (events_annos game) ->
    event_outcome events_dict n game event = Raises ->
    games_loop events_dict n game_list acc = None.
Proof.
  induction game_list as [|g rest IH]; intros acc game event Hg Hin Hraise;
    [contradiction|].
  cbn [games_loop]. destruct Hg as [->|Hg].
  - now rewrite (events_loop_raises _ _ _ _ acc event Hin Hraise).
  - destruct (events_loop events_dict n g (events_annos g) acc);
      [now apply IH with game event | reflexivity].
Qed.

(** X22.  The ball position is looked up for the last frame of the
    sequence, [num_frames_from_event] frames after the event: an event
    whose last frame has no ball annotation makes [get_events_infor]
    raise ([KeyError]), whatever the other events are. *)
Theorem events_infor_missing_annotation (game_list : list Game)
  (num_frames_sequence : Z) (events_dict : dict Z)
  (game : Game) (event_frameidx : Z) (event_name : string) :
  In game game_list ->
  In (event_frameidx, event_name) (events_annos game) ->
  lookup (ball_annos game)
         (event_frameidx + Z.quot (num_frames_sequence - 1) 2) = None ->
  get_events_infor game_list num_frames_sequence events_dict = None.
Proof.
  intros Hg Hin Hmiss. unfold get_events_infor. rewrite PyFacts.int_half.
  apply games_loop_raises with game (event_frameidx, event_name);
    try assumption.
  unfold event_outcome. now rewrite Hmiss.
Qed.

Lemma events_infor_missing_annotation_example :
  get_events_infor
    [mkGame "game_1" [(10, (100, 50)); (11, (101, 50))]
            [(10, "bounce"%string)] (fun _ => true)]
    9 [("bounce"%string, 0)]
  = None.
Proof.
  apply (events_infor_missing_annotation
           [mkGame "game_1" [(10, (100, 50)); (11, (101, 50))]
                   [(10, "bounce"%string)] (fun _ => true)]
           9 [("bounce"%string, 0)]
           (mkGame "game_1" [(10, (100, 50)); (11, (101, 50))]
                   [(10, "bounce"%string)] (fun _ => true))
           10 "bounce");
    [now left | now left | reflexivity].
Defined.

End EventsFacts.
